(** * Usage aggregation and enablement policy of the admin panel (users.js)

    A shallow embedding of the background aggregation loop of
    [registerUserRoutes] in [src/users.js] and of the mutation endpoints
    that share its two JSON stores, followed by the properties of the
    loop.

    Modelling conventions.
    - Byte counters and timestamps are JavaScript numbers holding integers;
      they are modelled as [Z] (exact below 2^53).  Quotas are finite
      doubles, hence rationals: [Q].  Dividing an integer below 2^53 by
      2^30 is exact in binary floating point, so [usagePreciseGB] is the
      rational [accumBytes / 2^30] and the comparison with the quota is
      exact.
    - A field that may be absent in a JSON record is an [option]; an absent
      or empty string field is the empty string (both are falsy for [||]).
    - [readJson] throws when the file is missing or does not parse: a file
      is an [option] of its parsed content.  [writeJson] replaces the
      content.  Every access is recorded in the [io] trace of the world.
    - Code that can throw lives in the monad [M]: a state transformer over
      the [World] whose result is [None] when an exception propagates.
    - An [async] function is split at its [await]: [aggregate_begin] is the
      synchronous prefix of [aggregate] (up to the stats queries being
      issued) and [aggregate_resume] the rest, run once the queries have
      settled.  The per-user block after the [await] runs without
      interleaving; users are reconciled in index order (steps on different
      keys commute, [reconcile_commute]).
    - [new Date(s)] is the runtime's date parser, a parameter of the
      development; [now] stands for the [Date.now()] readings of one cycle.
      The [vlessUrl] presentation string and the reload / restart of the
      Xray service touch neither store and are left out.
    - The last part of the definitions adds GET, POST and PUT /api/users
      and [syncVlessClients]; the configuration file it edits is kept apart
      from the [World], and [String.prototype.trim] and the comparison key
      of client lists are parameters. *)

From Stdlib Require Import ZArith QArith Qround Ascii String Lia Lqa.
From stdpp Require Import base option list gmap strings.

Open Scope Z_scope.

(** ** Data model *)

(** One entry of usage-store.json: [{ accumBytes, lastRawBytes }]. *)
Record entry := Entry { accumBytes : Z; lastRawBytes : Z }.

#[global] Instance entry_eq_dec : EqDecision entry.
Proof. solve_decision. Defined.

(** One record of users.json.  The stored [bandwidthUsage] field, which the
    aggregation never reads, is left out. *)
Record user := User {
  u_id : option Z;               (* [None]: absent or not finite *)
  u_username : string;
  u_uuid : string;
  u_displayName : string;
  u_expiry : string;             (* empty: never expires *)
  u_quota : option Q;            (* [None]: not a number *)
  u_enabled : option bool;       (* [None]: absent *)
  u_statKey : string;            (* empty: absent *)
  u_usageAccumBytes : option Z;
  u_lastRawBytes : option Z;
}.

Definition set_id (v : option Z) (u : user) : user :=
  User v (u_username u) (u_uuid u) (u_displayName u) (u_expiry u) (u_quota u)
       (u_enabled u) (u_statKey u) (u_usageAccumBytes u) (u_lastRawBytes u).

Definition set_statKey (v : string) (u : user) : user :=
  User (u_id u) (u_username u) (u_uuid u) (u_displayName u) (u_expiry u) (u_quota u)
       (u_enabled u) v (u_usageAccumBytes u) (u_lastRawBytes u).

Definition set_enabled (v : option bool) (u : user) : user :=
  User (u_id u) (u_username u) (u_uuid u) (u_displayName u) (u_expiry u) (u_quota u)
       v (u_statKey u) (u_usageAccumBytes u) (u_lastRawBytes u).

Definition set_usage (a l : option Z) (u : user) : user :=
  User (u_id u) (u_username u) (u_uuid u) (u_displayName u) (u_expiry u) (u_quota u)
       (u_enabled u) (u_statKey u) a l.

(** A snapshot row: the record spread ([...u]) plus the derived fields. *)
Record enriched := Enriched {
  e_user : user;
  bandwidthUsage : Q;
  bandwidthUsageRaw : Q;
  remainingBandwidth : Q;
  remainingBandwidthRaw : Q;
  daysLeft : option Z;           (* [None]: NaN (unparsable expiry) *)
}.

(** One element of the [stat] array printed by [xray api statsquery]. *)
Record stat := Stat { s_name : string; s_value : option Z }.

(** What the stats query of one user settled to. *)
Inductive query_outcome :=
| QueryFailed                       (* rejected, timed out, or unparsable stdout *)
| QueryStats (stats : list stat).   (* the parsed [j.stat || []] *)

Inductive file := USERS_FILE | USAGE_FILE.
Inductive io_event := Read (f : file) | Write (f : file).

(** The two stores, the I/O trace (latest event first) and the module-level
    variables of [registerUserRoutes]. *)
Record World := MkWorld {
  users_file : option (list user);
  usage_file : option (gmap string entry);
  io : list io_event;
  _cachedEnriched : list enriched;
  _cacheStamp : Z;
  _isAggregating : bool;
}.

(** ** The monad of throwing, world-mutating code *)

Definition M (A : Type) : Type := World -> option A * World.

Definition ret {A} (a : A) : M A := fun w => (Some a, w).
Definition bind {A B} (m : M A) (k : A -> M B) : M B :=
  fun w => match m w with
           | (Some a, w') => k a w'
           | (None, w') => (None, w')
           end.
(** [try { m } catch { h }] *)
Definition try_catch {A} (m : M A) (h : M A) : M A :=
  fun w => match m w with
           | (Some a, w') => (Some a, w')
           | (None, w') => h w'
           end.
(** [try { m } finally { f }] *)
Definition try_finally {A} (m : M A) (f : World -> World) : M A :=
  fun w => let '(r, w') := m w in (r, f w').
Definition modify (f : World -> World) : M unit := fun w => (Some tt, f w).
Definition when (b : bool) (m : M unit) : M unit := if b then m else ret tt.

Declare Scope js_scope.
Delimit Scope js_scope with js.
Notation "x <- m ;; k" := (bind m (fun x => k))
  (at level 100, m at next level, right associativity) : js_scope.
Notation "m ;;; k" := (bind m (fun _ => k))
  (at level 100, right associativity) : js_scope.

Definition run {A} (m : M A) (w : World) : World := snd (m w).

(** ** utils.js: readJson / writeJson *)

Definition log (e : io_event) (w : World) : World :=
  MkWorld (users_file w) (usage_file w) (e :: io w)
          (_cachedEnriched w) (_cacheStamp w) (_isAggregating w).

Definition readJson_USERS_FILE : M (list user) :=
  fun w => (users_file w, log (Read USERS_FILE) w).

Definition readJson_USAGE_FILE : M (gmap string entry) :=
  fun w => (usage_file w, log (Read USAGE_FILE) w).

Definition writeJson_USERS_FILE (data : list user) : M unit :=
  fun w => (Some tt,
            MkWorld (Some data) (usage_file w) (Write USERS_FILE :: io w)
                    (_cachedEnriched w) (_cacheStamp w) (_isAggregating w)).

Definition writeJson_USAGE_FILE (data : gmap string entry) : M unit :=
  fun w => (Some tt,
            MkWorld (users_file w) (Some data) (Write USAGE_FILE :: io w)
                    (_cachedEnriched w) (_cacheStamp w) (_isAggregating w)).

Definition set_isAggregating (b : bool) (w : World) : World :=
  MkWorld (users_file w) (usage_file w) (io w)
          (_cachedEnriched w) (_cacheStamp w) b.

Definition publish (snapshot : list enriched) (stamp : Z) (w : World) : World :=
  MkWorld (users_file w) (usage_file w) (io w) snapshot stamp (_isAggregating w).

(** Number of writes to a file recorded in a trace. *)
Definition is_write (f : file) (e : io_event) : bool :=
  match e, f with
  | Write USERS_FILE, USERS_FILE => true
  | Write USAGE_FILE, USAGE_FILE => true
  | _, _ => false
  end.

Definition nwrites (f : file) (t : list io_event) : nat :=
  length (List.filter (is_write f) t).

(** ** users.js: accumulateUsageAsync *)

(** [a || b] on strings. *)
Definition or_str (a b : string) : string :=
  if decide (a = EmptyString) then b else a.

(** [u.statKey || u.displayName || u.username || u.uuid] *)
Definition statKey_of (u : user) : string :=
  or_str (u_statKey u) (or_str (u_displayName u) (or_str (u_username u) (u_uuid u))).

(** The loop over [j.stat]: sums the numeric values of the entries whose
    name starts with [user>>>statKey>>>traffic>>>]. *)
Definition sum_stats (statKey : string) (stats : list stat) : Z :=
  fold_left
    (fun rawBytes s =>
       if String.prefix ("user>>>" ++ statKey ++ ">>>traffic>>>") (s_name s)
       then match s_value s with
            | Some v => rawBytes + v
            | None => rawBytes
            end
       else rawBytes)
    stats 0.

(** [rawBytes] of one worker iteration: 0 unless the query produced stats. *)
Definition query_rawBytes (statKey : string) (o : query_outcome) : Z :=
  match o with
  | QueryFailed => 0
  | QueryStats stats => sum_stats statKey stats
  end.

(** Lines 141-146: fold one observation into the in-memory store.  Returns
    [prev], the store and the [storeChanged] flag. *)
Definition reconcile (rawBytes : Z) (key : string)
    (store : gmap string entry) (storeChanged : bool)
  : entry * gmap string entry * bool :=
  match store !! key with
  | None =>
      let prev := Entry rawBytes rawBytes in
      (prev, <[key := prev]> store, true)
  | Some prev =>
      if rawBytes >=? lastRawBytes prev then
        if rawBytes >? lastRawBytes prev then
          let prev' := Entry (accumBytes prev + (rawBytes - lastRawBytes prev)) rawBytes in
          (prev', <[key := prev']> store, true)
        else (prev, <[key := prev]> store, storeChanged)
      else
        let prev' := Entry (accumBytes prev + rawBytes) rawBytes in
        (prev', <[key := prev']> store, true)
  end.

(** The worker loop, user [i] first.  [obs i] is what the query issued for
    [users[i]] settled to. *)
Fixpoint worker (obs : nat -> query_outcome) (i : nat) (users : list user)
    (store : gmap string entry) (storeChanged : bool)
  : list user * gmap string entry * bool :=
  match users with
  | [] => ([], store, storeChanged)
  | u :: rest =>
      let key := u_uuid u in
      let rawBytes := query_rawBytes (statKey_of u) (obs i) in
      let '(prev, store', changed') := reconcile rawBytes key store storeChanged in
      let u' := set_usage (Some (accumBytes prev)) (Some (lastRawBytes prev)) u in
      let '(rest', store'', changed'') := worker obs (S i) rest store' changed' in
      (u' :: rest', store'', changed'')
  end.

(** ** users.js: baseLoadUsers *)

(** [users.reduce((m,u) => Number.isFinite(u.id) ? Math.max(m,u.id) : m, 0)] *)
Definition maxId_of (users : list user) : Z :=
  fold_left (fun m u => match u_id u with Some i => Z.max m i | None => m end) users 0.

(** The migration loop: assigns [++maxId] to records without a finite id and
    a default [statKey] to records without one. *)
Fixpoint normalize_loop (maxId : Z) (needPersist : bool) (users : list user)
  : list user * bool :=
  match users with
  | [] => ([], needPersist)
  | u :: rest =>
      let '(u1, maxId1, np1) :=
        match u_id u with
        | None => (set_id (Some (maxId + 1)) u, maxId + 1, true)
        | Some _ => (u, maxId, needPersist)
        end in
      let '(u2, np2) :=
        if decide (u_statKey u1 = EmptyString)
        then (set_statKey (or_str (u_displayName u1) (or_str (u_username u1) (u_uuid u1))) u1, true)
        else (u1, np1) in
      let '(rest', np') := normalize_loop maxId1 np2 rest in
      (u2 :: rest', np')
  end.

Definition baseLoadUsers : M (list user) :=
  (users <- readJson_USERS_FILE ;;
   let '(users', needPersist) := normalize_loop (maxId_of users) false users in
   when needPersist (writeJson_USERS_FILE users') ;;;
   ret users')%js.

(** ** users.js: the snapshot row and persistEnabledFlags *)

(** [Math.ceil(a / b)] for [b > 0]. *)
Definition ceil_div (a b : Z) : Z := - ((- a) / b).

(** [x.toFixed(2)]: the decimal with two fraction digits nearest to [x], ties
    away from zero.  The number [+x.toFixed(2)] the code keeps is the double
    nearest to that decimal; the rounded fields stand for the decimal, and no
    statement below depends on the difference. *)
Definition toFixed2 (x : Q) : Q :=
  if Qle_bool 0 x then (Qfloor (x * 100 + (1 # 2)) # 100)%Q
  else (- (Qfloor ((- x) * 100 + (1 # 2)) # 100))%Q.

Definition Qmax0 (x : Q) : Q := if Qle_bool 0 x then x else 0%Q.

(** [new Map(entries)]: a later entry replaces an earlier one with the same key. *)
Definition Map_new (entries : list (option Z * option bool))
  : gmap (option Z) (option bool) :=
  fold_left (fun m p => <[p.1 := p.2]> m) entries ∅.

(** The loop of [persistEnabledFlags] over the freshly loaded records. *)
Fixpoint flags_loop (byId : gmap (option Z) (option bool)) (orig : list user)
    (changed : bool) : list user * bool :=
  match orig with
  | [] => ([], changed)
  | u :: rest =>
      let newEnabled := byId !! u_id u in
      let '(u', changed') :=
        match newEnabled with
        | Some (Some b) =>
            if decide (Some b = u_enabled u) then (u, changed)
            else (set_enabled (Some b) u, true)
        | _ => (u, changed)
        end in
      let '(rest', changed'') := flags_loop byId rest changed' in
      (u' :: rest', changed'')
  end.

Definition persistEnabledFlags (snapshot : list enriched) : M unit :=
  try_catch
    (orig <- baseLoadUsers ;;
     let byId := Map_new (map (fun e => (u_id (e_user e), u_enabled (e_user e))) snapshot) in
     let '(orig', changed) := flags_loop byId orig false in
     when changed (writeJson_USERS_FILE orig'))%js
    (ret tt).

(** A suspended [aggregate] call: the locals alive across the [await]. *)
Record cycle := Cycle { c_users : list user; c_store : gmap string entry }.

Section Aggregator.

(** [new Date(s).getTime()], [None] for an invalid date. *)
Variable Date_parse : string -> option Z.

(** The body of [users.map(u => ...)] in [aggregate]. *)
Definition enrich (now : Z) (u : user) : enriched :=
  let usagePreciseGB := Qmake (default 0%Z (u_usageAccumBytes u)) 1073741824 in
  let usageGB := toFixed2 usagePreciseGB in
  let daysLeft :=
    if decide (u_expiry u = EmptyString) then Some (-1)
    else match Date_parse (u_expiry u) with
         | Some t => Some (Z.max 0 (ceil_div (t - now) 86400000))
         | None => None
         end in
  let quotaGB :=
    match u_quota u with
    | Some q => if Qeq_bool q (-1) then (-1)%Q else q
    | None => (-1)%Q
    end in
  let remainingPreciseGB :=
    if Qeq_bool quotaGB (-1) then (-1)%Q else Qmax0 (quotaGB - usagePreciseGB) in
  let remainingGB :=
    if Qeq_bool remainingPreciseGB (-1) then (-1)%Q else toFixed2 remainingPreciseGB in
  let enabled0 := default false (u_enabled u) in
  let enabled :=
    if (negb (Qeq_bool quotaGB (-1)) && Qle_bool quotaGB usagePreciseGB)
       || (negb (bool_decide (u_expiry u = EmptyString))
           && match daysLeft with Some d => d <=? 0 | None => false end)
    then false else enabled0 in
  let u' := if decide (Some enabled = u_enabled u) then u
            else set_enabled (Some enabled) u in
  Enriched u' usageGB usagePreciseGB remainingGB remainingPreciseGB daysLeft.

(** ** users.js: aggregate *)

(** Synchronous prefix of [aggregate]: the in-flight guard, [baseLoadUsers]
    and the store read of [accumulateUsageAsync].  Returns the suspended
    cycle, or [None] when the call is over (dropped, or aborted by the
    [catch]; the [finally] clears the flag). *)
Definition aggregate_begin : M (option cycle) :=
  fun w =>
    if _isAggregating w then (Some None, w)
    else
      (modify (set_isAggregating true) ;;;
       try_catch
         (users <- baseLoadUsers ;;
          store <- try_catch readJson_USAGE_FILE (ret ∅) ;;
          ret (Some (Cycle users store)))
         (modify (set_isAggregating false) ;;; ret None))%js w.

(** The rest of [aggregate], once every query has settled. *)
Definition aggregate_resume (obs : nat -> query_outcome) (now : Z) (c : cycle)
  : M unit :=
  try_finally
    (try_catch
       (let '(users, store, storeChanged) :=
          worker obs 0 (c_users c) (c_store c) false in
        when storeChanged (try_catch (writeJson_USAGE_FILE store) (ret tt)) ;;;
        let snapshot := map (enrich now) users in
        persistEnabledFlags snapshot ;;;
        modify (publish snapshot now))%js
       (ret tt))
    (set_isAggregating false).

(** A cycle that nothing interleaves with. *)
Definition aggregate (obs : nat -> query_outcome) (now : Z) : M unit :=
  (c <- aggregate_begin ;;
   match c with
   | Some c => aggregate_resume obs now c
   | None => ret tt
   end)%js.

End Aggregator.

(** ** users.js: the mutation endpoints sharing the stores *)

Inductive response := R200 | R404 | R500.

(** The loop body of the synchronous [accumulateUsage]: copies the stored
    accumulator values into the record. *)
Definition with_usage (store : gmap string entry) (u : user) : user :=
  match store !! u_uuid u with
  | Some rec => set_usage (Some (accumBytes rec)) (Some (lastRawBytes rec)) u
  | None => u
  end.

Definition accumulateUsage (users : list user) : M (list user) :=
  (store <- try_catch readJson_USAGE_FILE (ret ∅) ;;
   ret (map (with_usage store) users))%js.

Definition has_username (username : string) (u : user) : bool :=
  bool_decide (u_username u = username).

(** Mutation of the object returned by [users.find(...)]: the first match. *)
Fixpoint update_first (p : user -> bool) (f : user -> user) (users : list user)
  : list user :=
  match users with
  | [] => []
  | u :: rest => if p u then f u :: rest else u :: update_first p f rest
  end.

(** POST /api/users/:username/enable *)
Definition enable_user (username : string) : M response :=
  try_catch
    (users <- readJson_USERS_FILE ;;
     match List.find (has_username username) users with
     | None => ret R404
     | Some _ =>
         users1 <- accumulateUsage users ;;
         writeJson_USERS_FILE
           (update_first (has_username username) (set_enabled (Some true)) users1) ;;;
         ret R200
     end)%js
    (ret R500).

(** POST /api/users/:username/disable *)
Definition disable_user (username : string) : M response :=
  try_catch
    (users <- readJson_USERS_FILE ;;
     match List.find (has_username username) users with
     | None => ret R404
     | Some _ =>
         users1 <- accumulateUsage users ;;
         writeJson_USERS_FILE
           (update_first (has_username username) (set_enabled (Some false)) users1) ;;;
         ret R200
     end)%js
    (ret R500).

(** DELETE /api/users/:username *)
Definition delete_user (username : string) : M response :=
  try_catch
    (users <- readJson_USERS_FILE ;;
     match List.find (has_username username) users with
     | None => ret R404
     | Some _ =>
         users1 <- accumulateUsage
                     (List.filter (fun u => negb (has_username username u)) users) ;;
         writeJson_USERS_FILE users1 ;;;
         ret R200
     end)%js
    (ret R500).

(** POST /api/users/:username/reset-quota *)
Definition reset_quota (username : string) : M response :=
  try_catch
    (users <- readJson_USERS_FILE ;;
     match List.find (has_username username) users with
     | None => ret R404
     | Some user =>
         try_catch
           (store <- try_catch readJson_USAGE_FILE (ret ∅) ;;
            match store !! u_uuid user with
            | Some _ => writeJson_USAGE_FILE (<[u_uuid user := Entry 0 0]> store)
            | None => ret tt
            end)
           (ret tt) ;;;
         writeJson_USERS_FILE
           (update_first (has_username username) (set_usage (Some 0) (Some 0)) users) ;;;
         ret R200
     end)%js
    (ret R500).

(** ** Derived notions used by the statements *)

(** The step of the reconciliation algorithm as the specification words it:
    both fields set to the reading on first sight, the delta added when the
    counter did not go back, the full reading added after a counter
    reset. *)
Definition reconcile_entry (rawBytes : Z) (prev : option entry) : entry :=
  match prev with
  | None => Entry rawBytes rawBytes
  | Some p =>
      if rawBytes >=? lastRawBytes p
      then Entry (accumBytes p + (rawBytes - lastRawBytes p)) rawBytes
      else Entry (accumBytes p + rawBytes) rawBytes
  end.

(** The accumulator entry of a key as persisted. *)
Definition stored_entry (w : World) (key : string) : option entry :=
  usage_file w ≫= (fun store => store !! key).

(** What [baseLoadUsers] returns for a given file content, and whether it
    rewrites the file. *)
Definition normalized (users : list user) : list user :=
  (normalize_loop (maxId_of users) false users).1.

Definition needPersist_of (users : list user) : bool :=
  (normalize_loop (maxId_of users) false users).2.

(** The [statKey] default of [baseLoadUsers] on one record. *)
Definition fill_statKey (u : user) : user :=
  if decide (u_statKey u = EmptyString)
  then set_statKey (or_str (u_displayName u) (or_str (u_username u) (u_uuid u))) u
  else u.

(** What the loop of [baseLoadUsers] preserves of each record. *)
Definition normalize_rel (u u' : user) : Prop :=
  u' = set_statKey (u_statKey u') (set_id (u_id u') u)
  /\ statKey_of u' = statKey_of u.

(** The id assignment of [baseLoadUsers] on one record. *)
Definition assign_id (maxId : Z) (u : user) : user :=
  match u_id u with
  | None => set_id (Some (maxId + 1)) u
  | Some _ => u
  end.

(** What the enable / disable / reset-quota endpoints preserve of each
    record: everything but [enabled] and the two usage fields. *)
Definition mutation_rel (u u' : user) : Prop :=
  u' = set_usage (u_usageAccumBytes u') (u_lastRawBytes u')
                 (set_enabled (u_enabled u') u).

(** The body of the loop of [persistEnabledFlags] on one record. *)
Definition flag_of (byId : gmap (option Z) (option bool)) (u : user) : user :=
  match byId !! u_id u with
  | Some (Some b) => if decide (Some b = u_enabled u) then u else set_enabled (Some b) u
  | _ => u
  end.

(** A stats answer whose counters are all non-negative, as the stats source
    reports them. *)
Definition outcome_nonneg (o : query_outcome) : Prop :=
  match o with
  | QueryFailed => True
  | QueryStats stats => Forall (fun s => forall v, s_value s = Some v -> 0 <= v) stats
  end.

(** [r <= r1 <= r2 <= ...] for the readings [rs = r1, r2, ...]. *)
Fixpoint nondecreasing_from (r : Z) (rs : list Z) : Prop :=
  match rs with
  | [] => True
  | x :: rest => r <= x /\ nondecreasing_from x rest
  end.

(** The accumulated usage of a key; a key without entry has used nothing. *)
Definition accum_of (o : option entry) : Z := default 0 (accumBytes <$> o).

(** [!!u.enabled] *)
Definition truthy (b : option bool) : bool := default false b.

Section Policy.

Variable Date_parse : string -> option Z.

(** [daysLeft] as specified: -1 without expiry, otherwise
    max(0, ceil((expiry - now) / 1 day)); [None] when the expiry string is
    not a date. *)
Definition daysLeft_spec (now : Z) (expiry : string) : option Z :=
  if decide (expiry = EmptyString) then Some (-1)
  else t ← Date_parse expiry; Some (Z.max 0 (ceil_div (t - now) 86400000)).

(** The breach predicate as specified. *)
Definition breached (now : Z) (quota : option Q) (expiry : string) (usageBytes : Z)
  : Prop :=
  (exists q, quota = Some q /\ ~ (q == -1)%Q /\ (q <= Qmake usageBytes 1073741824)%Q)
  \/ (expiry <> EmptyString /\
      exists d, daysLeft_spec now expiry = Some d /\ d <= 0).

(** Closed form of an uninterrupted cycle over a readable user store with
    content [us]: the locals of [aggregate] and the world it leaves. *)
Definition cycle_worker (obs : nat -> query_outcome) (w : World) (us : list user)
  : list user * gmap string entry * bool :=
  worker obs 0 (normalized us) (default ∅ (usage_file w)) false.

Definition cycle_snapshot (obs : nat -> query_outcome) (now : Z) (w : World)
    (us : list user) : list enriched :=
  map (enrich Date_parse now) (cycle_worker obs w us).1.1.

Definition cycle_byId (obs : nat -> query_outcome) (now : Z) (w : World)
    (us : list user) : gmap (option Z) (option bool) :=
  Map_new (map (fun e => (u_id (e_user e), u_enabled (e_user e)))
               (cycle_snapshot obs now w us)).

Definition cycle_flags (obs : nat -> query_outcome) (now : Z) (w : World)
    (us : list user) : list user * bool :=
  flags_loop (cycle_byId obs now w us) (normalized us) false.

Definition cycle_trace (obs : nat -> query_outcome) (now : Z) (w : World)
    (us : list user) : list io_event :=
  (if (cycle_flags obs now w us).2 then [Write USERS_FILE] else [])
  ++ (if needPersist_of (normalized us) then [Write USERS_FILE] else [])
  ++ [Read USERS_FILE]
  ++ (if (cycle_worker obs w us).2 then [Write USAGE_FILE] else [])
  ++ [Read USAGE_FILE]
  ++ (if needPersist_of us then [Write USERS_FILE] else [])
  ++ [Read USERS_FILE].

Definition cycle_world (obs : nat -> query_outcome) (now : Z) (w : World)
    (us : list user) : World :=
  MkWorld (Some (cycle_flags obs now w us).1)
          (if (cycle_worker obs w us).2 then Some (cycle_worker obs w us).1.2
           else usage_file w)
          (cycle_trace obs now w us ++ io w)
          (cycle_snapshot obs now w us) now false.

(** Successive uninterrupted cycles, one per element of [cs]. *)
Fixpoint run_cycles (cs : list ((nat -> query_outcome) * Z)) (w : World) : World :=
  match cs with
  | [] => w
  | (obs, now) :: rest => run_cycles rest (run (aggregate Date_parse obs now) w)
  end.

(** The mutation endpoints that run against the stores. *)
Inductive mutation :=
| ResetQuota (username : string)
| EnableUser (username : string)
| DisableUser (username : string)
| DeleteUser (username : string).

Definition run_mutation (m : mutation) (w : World) : World :=
  match m with
  | ResetQuota n => run (reset_quota n) w
  | EnableUser n => run (enable_user n) w
  | DisableUser n => run (disable_user n) w
  | DeleteUser n => run (delete_user n) w
  end.

(** Everything in users.js that can run against the accumulator store: a
    cycle of the aggregator or a mutation endpoint. *)
Inductive operation :=
| OpAggregate (obs : nat -> query_outcome) (now : Z)
| OpMutation (m : mutation).

Definition run_operation (o : operation) (w : World) : World :=
  match o with
  | OpAggregate obs now => run (aggregate Date_parse obs now) w
  | OpMutation m => run_mutation m w
  end.

(** ** The event loop

    A system state is the world together with the [aggregate] calls that are
    suspended at their [await].  The timer, the stale-cache check of
    GET /api/users and the manual refresh all call [aggregate]; a suspended
    call resumes when its queries have settled; request handlers run in
    between. *)
Record System := MkSystem { sys_world : World; sys_suspended : list cycle }.

Definition request_cycle (s : System) : System :=
  match aggregate_begin (sys_world s) with
  | (Some (Some c), w') => MkSystem w' (c :: sys_suspended s)
  | (_, w') => MkSystem w' (sys_suspended s)
  end.

Definition resume_cycle (k : nat) (obs : nat -> query_outcome) (now : Z)
    (s : System) : System :=
  match sys_suspended s !! k with
  | Some c =>
      MkSystem (run (aggregate_resume Date_parse obs now c) (sys_world s))
               (delete k (sys_suspended s))
  | None => s
  end.

Inductive event :=
| EvAggregate                                        (* a call of [aggregate] *)
| EvSettled (k : nat) (obs : nat -> query_outcome) (now : Z)
| EvMutation (m : mutation).                         (* a mutation endpoint *)

Definition handle (e : event) (s : System) : System :=
  match e with
  | EvAggregate => request_cycle s
  | EvSettled k obs now => resume_cycle k obs now s
  | EvMutation m => MkSystem (run_mutation m (sys_world s)) (sys_suspended s)
  end.

(** States reachable from a fresh process: no cycle in flight, empty cache. *)
Inductive reachable : System -> Prop :=
| reachable_init users usage :
    reachable (MkSystem (MkWorld users usage [] [] 0 false) [])
| reachable_step e s : reachable s -> reachable (handle e s).

End Policy.

(** ** Sample data for the closed examples *)

(** A runtime whose date parser rejects every string (the samples carry no
    expiry). *)
Definition no_dates : string -> option Z := fun _ => None.

Definition alice : user :=
  User (Some 1) "alice" "uuid-a" "" "" None (Some true) "alice" None None.

Definition bob : user :=
  User (Some 2) "bob" "uuid-b" "" "" (Some 1%Q) (Some true) "bob" None None.

(** A stats answer reporting [up] and [down] bytes for [name]. *)
Definition traffic (name : string) (up down : Z) : query_outcome :=
  QueryStats [Stat ("user>>>" ++ name ++ ">>>traffic>>>uplink") (Some up);
              Stat ("user>>>" ++ name ++ ">>>traffic>>>downlink") (Some down)].

(** A fresh process over the given file contents. *)
Definition boot (users : option (list user)) (usage : option (gmap string entry))
  : World :=
  MkWorld users usage [] [] 0 false.

(** A legacy record: no id and no [statKey] yet. *)
Definition carol : user :=
  User None "carol" "uuid-c" "" "" None (Some true) "" None None.

(** The world with the accumulator store replaced by an empty, readable
    one. *)
Definition with_empty_usage (w : World) : World :=
  MkWorld (users_file w) (Some ∅) (io w)
          (_cachedEnriched w) (_cacheStamp w) (_isAggregating w).

(** * More of users.js *)

(** ** users.js: buildDesiredClients *)

(** An entry of the VLESS client list: [{ id, email, level }]. *)
Record client := Client { c_id : string; c_email : string; c_level : Z }.

(** [users.filter(u => u.enabled !== false).map(u => ({ id: u.uuid, email:
    u.username, level: 0 }))] *)
Definition buildDesiredClients (users : list user) : list client :=
  map (fun u => Client (u_uuid u) (u_username u) 0)
      (List.filter (fun u => negb (bool_decide (u_enabled u = Some false))) users).

(** A runtime whose date parser reads every string as the instant [t]. *)
Definition dates_at (t : Z) : string -> option Z := fun _ => Some t.

(** A record with an expiry and a quota of 2 GB. *)
Definition dave : user :=
  User (Some 3) "dave" "uuid-d" "Dave" "2025-01-01 00:00:00" (Some 2%Q) (Some true)
       "Dave" (Some 1073741824) (Some 10).

(** ** The mutation endpoints as request handlers *)

(** The handler a mutation request runs, and the username it names. *)
Definition mutation_handler (m : mutation) : M response :=
  match m with
  | ResetQuota n => reset_quota n
  | EnableUser n => enable_user n
  | DisableUser n => disable_user n
  | DeleteUser n => delete_user n
  end.

Definition mutation_username (m : mutation) : string :=
  match m with
  | ResetQuota n | EnableUser n | DisableUser n | DeleteUser n => n
  end.

(** ** Stat names *)

(** Whether the character [c] occurs in [s]. *)
Fixpoint occurs (c : Ascii.ascii) (s : string) : bool :=
  match s with
  | EmptyString => false
  | String a rest => if Ascii.eqb a c then true else occurs c rest
  end.

(** ** users.js: normalizeExpiry (POST) and normalize (PUT)

    Strings are byte strings; the two regular expressions only accept ASCII
    digits and punctuation, so a non-ASCII character makes them fail as it
    does in the source.  [String.prototype.trim] is the runtime's, a
    parameter. *)

(** [\d] *)
Definition is_digit (c : Ascii.ascii) : bool :=
  (48 <=? nat_of_ascii c)%nat && (nat_of_ascii c <=? 57)%nat.

(** One position of an anchored pattern: a digit or a literal character. *)
Inductive pat := Digit | Lit (c : Ascii.ascii).

(** [/^...$/.test(s)] for a pattern of digits and literals. *)
Fixpoint matches (p : list pat) (s : string) : bool :=
  match p, s with
  | [], EmptyString => true
  | Digit :: p', String c s' => is_digit c && matches p' s'
  | Lit a :: p', String c s' => Ascii.eqb a c && matches p' s'
  | _, _ => false
  end.

(** [\d{4}-\d{2}-\d{2} \d{2}:\d{2}] *)
Definition DATE_MINUTES : list pat :=
  [Digit; Digit; Digit; Digit; Lit "-"; Digit; Digit; Lit "-"; Digit; Digit;
   Lit " "; Digit; Digit; Lit ":"; Digit; Digit].

(** [\d{4}-\d{2}-\d{2} \d{2}:\d{2}:\d{2}] *)
Definition DATE_SECONDS : list pat := DATE_MINUTES ++ [Lit ":"; Digit; Digit].

(** [s.replace(a, b)] for one-character strings: the first occurrence. *)
Fixpoint replace_first (a b : Ascii.ascii) (s : string) : string :=
  match s with
  | EmptyString => EmptyString
  | String c s' => if Ascii.eqb c a then String b s' else String c (replace_first a b s')
  end.

(** [s.replace(/Z$/i, '')] *)
Fixpoint strip_final_Z (s : string) : string :=
  match s with
  | EmptyString => EmptyString
  | String c EmptyString =>
      if Ascii.eqb c "Z" || Ascii.eqb c "z" then EmptyString else s
  | String c s' => String c (strip_final_Z s')
  end.

(** The statuses the POST and PUT handlers answer with. *)
Inductive status := S200 | S400 | S404 | S500.

Definition throw {A} : M A := fun w => (None, w).

Definition set_username (v : string) (u : user) : user :=
  User (u_id u) v (u_uuid u) (u_displayName u) (u_expiry u) (u_quota u)
       (u_enabled u) (u_statKey u) (u_usageAccumBytes u) (u_lastRawBytes u).

Definition set_displayName (v : string) (u : user) : user :=
  User (u_id u) (u_username u) (u_uuid u) v (u_expiry u) (u_quota u)
       (u_enabled u) (u_statKey u) (u_usageAccumBytes u) (u_lastRawBytes u).

Definition set_expiry (v : string) (u : user) : user :=
  User (u_id u) (u_username u) (u_uuid u) (u_displayName u) v (u_quota u)
       (u_enabled u) (u_statKey u) (u_usageAccumBytes u) (u_lastRawBytes u).

Definition set_quota (v : option Q) (u : user) : user :=
  User (u_id u) (u_username u) (u_uuid u) (u_displayName u) (u_expiry u) v
       (u_enabled u) (u_statKey u) (u_usageAccumBytes u) (u_lastRawBytes u).

(** [users.findIndex(p)] *)
Fixpoint findIndex (p : user -> bool) (users : list user) : option nat :=
  match users with
  | [] => None
  | u :: rest => if p u then Some 0%nat else S <$> findIndex p rest
  end.

(** The body of a PUT request: each field may be absent; [expiry] may be
    present without being a string. *)
Record put_body := PutBody {
  b_username : option string;
  b_displayName : option string;
  b_expiry : option (option string);
  b_quota : option Q;
}.

Section Requests.

(** [String.prototype.trim] *)
Variable trim : string -> string.

(** [normalizeExpiry] of POST /api/users; [None] is a value that is not a
    string. *)
Definition normalizeExpiry (e : option string) : string :=
  match e with
  | None => EmptyString
  | Some e =>
      if decide (e = EmptyString) then EmptyString
      else
        let s := trim e in
        if decide (s = EmptyString) then EmptyString
        else
          let s := replace_first "T" " " s in
          let s := if matches DATE_MINUTES s then String.append s ":00" else s in
          let s := strip_final_Z s in
          if matches DATE_SECONDS s then s else EmptyString
  end.

(** [normalize] of PUT /api/users/:username. *)
Definition normalize (e : option string) : string :=
  match e with
  | None => EmptyString
  | Some e =>
      if decide (e = EmptyString) then EmptyString
      else
        let s := replace_first "T" " " (trim e) in
        let s := if matches DATE_MINUTES s then String.append s ":00" else s in
        let s := strip_final_Z s in
        if matches DATE_SECONDS s then s else EmptyString
  end.

(** POST /api/users.  [uuid] is the identifier the handler draws at
    random; an absent [username] or [displayName] is the empty string and
    [quota] is [None] when it is not a number.  The stored
    [bandwidthUsage: 0] is left out with the field. *)
Definition add_user (username displayName : string) (expiry : option string)
    (quota : option Q) (uuid : string) : M status :=
  if decide (username = EmptyString) then ret S400
  else
    try_catch
      (users <- readJson_USERS_FILE ;;
       match List.find (has_username username) users with
       | Some _ => ret S400
       | None =>
           let nextId := maxId_of users + 1 in
           let users :=
             users ++ [User (Some nextId) username uuid displayName
                            (normalizeExpiry expiry)
                            (Some (default (-1)%Q quota)) (Some true)
                            (or_str displayName (or_str username uuid))
                            None None] in
           users <- accumulateUsage users ;;
           writeJson_USERS_FILE users ;;;
           ret S200
       end)%js
      (ret S500).

(** The record [updated] of the PUT handler. *)
Definition apply_body (b : put_body) (prev : user) : user :=
  let updated := prev in
  let updated :=
    match b_username b with
    | Some n => if decide (trim n = EmptyString) then updated
                else set_username (trim n) updated
    | None => updated
    end in
  let updated :=
    match b_displayName b with
    | Some d => set_displayName d updated
    | None => updated
    end in
  let updated :=
    match b_expiry b with
    | Some e => set_expiry (normalize e) updated
    | None => updated
    end in
  match b_quota b with
  | Some q => set_quota (Some q) updated
  | None => updated
  end.

(** PUT /api/users/:username.  [None] is a request without a body, on
    which [hasOwnProperty.call(req.body, 'expiry')] throws. *)
Definition update_user (oldUsername : string) (body : option put_body) : M status :=
  try_catch
    (users <- readJson_USERS_FILE ;;
     match findIndex (has_username oldUsername) users with
     | None => ret S404
     | Some idx =>
         match users !! idx with
         | None => throw
         | Some prev =>
             let newUsername := default EmptyString (body ≫= b_username) in
             if negb (bool_decide (newUsername = EmptyString))
                && negb (bool_decide (newUsername = oldUsername))
                && existsb (has_username newUsername) users
             then ret S400
             else
               match body with
               | None => throw
               | Some b =>
                   let updated := apply_body b prev in
                   let users := <[idx := updated]> users in
                   let usernameChanged :=
                     negb (bool_decide (u_username updated = u_username prev)) in
                   let quotaChanged :=
                     match b_quota b with
                     | Some q => match u_quota prev with
                                 | Some q' => negb (Qeq_bool q q')
                                 | None => true
                                 end
                     | None => false
                     end in
                   users <- (if usernameChanged || quotaChanged
                             then accumulateUsage users else ret users) ;;
                   writeJson_USERS_FILE users ;;;
                   ret S200
               end
         end
     end)%js
    (ret S500).

End Requests.

(** A [trim] that removes the ASCII white space at both ends. *)
Definition is_space (c : Ascii.ascii) : bool :=
  let n := nat_of_ascii c in
  (n =? 32)%nat || ((9 <=? n)%nat && (n <=? 13)%nat).

Fixpoint trim_start (s : string) : string :=
  match s with
  | EmptyString => EmptyString
  | String c s' => if is_space c then trim_start s' else s
  end.

Fixpoint trim_end (s : string) : string :=
  match s with
  | EmptyString => EmptyString
  | String c s' =>
      match trim_end s' with
      | EmptyString => if is_space c then EmptyString else String c EmptyString
      | r => String c r
      end
  end.

Definition trim_ascii (s : string) : string := trim_end (trim_start s).

(** Patterns: none of the literals is [a]; the last position is a digit. *)
Definition avoids (a : Ascii.ascii) (p : list pat) : Prop :=
  Forall (fun x => match x with Digit => True | Lit c => c <> a end) p.

Fixpoint ends_in_digit (p : list pat) : bool :=
  match p with
  | [] => false
  | [Digit] => true
  | [Lit _] => false
  | _ :: p' => ends_in_digit p'
  end.

(** [YYYY-MM-DDTHH:MM], the value of a [datetime-local] input. *)
Definition DATE_LOCAL : list pat :=
  [Digit; Digit; Digit; Digit; Lit "-"; Digit; Digit; Lit "-"; Digit; Digit;
   Lit "T"; Digit; Digit; Lit ":"; Digit; Digit].

(** ** users.js: GET /api/users *)

Definition AGG_INTERVAL_MS : Z := 5000.

(** One row of the [?diag=raw] answer. *)
Record raw_row := RawRow {
  r_id : option Z;
  r_username : string;
  r_expiry : string;
  r_quota : option Q;
  r_enabled : option bool;
}.

Definition raw_of (u : user) : raw_row :=
  RawRow (u_id u) (u_username u) (u_expiry u) (u_quota u) (u_enabled u).

(** GET /api/users?diag=raw.  No value is the 500 of the [catch]. *)
Definition get_users_raw : M (list raw_row) :=
  fun w =>
    match _cachedEnriched w with
    | [] => (users <- baseLoadUsers ;; ret (map raw_of users))%js w
    | rows => (Some (map (fun r => raw_of (e_user r)) rows), w)
    end.

(** What the rows of the main answer are computed from:
    [_cachedEnriched.length ? _cachedEnriched : baseLoadUsers()]. *)
Inductive served :=
| FromCache (rows : list enriched)
| FromStore (users : list user).

(** GET /api/users without [diag]: the call of [aggregate('stale')] runs
    up to its [await], then the answer is computed.  No answer is the 500
    of the [catch].  The timer of [?refresh=1] fires after the handler has
    returned; it is a later call of [aggregate]. *)
Definition get_users (now : Z) (s : System) : option served * System :=
  let s1 :=
    if (now - _cacheStamp (sys_world s) >? AGG_INTERVAL_MS * 2)
       && negb (_isAggregating (sys_world s))
    then request_cycle s else s in
  match _cachedEnriched (sys_world s1) with
  | [] =>
      match baseLoadUsers (sys_world s1) with
      | (Some users, w') => (Some (FromStore users), MkSystem w' (sys_suspended s1))
      | (None, w') => (None, MkSystem w' (sys_suspended s1))
      end
  | rows => (Some (FromCache rows), s1)
  end.

(** ** users.js: syncVlessClients

    The configuration file as the function sees it: the [inbounds] array
    and, of each inbound, the protocol and [settings.clients] when that is
    an array.  A client found in the file may lack any of the three fields
    the comparison reads. *)
Record cfg_client := CfgClient {
  cc_id : option string;
  cc_email : option string;
  cc_level : option Z;
}.

Record inbound := Inbound {
  in_protocol : string;
  in_clients : option (list cfg_client);   (* [None]: no [settings.clients] array *)
}.

Definition as_cfg (c : client) : cfg_client :=
  CfgClient (Some (c_id c)) (Some (c_email c)) (Some (c_level c)).

Definition set_clients (cs : list cfg_client) (ib : inbound) : inbound :=
  Inbound (in_protocol ib) (Some cs).

(** The inbound the loop stops at. *)
Definition eligible (ib : inbound) : bool :=
  String.eqb (in_protocol ib) "vless" && bool_decide (is_Some (in_clients ib)).

Section Sync.

(** [norm]: the JSON text of the clients' [id], [email] and [level], sorted
    by [id] with [localeCompare]; no value when the comparison throws. *)
Variable norm : list cfg_client -> option string.

(** The loop over [cfg.inbounds], up to its [break]: the inbounds as they
    are written back and the [changed] flag; no value when [norm] throws. *)
Fixpoint sync_inbounds (desired : list cfg_client) (inbounds : list inbound)
  : option (list inbound * bool) :=
  match inbounds with
  | [] => Some ([], false)
  | ib :: rest =>
      match (if String.eqb (in_protocol ib) "vless" then in_clients ib else None) with
      | Some prev =>
          a ← norm prev;
          b ← norm desired;
          if negb (String.eqb a b)
          then Some (set_clients desired ib :: rest, true)
          else Some (ib :: rest, false)
      | None =>
          '(rest', changed) ← sync_inbounds desired rest;
          Some (ib :: rest', changed)
      end
  end.

(** [syncVlessClients(users)] on the content of the configuration file:
    [None] is an unreadable file, [Some None] a configuration whose
    [inbounds] is not an array.  Returns [changed] and the content of the
    file afterwards. *)
Definition syncVlessClients (users : list user)
    (cfg : option (option (list inbound))) : bool * option (option (list inbound)) :=
  match cfg with
  | Some (Some inbounds) =>
      match sync_inbounds (as_cfg <$> buildDesiredClients users) inbounds with
      | Some (inbounds', true) => (true, Some (Some inbounds'))
      | _ => (false, cfg)
      end
  | _ => (false, cfg)
  end.

End Sync.

(** A comparison key for the closed examples, whose client lists are in
    [id] order already: the ids and e-mails in sequence. *)
Definition norm_text (cs : list cfg_client) : option string :=
  Some (String.concat ";"
          (map (fun c => String.append (default EmptyString (cc_id c))
                           (String.append "," (default EmptyString (cc_email c)))) cs)).

(** * Properties *)

(** ** The reconciliation step *)

Lemma reconcile_spec rawBytes key store changed :
  reconcile rawBytes key store changed =
    (reconcile_entry rawBytes (store !! key),
     <[key := reconcile_entry rawBytes (store !! key)]> store,
     if decide (store !! key = Some (reconcile_entry rawBytes (store !! key)))
     then changed else true).
Proof.
  unfold reconcile, reconcile_entry.
  destruct (store !! key) as [[a l]|] eqn:Hk; cbn [accumBytes lastRawBytes].
  - destruct (Z.geb_spec rawBytes l) as [Hge|Hlt].
    + destruct (Z.gtb_spec rawBytes l) as [Hgt|Hle].
      * destruct (decide _) as [[=]|]; [lia|done].
      * assert (rawBytes = l) as -> by lia.
        replace (a + (l - l)) with a by lia.
        destruct (decide _) as [|Hne]; [done|by destruct Hne].
    + destruct (decide _) as [[=]|]; [lia|done].
  - destruct (decide _) as [[=]|]; done.
Qed.

Lemma reconcile_entry_last rawBytes prev :
  lastRawBytes (reconcile_entry rawBytes prev) = rawBytes.
Proof.
  unfold reconcile_entry. destruct prev as [p|]; [|done].
  by destruct (rawBytes >=? lastRawBytes p).
Qed.

(** A step never lowers the accumulated value when the reading is not
    negative. *)
Lemma reconcile_entry_mono rawBytes p :
  0 <= rawBytes -> accumBytes p <= accumBytes (reconcile_entry rawBytes (Some p)).
Proof.
  intros Hr. unfold reconcile_entry.
  destruct (Z.geb_spec rawBytes (lastRawBytes p)); simpl; lia.
Qed.

(** Steps on different keys commute: with distinct uuids the order in which
    the workers complete does not matter. *)
Lemma reconcile_commute r1 k1 r2 k2 store changed :
  k1 <> k2 ->
  let '(e1, s1, c1) := reconcile r1 k1 store changed in
  let '(e2, s2, c2) := reconcile r2 k2 s1 c1 in
  let '(e2', s1', c1') := reconcile r2 k2 store changed in
  let '(e1', s2', c2') := reconcile r1 k1 s1' c1' in
  e1 = e1' /\ e2 = e2' /\ s2 = s2' /\ c2 = c2'.
Proof.
  intros Hne. rewrite !reconcile_spec.
  rewrite !lookup_insert_ne by done.
  split; [done|]. split; [done|]. split.
  - by apply insert_insert_ne.
  - repeat case_decide; done.
Qed.

(** ** The worker loop *)

Lemma worker_app obs i l1 l2 store changed :
  worker obs i (l1 ++ l2) store changed =
    let '(us1, st1, ch1) := worker obs i l1 store changed in
    let '(us2, st2, ch2) := worker obs (i + length l1) l2 st1 ch1 in
    (us1 ++ us2, st2, ch2).
Proof.
  revert i store changed.
  induction l1 as [|u l1 IH]; intros i store changed; simpl.
  - rewrite Nat.add_0_r. by destruct (worker obs i l2 store changed) as [[??]?].
  - destruct (reconcile _ _ store changed) as [[prev st'] ch'].
    rewrite IH. replace (i + S (length l1))%nat with (S i + length l1)%nat by lia.
    destruct (worker obs (S i) l1 st' ch') as [[us1 st1] ch1].
    by destruct (worker obs (S i + length l1) l2 st1 ch1) as [[??]?].
Qed.

(** Keys of no user in the list are left alone. *)
Lemma worker_store_frame obs i users store changed key :
  key ∉ u_uuid <$> users ->
  (worker obs i users store changed).1.2 !! key = store !! key.
Proof.
  revert i store changed.
  induction users as [|u rest IH]; intros i store changed Hk; [done|].
  simpl. rewrite reconcile_spec.
  apply not_elem_of_cons in Hk as [Hne Hk].
  specialize (IH (S i)
    (<[u_uuid u := reconcile_entry (query_rawBytes (statKey_of u) (obs i)) (store !! u_uuid u)]> store)
    (if decide (store !! u_uuid u =
                Some (reconcile_entry (query_rawBytes (statKey_of u) (obs i)) (store !! u_uuid u)))
     then changed else true) Hk).
  destruct (worker obs (S i) rest _ _) as [[us st] ch]. simpl in *.
  rewrite IH. by rewrite lookup_insert_ne.
Qed.

(** The loop only touches the two usage fields of the records. *)
Lemma worker_users obs i users store changed :
  Forall2 (fun u u' => exists a l, u' = set_usage (Some a) (Some l) u)
          users (worker obs i users store changed).1.1.
Proof.
  revert i store changed.
  induction users as [|u rest IH]; intros i store changed; simpl; [constructor|].
  destruct (reconcile _ _ store changed) as [[prev st'] ch'].
  specialize (IH (S i) st' ch').
  destruct (worker obs (S i) rest st' ch') as [[us st] ch]. simpl in *.
  constructor; eauto.
Qed.

(** What the loop does for the user at position [length l1] when no earlier
    user shares its key: the record receives the reconciled entry, and so
    does the store if no later user shares the key either. *)
Lemma worker_at obs i l1 u l2 store changed :
  u_uuid u ∉ u_uuid <$> l1 ->
  let e := reconcile_entry (query_rawBytes (statKey_of u) (obs (i + length l1)%nat))
                           (store !! u_uuid u) in
  (worker obs i (l1 ++ u :: l2) store changed).1.1 !! length l1
    = Some (set_usage (Some (accumBytes e)) (Some (lastRawBytes e)) u)
  /\ (u_uuid u ∉ u_uuid <$> l2 ->
      (worker obs i (l1 ++ u :: l2) store changed).1.2 !! u_uuid u = Some e).
Proof.
  intros Hl1 e. rewrite worker_app.
  pose proof (worker_store_frame obs i l1 store changed _ Hl1) as Hfr.
  pose proof (worker_users obs i l1 store changed) as Hlen%Forall2_length.
  destruct (worker obs i l1 store changed) as [[us1 st1] ch1]. simpl in *.
  rewrite reconcile_spec, Hfr. fold e.
  pose proof (worker_store_frame obs (S (i + length l1)) l2
                (<[u_uuid u := e]> st1)
                (if decide (store !! u_uuid u = Some e) then ch1 else true)
                (u_uuid u)) as Hfr2.
  destruct (worker obs (S (i + length l1)) l2 _ _) as [[us2 st2] ch2]. simpl in *.
  split.
  - rewrite lookup_app_r by lia. by replace (length l1 - length us1)%nat with 0%nat by lia.
  - intros Hl2. rewrite Hfr2 by done. by rewrite lookup_insert_eq.
Qed.

(** When the flag comes out clear, nothing was stored. *)
Lemma worker_unchanged obs i users store changed st' us' :
  worker obs i users store changed = (us', st', false) ->
  st' = store /\ changed = false.
Proof.
  revert i store changed us'.
  induction users as [|u rest IH]; intros i store changed us'; simpl.
  - by intros [= _ -> ->].
  - rewrite reconcile_spec.
    destruct (worker obs (S i) rest _ _) as [[us st] ch] eqn:Hw.
    intros [= _ -> ->]. apply IH in Hw as [-> Hch].
    destruct (decide _) as [Heq|]; [|done].
    split; [|done]. by apply insert_id.
Qed.

(** Conversely the flag stays clear when every reading equals the stored
    [lastRawBytes]. *)
Lemma worker_idle obs i users store :
  (forall j u, users !! j = Some u ->
     exists e, store !! u_uuid u = Some e /\
               query_rawBytes (statKey_of u) (obs (i + j)%nat) = lastRawBytes e) ->
  (worker obs i users store false).2 = false.
Proof.
  revert i. induction users as [|u rest IH]; intros i Hall; simpl; [done|].
  rewrite reconcile_spec.
  destruct (Hall 0%nat u eq_refl) as (e & He & Hraw).
  rewrite Nat.add_0_r in Hraw.
  assert (reconcile_entry (query_rawBytes (statKey_of u) (obs i)) (store !! u_uuid u) = e)
    as Hrec.
  { rewrite He, Hraw. unfold reconcile_entry. destruct e as [a l]; simpl.
    rewrite (proj2 (Z.geb_le l l)) by lia. f_equal; lia. }
  rewrite Hrec. rewrite decide_True by exact He. rewrite insert_id by exact He.
  specialize (IH (S i)).
  destruct (worker obs (S i) rest store false) as [[us st] ch] eqn:Hw. simpl in *.
  apply IH. intros j u' Hj. specialize (Hall (S j) u' Hj).
  replace (i + S j)%nat with (S i + j)%nat in Hall by lia. exact Hall.
Qed.

(** ** baseLoadUsers *)

Lemma or_str_self a : or_str a a = a.
Proof. unfold or_str. by case_decide. Qed.

Lemma or_str_empty b : or_str EmptyString b = b.
Proof. done. Qed.

Lemma statKey_of_fill u : statKey_of (fill_statKey u) = statKey_of u.
Proof.
  unfold fill_statKey. case_decide as Hs; [|done].
  unfold statKey_of; simpl. rewrite Hs. by rewrite or_str_self, or_str_empty.
Qed.

Lemma fill_statKey_idem u : fill_statKey (fill_statKey u) = fill_statKey u.
Proof.
  destruct (decide (u_statKey u = EmptyString)) as [Hs|Hs].
  - assert (fill_statKey u =
            set_statKey (or_str (u_displayName u) (or_str (u_username u) (u_uuid u))) u)
      as -> by (unfold fill_statKey; by rewrite decide_True).
    unfold fill_statKey. cbn [u_statKey set_statKey u_displayName u_username u_uuid].
    case_decide as Hs'; [|done]. by rewrite Hs'.
  - assert (fill_statKey u = u) as -> by (unfold fill_statKey; by rewrite decide_False).
    unfold fill_statKey; by rewrite decide_False.
Qed.

(** One iteration of the loop. *)
Lemma normalize_loop_cons maxId np u rest :
  normalize_loop maxId np (u :: rest) =
    let maxId' := match u_id u with Some _ => maxId | None => maxId + 1 end in
    let np' := match u_id u with
               | Some _ => if decide (u_statKey u = EmptyString) then true else np
               | None => true
               end in
    (fill_statKey (assign_id maxId u) :: (normalize_loop maxId' np' rest).1,
     (normalize_loop maxId' np' rest).2).
Proof.
  simpl. unfold assign_id, fill_statKey.
  destruct (u_id u) as [x|];
    cbn [u_statKey set_id u_displayName u_username u_uuid];
    destruct (decide (u_statKey u = EmptyString));
    by destruct (normalize_loop _ _ rest).
Qed.

Lemma normalize_loop_ids maxId np users :
  Forall (fun u => is_Some (u_id u)) users ->
  (normalize_loop maxId np users).1 = fill_statKey <$> users.
Proof.
  revert maxId np. induction users as [|u rest IH]; intros maxId np Hall; [done|].
  apply Forall_cons in Hall as [[x Hx] Hall].
  rewrite normalize_loop_cons. cbn [fst fmap list_fmap].
  rewrite IH by done. unfold assign_id. by rewrite Hx.
Qed.

Lemma assign_id_is_Some maxId u : is_Some (u_id (assign_id maxId u)).
Proof. unfold assign_id. destruct (u_id u) eqn:Hx; [by rewrite Hx|done]. Qed.

Lemma fill_statKey_id u : u_id (fill_statKey u) = u_id u.
Proof. unfold fill_statKey. by case_decide. Qed.

Lemma normalize_loop_filled maxId np users :
  Forall (fun u => is_Some (u_id u) /\ fill_statKey u = u)
         (normalize_loop maxId np users).1.
Proof.
  revert maxId np. induction users as [|u rest IH]; intros maxId np.
  - constructor.
  - rewrite normalize_loop_cons. cbn [fst]. constructor; [|apply IH].
    split; [|apply fill_statKey_idem].
    rewrite fill_statKey_id. apply assign_id_is_Some.
Qed.

Lemma normalized_idem us : normalized (normalized us) = normalized us.
Proof.
  unfold normalized at 1.
  pose proof (normalize_loop_filled (maxId_of us) false us) as Hf.
  fold (normalized us) in Hf.
  rewrite normalize_loop_ids by (eapply Forall_impl; [exact Hf|]; by intros ? [? _]).
  induction Hf as [|u l [_ Hu] _ IH]; [done|]. rewrite fmap_cons. by rewrite Hu, IH.
Qed.

(** A clear [needPersist] flag means the loop changed nothing. *)
Lemma normalize_loop_clean maxId np users l :
  normalize_loop maxId np users = (l, false) -> l = users /\ np = false.
Proof.
  revert maxId np l. induction users as [|u rest IH]; intros maxId np l.
  - by intros [= <- ->].
  - rewrite normalize_loop_cons. cbn zeta.
    destruct (normalize_loop _ _ rest) as [r b] eqn:Hr. cbn [fst snd].
    intros [= <- ->]. apply IH in Hr as [-> Hnp].
    destruct (u_id u) as [x|] eqn:Hx; [|done].
    destruct (decide (u_statKey u = EmptyString)); [done|].
    split; [|done]. unfold assign_id, fill_statKey. rewrite Hx.
    by rewrite decide_False.
Qed.

Lemma normalized_clean us : needPersist_of us = false -> normalized us = us.
Proof.
  unfold needPersist_of, normalized.
  destruct (normalize_loop (maxId_of us) false us) as [l b] eqn:Hn. simpl.
  intros ->. by apply normalize_loop_clean in Hn as [-> _].
Qed.

(** The loop leaves a store alone whose records all carry an id and a
    [statKey]. *)
Lemma normalize_loop_complete maxId np users :
  Forall (fun u => is_Some (u_id u) /\ u_statKey u <> EmptyString) users ->
  normalize_loop maxId np users = (users, np).
Proof.
  revert maxId np. induction users as [|u rest IH]; intros maxId np Hall; [done|].
  apply Forall_cons in Hall as [[[x Hx] Hs] Hall]. simpl. rewrite Hx.
  rewrite decide_False by done. by rewrite IH.
Qed.

Lemma normalize_rel_step maxId u : normalize_rel u (fill_statKey (assign_id maxId u)).
Proof.
  split.
  - unfold fill_statKey, assign_id.
    destruct (u_id u) as [x|] eqn:Hx;
      cbn [u_statKey set_id u_displayName u_username u_uuid];
      case_decide; destruct u; simpl in *; by subst.
  - rewrite statKey_of_fill. unfold assign_id. by destruct (u_id u).
Qed.

Lemma normalize_loop_rel maxId np users :
  Forall2 normalize_rel users (normalize_loop maxId np users).1.
Proof.
  revert maxId np. induction users as [|u rest IH]; intros maxId np.
  - constructor.
  - rewrite normalize_loop_cons. cbn [fst].
    constructor; [apply normalize_rel_step|apply IH].
Qed.

(** *** Ids stay unique *)

Lemma maxId_of_fold m users :
  m <= fold_left (fun m u => match u_id u with Some i => Z.max m i | None => m end) users m
  /\ forall x, x ∈ omap u_id users ->
       x <= fold_left (fun m u => match u_id u with Some i => Z.max m i | None => m end) users m.
Proof.
  revert m. induction users as [|u rest IH]; intros m; simpl.
  - split; [lia|]. intros x Hx. by apply elem_of_nil in Hx.
  - destruct (u_id u) as [i|] eqn:Hi.
    + destruct (IH (Z.max m i)) as [H1 H2]. split; [lia|].
      intros x [->|Hx]%elem_of_cons; [lia|]. by apply H2.
    + apply IH.
Qed.

Lemma maxId_of_bound users x : x ∈ omap u_id users -> x <= maxId_of users.
Proof. apply maxId_of_fold. Qed.

Lemma normalize_loop_ids_fresh maxId np users x :
  x ∈ omap u_id (normalize_loop maxId np users).1 ->
  x ∈ omap u_id users \/ maxId < x.
Proof.
  revert maxId np. induction users as [|u rest IH]; intros maxId np.
  - simpl. by intros ?%elem_of_nil.
  - rewrite normalize_loop_cons. cbn [fst omap list_omap].
    rewrite fill_statKey_id. unfold assign_id.
    destruct (u_id u) as [i|] eqn:Hi.
    + rewrite Hi. intros [->|Hx]%elem_of_cons; [left; by left|].
      apply IH in Hx as [Hx|Hx]; [left; by right|by right].
    + cbn [u_id set_id]. intros [->|Hx]%elem_of_cons; [right; lia|].
      apply IH in Hx as [Hx|Hx]; [by left|right; lia].
Qed.

Lemma normalize_loop_NoDup maxId np users :
  NoDup (omap u_id users) ->
  (forall x, x ∈ omap u_id users -> x <= maxId) ->
  NoDup (omap u_id (normalize_loop maxId np users).1).
Proof.
  revert maxId np. induction users as [|u rest IH]; intros maxId np Hnd Hle.
  - constructor.
  - rewrite normalize_loop_cons. cbn [fst omap list_omap].
    rewrite fill_statKey_id. unfold assign_id.
    cbn [omap list_omap] in Hnd, Hle.
    destruct (u_id u) as [i|] eqn:Hi.
    + rewrite Hi. apply NoDup_cons in Hnd as [Hni Hnd].
      apply NoDup_cons. split.
      * intros [Hx|Hx]%normalize_loop_ids_fresh; [done|].
        specialize (Hle i ltac:(by left)). lia.
      * apply IH; [done|]. intros x Hx. apply Hle. by right.
    + cbn [u_id set_id]. apply NoDup_cons. split.
      * intros [Hx|Hx]%normalize_loop_ids_fresh; [|lia].
        specialize (Hle _ Hx). lia.
      * apply IH; [done|]. intros x Hx. specialize (Hle _ Hx). lia.
Qed.

Lemma fmap_omap_Some {A B} (f : A -> option B) (l : list A) :
  Forall (fun a => is_Some (f a)) l -> f <$> l = Some <$> omap f l.
Proof.
  induction 1 as [|a l [b Hb] _ IH]; [done|].
  cbn [fmap list_fmap omap list_omap]. rewrite Hb. cbn. by f_equal.
Qed.

(** After [baseLoadUsers] the ids, as keys of a [Map], are pairwise
    distinct when the finite ids in the file were. *)
Lemma normalized_ids_NoDup us :
  NoDup (omap u_id us) -> NoDup (u_id <$> normalized us).
Proof.
  intros Hnd. rewrite fmap_omap_Some.
  - apply (NoDup_fmap_2 _). apply normalize_loop_NoDup; [done|].
    apply maxId_of_bound.
  - eapply Forall_impl; [apply normalize_loop_filled|]. by intros ? [? _].
Qed.

(** ** persistEnabledFlags *)

Lemma Map_new_fold_notin (entries : list (option Z * option bool))
    (m : gmap (option Z) (option bool)) k :
  k ∉ entries.*1 ->
  fold_left (fun m p => <[p.1 := p.2]> m) entries m !! k = m !! k.
Proof.
  revert m. induction entries as [|[k' v'] rest IH]; intros m Hk; [done|].
  apply not_elem_of_cons in Hk as [Hne Hk]. simpl in *.
  rewrite IH by done. by rewrite lookup_insert_ne.
Qed.

Lemma Map_new_lookup (entries : list (option Z * option bool)) k v :
  NoDup entries.*1 -> (k, v) ∈ entries -> Map_new entries !! k = Some v.
Proof.
  unfold Map_new. generalize (∅ : gmap (option Z) (option bool)).
  induction entries as [|[k' v'] rest IH]; intros m Hnd Hin.
  - by apply elem_of_nil in Hin.
  - cbn [fmap list_fmap fst] in Hnd. apply NoDup_cons in Hnd as [Hni Hnd].
    apply elem_of_cons in Hin as [[= -> ->]|Hin]; simpl.
    + rewrite Map_new_fold_notin by done. by rewrite lookup_insert_eq.
    + by apply IH.
Qed.

(** One iteration of the loop. *)
Lemma flags_loop_cons byId u rest changed :
  flags_loop byId (u :: rest) changed =
    let changed' :=
      changed || bool_decide (u_enabled (flag_of byId u) <> u_enabled u) in
    (flag_of byId u :: (flags_loop byId rest changed').1,
     (flags_loop byId rest changed').2).
Proof.
  assert (forall b : bool, b || false = b) as Hf by (by intros []).
  assert (forall b : bool, b || true = true) as Ht by (by intros []).
  simpl. unfold flag_of.
  destruct (byId !! u_id u) as [[b|]|].
  - destruct (decide (Some b = u_enabled u)) as [He|He].
    + rewrite bool_decide_eq_false_2 by (intros H; by apply H). rewrite Hf.
      by destruct (flags_loop byId rest changed).
    + rewrite bool_decide_eq_true_2 by (intros H; by apply He). rewrite Ht.
      by destruct (flags_loop byId rest true).
  - rewrite bool_decide_eq_false_2 by (intros H; by apply H). rewrite Hf.
    by destruct (flags_loop byId rest changed).
  - rewrite bool_decide_eq_false_2 by (intros H; by apply H). rewrite Hf.
    by destruct (flags_loop byId rest changed).
Qed.

Lemma flags_loop_fst byId orig changed :
  (flags_loop byId orig changed).1 = flag_of byId <$> orig.
Proof.
  revert changed. induction orig as [|u rest IH]; intros changed; [done|].
  rewrite flags_loop_cons. cbn [fst]. by rewrite IH.
Qed.

(** The [changed] flag is raised exactly when some record's flag changes. *)
Lemma flags_loop_snd byId orig changed :
  (flags_loop byId orig changed).2 =
    changed || existsb (fun u => bool_decide (u_enabled (flag_of byId u) <> u_enabled u)) orig.
Proof.
  revert changed. induction orig as [|u rest IH]; intros changed.
  - simpl. by destruct changed.
  - rewrite flags_loop_cons. cbn [snd existsb]. rewrite IH. by rewrite orb_assoc.
Qed.

Lemma flag_of_rel byId u : flag_of byId u = set_enabled (u_enabled (flag_of byId u)) u.
Proof.
  unfold flag_of. destruct (byId !! u_id u) as [[b|]|]; [|by destruct u..].
  case_decide; by destruct u.
Qed.

Lemma flag_of_same byId u : u_enabled (flag_of byId u) = u_enabled u -> flag_of byId u = u.
Proof. intros H. rewrite flag_of_rel, H. by destruct u. Qed.

Lemma flags_loop_clean byId orig :
  (flags_loop byId orig false).2 = false -> (flags_loop byId orig false).1 = orig.
Proof.
  rewrite flags_loop_snd, flags_loop_fst. cbn [orb].
  induction orig as [|u rest IH]; [done|]. rewrite fmap_cons. cbn [existsb].
  intros [Hu Hrest]%orb_false_elim. rewrite IH by done. f_equal.
  apply flag_of_same. apply bool_decide_eq_false in Hu.
  destruct (decide (u_enabled (flag_of byId u) = u_enabled u)); [done|by destruct Hu].
Qed.

(** ** Running the code *)

Lemma baseLoadUsers_run w us :
  users_file w = Some us ->
  baseLoadUsers w =
    (Some (normalized us),
     MkWorld (Some (normalized us)) (usage_file w)
             ((if needPersist_of us then [Write USERS_FILE] else [])
                ++ Read USERS_FILE :: io w)
             (_cachedEnriched w) (_cacheStamp w) (_isAggregating w)).
Proof.
  intros Hus. unfold baseLoadUsers, bind, readJson_USERS_FILE. rewrite Hus.
  pose proof (normalized_clean us) as Hclean.
  unfold normalized, needPersist_of in *.
  destruct (normalize_loop (maxId_of us) false us) as [l [|]]; simpl in *.
  - done.
  - rewrite Hclean by done. unfold ret, log. simpl. by rewrite Hus.
Qed.

Lemma baseLoadUsers_fail w :
  users_file w = None -> baseLoadUsers w = (None, log (Read USERS_FILE) w).
Proof.
  intros Hus. unfold baseLoadUsers, bind, readJson_USERS_FILE. by rewrite Hus.
Qed.

Lemma read_usage_run w :
  try_catch readJson_USAGE_FILE (ret ∅) w
  = (Some (default ∅ (usage_file w)), log (Read USAGE_FILE) w).
Proof.
  unfold try_catch, readJson_USAGE_FILE, ret. by destruct (usage_file w).
Qed.

Section AggregatorProperties.

Variable Date_parse : string -> option Z.

(** The synchronous prefix on a readable user store. *)
Lemma aggregate_begin_run w us :
  users_file w = Some us -> _isAggregating w = false ->
  aggregate_begin w =
    (Some (Some (Cycle (normalized us) (default ∅ (usage_file w)))),
     MkWorld (Some (normalized us)) (usage_file w)
             (Read USAGE_FILE
                :: (if needPersist_of us then [Write USERS_FILE] else [])
                ++ Read USERS_FILE :: io w)
             (_cachedEnriched w) (_cacheStamp w) true).
Proof.
  intros Hus Hfl. unfold aggregate_begin. rewrite Hfl.
  unfold bind at 1. unfold modify at 1. unfold try_catch at 1. unfold bind at 1.
  rewrite (baseLoadUsers_run _ us) by done.
  unfold bind. rewrite read_usage_run. done.
Qed.

(** The synchronous prefix on an unreadable user store: the [catch] and the
    [finally] run at once. *)
Lemma aggregate_begin_fail w :
  users_file w = None -> _isAggregating w = false ->
  aggregate_begin w = (Some None, log (Read USERS_FILE) w).
Proof.
  intros Hus Hfl. unfold aggregate_begin. rewrite Hfl.
  unfold bind at 1. unfold modify at 1. unfold try_catch at 1. unfold bind at 1.
  rewrite baseLoadUsers_fail by done.
  unfold bind, modify, ret, log, set_isAggregating. simpl. by rewrite <- Hfl.
Qed.

(** The rest of the cycle, for the world and locals [aggregate_begin]
    leaves. *)
Lemma aggregate_resume_run obs now w us t :
  aggregate_resume Date_parse obs now
      (Cycle (normalized us) (default ∅ (usage_file w)))
      (MkWorld (Some (normalized us)) (usage_file w) t
               (_cachedEnriched w) (_cacheStamp w) true)
  = (Some tt,
     MkWorld (Some (cycle_flags Date_parse obs now w us).1)
        (if (cycle_worker obs w us).2 then Some (cycle_worker obs w us).1.2
         else usage_file w)
        ((if (cycle_flags Date_parse obs now w us).2 then [Write USERS_FILE] else [])
           ++ (if needPersist_of (normalized us) then [Write USERS_FILE] else [])
           ++ [Read USERS_FILE]
           ++ (if (cycle_worker obs w us).2 then [Write USAGE_FILE] else [])
           ++ t)
        (cycle_snapshot Date_parse obs now w us) now false).
Proof.
  unfold aggregate_resume, try_finally, try_catch at 1.
  pose proof (flags_loop_clean (cycle_byId Date_parse obs now w us) (normalized us)) as Hclean.
  unfold cycle_flags, cycle_byId, cycle_snapshot in *. unfold cycle_worker in *.
  cbn [c_users c_store].
  destruct (worker obs 0 (normalized us) (default ∅ (usage_file w)) false)
    as [[users store] storeChanged].
  cbn [fst snd] in *.
  set (snapshot := map (enrich Date_parse now) users) in *.
  unfold bind at 1.
  set (w1 := MkWorld (Some (normalized us))
               (if storeChanged then Some store else usage_file w)
               ((if storeChanged then [Write USAGE_FILE] else []) ++ t)
               (_cachedEnriched w) (_cacheStamp w) true).
  assert (when storeChanged (try_catch (writeJson_USAGE_FILE store) (ret tt))
            (MkWorld (Some (normalized us)) (usage_file w) t
                     (_cachedEnriched w) (_cacheStamp w) true) = (Some tt, w1)) as ->.
  { unfold w1. by destruct storeChanged. }
  unfold bind at 1. unfold persistEnabledFlags, try_catch at 1. unfold bind at 1.
  rewrite (baseLoadUsers_run w1 (normalized us)) by done.
  rewrite normalized_idem.
  destruct (flags_loop _ (normalized us) false) as [orig' changed].
  cbn [fst snd] in *.
  destruct changed; cbn.
  - done.
  - by rewrite Hclean.
Qed.

(** An uninterrupted cycle on a readable user store computes
    [cycle_world]. *)
Lemma aggregate_run obs now w us :
  users_file w = Some us -> _isAggregating w = false ->
  aggregate Date_parse obs now w = (Some tt, cycle_world Date_parse obs now w us).
Proof.
  intros Hus Hfl. unfold aggregate, bind.
  rewrite (aggregate_begin_run w us) by done.
  rewrite aggregate_resume_run. unfold cycle_world, cycle_trace.
  by rewrite <- !app_assoc.
Qed.

(** An uninterrupted cycle on an unreadable user store only records the
    failed read. *)
Lemma aggregate_fail obs now w :
  users_file w = None -> _isAggregating w = false ->
  aggregate Date_parse obs now w = (Some tt, log (Read USERS_FILE) w).
Proof.
  intros Hus Hfl. unfold aggregate, bind. by rewrite aggregate_begin_fail.
Qed.

End AggregatorProperties.

(** ** Readings *)

Lemma sum_stats_fold statKey stats acc :
  fold_left
    (fun rawBytes s =>
       if String.prefix ("user>>>" ++ statKey ++ ">>>traffic>>>") (s_name s)
       then match s_value s with Some v => rawBytes + v | None => rawBytes end
       else rawBytes)
    stats acc
  = acc + sum_stats statKey stats.
Proof.
  unfold sum_stats. revert acc.
  induction stats as [|s l IH]; intros acc; simpl; [lia|].
  rewrite IH. symmetry. rewrite IH.
  destruct (String.prefix _ _); [destruct (s_value s) as [v|]|]; lia.
Qed.

Lemma sum_stats_cons statKey s stats :
  sum_stats statKey (s :: stats)
  = (if String.prefix ("user>>>" ++ statKey ++ ">>>traffic>>>") (s_name s)
     then default 0 (s_value s) else 0) + sum_stats statKey stats.
Proof.
  unfold sum_stats at 1. simpl. rewrite sum_stats_fold.
  destruct (String.prefix _ _); [destruct (s_value s)|]; simpl; lia.
Qed.

(** An answer that lists only counters of this user reads as the sum of
    their numeric values. *)
Lemma sum_stats_own statKey stats :
  Forall (fun s => String.prefix ("user>>>" ++ statKey ++ ">>>traffic>>>") (s_name s) = true)
         stats ->
  sum_stats statKey stats = foldr Z.add 0 (omap s_value stats).
Proof.
  induction 1 as [|s l Hs _ IH]; [done|].
  rewrite sum_stats_cons, Hs, IH. cbn. by destruct (s_value s).
Qed.

Lemma sum_stats_nonneg statKey stats :
  Forall (fun s => forall v, s_value s = Some v -> 0 <= v) stats ->
  0 <= sum_stats statKey stats.
Proof.
  intros Hall. unfold sum_stats.
  assert (forall acc, 0 <= acc ->
     0 <= fold_left
       (fun rawBytes s =>
          if String.prefix ("user>>>" ++ statKey ++ ">>>traffic>>>") (s_name s)
          then match s_value s with Some v => rawBytes + v | None => rawBytes end
          else rawBytes) stats acc) as H.
  { induction Hall as [|s l Hs _ IH]; intros acc Hacc; simpl; [done|].
    apply IH. destruct (String.prefix _ _); [|done].
    destruct (s_value s) as [v|] eqn:Hv; [|done]. specialize (Hs v eq_refl). lia. }
  by apply H.
Qed.

Lemma query_rawBytes_nonneg statKey o :
  outcome_nonneg o -> 0 <= query_rawBytes statKey o.
Proof. destruct o; simpl; [done|apply sum_stats_nonneg]. Qed.

(** ** The worker loop never lowers an accumulated value *)

Lemma worker_mono obs i users store changed key :
  (forall j, outcome_nonneg (obs j)) ->
  let store' := (worker obs i users store changed).1.2 in
  (is_Some (store !! key) -> is_Some (store' !! key))
  /\ accum_of (store !! key) <= accum_of (store' !! key).
Proof.
  intros Hobs. revert i store changed.
  induction users as [|u rest IH]; intros i store changed; simpl.
  - split; [done|lia].
  - rewrite reconcile_spec.
    set (e1 := reconcile_entry _ _).
    specialize (IH (S i) (<[u_uuid u := e1]> store)
      (if decide (store !! u_uuid u = Some e1) then changed else true)).
    destruct (worker obs (S i) rest _ _) as [[us st] ch]. simpl in *.
    destruct IH as [IH1 IH2].
    destruct (decide (u_uuid u = key)) as [Hk|Hk].
    + rewrite Hk, lookup_insert_eq in IH1, IH2. split; [auto|].
      assert (accum_of (store !! key) <= accum_of (Some e1)); [|lia].
      unfold e1. rewrite Hk.
      pose proof (query_rawBytes_nonneg (statKey_of u) (obs i) (Hobs i)) as Hr.
      destruct (store !! key) as [e|]; [by apply reconcile_entry_mono|].
      exact Hr.
    + by rewrite lookup_insert_ne in IH1, IH2.
Qed.

Lemma stored_entry_default w key :
  default ∅ (usage_file w) !! key = stored_entry w key.
Proof. unfold stored_entry. by destruct (usage_file w). Qed.

Lemma Forall2_fmap_eq {A B} (f : A -> B) (R : A -> A -> Prop) l l' :
  (forall a a', R a a' -> f a' = f a) -> Forall2 R l l' -> f <$> l' = f <$> l.
Proof.
  intros HR. induction 1 as [|a a' l l' Haa' _ IH]; [done|].
  rewrite !fmap_cons. by rewrite (HR _ _ Haa'), IH.
Qed.

Lemma normalized_uuid us : u_uuid <$> normalized us = u_uuid <$> us.
Proof.
  apply (Forall2_fmap_eq _ normalize_rel); [|apply normalize_loop_rel].
  intros a a' [-> _]. done.
Qed.

Lemma normalized_statKey_of us : statKey_of <$> normalized us = statKey_of <$> us.
Proof.
  apply (Forall2_fmap_eq _ normalize_rel); [|apply normalize_loop_rel].
  by intros a a' [_ ->].
Qed.

Lemma normalized_policy us :
  (fun u => (u_username u, u_quota u, u_expiry u, u_enabled u)) <$> normalized us
  = (fun u => (u_username u, u_quota u, u_expiry u, u_enabled u)) <$> us.
Proof.
  apply (Forall2_fmap_eq _ normalize_rel); [|apply normalize_loop_rel].
  intros a a' [-> _]. done.
Qed.

Lemma fmap_eq_lookup {A B} (f : A -> B) (l l' : list A) i a :
  f <$> l' = f <$> l -> l !! i = Some a -> exists a', l' !! i = Some a' /\ f a' = f a.
Proof.
  intros Heq Hi.
  assert ((f <$> l') !! i = Some (f a)) as H by (by rewrite Heq, list_lookup_fmap, Hi).
  rewrite list_lookup_fmap in H. destruct (l' !! i) as [a'|]; [|done].
  injection H as H. by exists a'.
Qed.

(** A position in a list without duplicate keys splits the list around it. *)
Lemma NoDup_split_at {A B} (f : A -> B) (l : list A) i a :
  NoDup (f <$> l) -> l !! i = Some a ->
  exists l1 l2, l = l1 ++ a :: l2 /\ length l1 = i
                /\ (f a ∉ f <$> l1) /\ (f a ∉ f <$> l2).
Proof.
  intros Hnd Hi. exists (take i l), (drop (S i) l).
  pose proof (take_drop_middle l i a Hi) as Hl.
  split; [done|]. split.
  { apply length_take_le. apply lookup_lt_Some in Hi. lia. }
  rewrite <- Hl in Hnd. rewrite fmap_app, fmap_cons in Hnd.
  apply NoDup_app in Hnd as (_ & Hd & Hnd2).
  apply NoDup_cons in Hnd2 as [Hn2 _].
  split; [|done]. intros Hin. apply (Hd _ Hin). by left.
Qed.

Section CycleProperties.

Variable Date_parse : string -> option Z.

(** ** One cycle, key by key *)

(** What the cycle does to the user at position [i] when uuids are
    distinct: the reconciled entry is in the record handed to the policy
    and in the persisted store. *)
Lemma cycle_at obs w us i u :
  NoDup (u_uuid <$> us) -> us !! i = Some u ->
  let e := reconcile_entry (query_rawBytes (statKey_of u) (obs i))
                           (stored_entry w (u_uuid u)) in
  exists u0, normalized us !! i = Some u0
    /\ normalize_rel u u0
    /\ (cycle_worker obs w us).1.1 !! i
         = Some (set_usage (Some (accumBytes e)) (Some (lastRawBytes e)) u0)
    /\ (cycle_worker obs w us).1.2 !! u_uuid u = Some e.
Proof.
  intros Hnd Hi e.
  pose proof (normalize_loop_rel (maxId_of us) false us) as Hrel.
  fold (normalized us) in Hrel.
  destruct (Forall2_lookup_l _ _ _ _ _ Hrel Hi) as (u0 & Hi0 & Hr).
  exists u0. split; [done|]. split; [done|].
  rewrite <- normalized_uuid in Hnd.
  destruct (NoDup_split_at u_uuid _ _ _ Hnd Hi0) as (l1 & l2 & Hl & Hlen & Hn1 & Hn2).
  assert (u_uuid u0 = u_uuid u) as Huuid by (destruct Hr as [-> _]; done).
  assert (statKey_of u0 = statKey_of u) as Hsk by (by destruct Hr as [_ ->]).
  unfold cycle_worker. rewrite Hl.
  destruct (worker_at obs 0 l1 u0 l2 (default ∅ (usage_file w)) false Hn1) as [H1 H2].
  rewrite stored_entry_default, Hlen, Hsk, Huuid in H1, H2. simpl in H1, H2.
  split; [exact H1|]. apply H2. by rewrite <- Huuid.
Qed.

(** The persisted store after a cycle, read at one key. *)
Lemma cycle_stored_entry obs now w us key :
  stored_entry (cycle_world Date_parse obs now w us) key
  = if (cycle_worker obs w us).2 then (cycle_worker obs w us).1.2 !! key
    else stored_entry w key.
Proof.
  unfold stored_entry, cycle_world. simpl. by destruct (cycle_worker obs w us).2.
Qed.

Lemma cycle_worker_unchanged obs w us :
  (cycle_worker obs w us).2 = false ->
  (cycle_worker obs w us).1.2 = default ∅ (usage_file w).
Proof.
  unfold cycle_worker.
  destruct (worker obs 0 (normalized us) (default ∅ (usage_file w)) false)
    as [[us' st'] ch] eqn:Hw.
  simpl. intros ->. by apply worker_unchanged in Hw as [-> _].
Qed.

Lemma cycle_stored_entry_worker obs now w us key :
  stored_entry (cycle_world Date_parse obs now w us) key
  = (cycle_worker obs w us).1.2 !! key.
Proof.
  rewrite cycle_stored_entry.
  destruct (cycle_worker obs w us).2 eqn:Hch; [done|].
  by rewrite cycle_worker_unchanged, stored_entry_default.
Qed.

(** The key lemma: one uninterrupted cycle applies one reconciliation step
    to the entry of each user. *)
Lemma cycle_entry obs now w us i u :
  users_file w = Some us -> _isAggregating w = false ->
  NoDup (u_uuid <$> us) -> us !! i = Some u ->
  stored_entry (run (aggregate Date_parse obs now) w) (u_uuid u)
  = Some (reconcile_entry (query_rawBytes (statKey_of u) (obs i))
                          (stored_entry w (u_uuid u))).
Proof.
  intros Hus Hfl Hnd Hi. unfold run.
  rewrite (aggregate_run Date_parse obs now w us) by done. simpl.
  rewrite cycle_stored_entry_worker.
  by destruct (cycle_at obs w us i u Hnd Hi) as (u0 & _ & _ & _ & ->).
Qed.

(** The user store after a cycle lists the same users under the same keys. *)
Lemma cycle_users_identity obs now w us :
  users_file w = Some us -> _isAggregating w = false ->
  exists us', users_file (run (aggregate Date_parse obs now) w) = Some us'
    /\ u_uuid <$> us' = u_uuid <$> us
    /\ statKey_of <$> us' = statKey_of <$> us
    /\ _isAggregating (run (aggregate Date_parse obs now) w) = false.
Proof.
  intros Hus Hfl. unfold run.
  rewrite (aggregate_run Date_parse obs now w us) by done. simpl.
  eexists. split; [done|]. unfold cycle_flags. rewrite flags_loop_fst.
  rewrite <- !list_fmap_compose.
  split; [|split; [|done]].
  - rewrite <- normalized_uuid. apply list_fmap_ext. intros _ u _. simpl.
    by rewrite flag_of_rel.
  - rewrite <- normalized_statKey_of. apply list_fmap_ext. intros _ u _. simpl.
    by rewrite flag_of_rel.
Qed.

End CycleProperties.

(** * The specified properties *)

(** ** C2: one reconciliation step on an existing entry *)

(** C2. For a key that already has an entry [{accumBytes, lastRawBytes}],
    the reconciliation block of [accumulateUsageAsync] stores
    [{accumBytes + (rawBytes - lastRawBytes), rawBytes}] when
    [rawBytes >= lastRawBytes] and [{accumBytes + rawBytes, rawBytes}] when
    [rawBytes < lastRawBytes]; the entry it returns is the one it stores and
    no other key is touched. *)
Theorem reconcile_existing_entry rawBytes key store changed e :
  store !! key = Some e ->
  let '(prev, store', _) := reconcile rawBytes key store changed in
  store' !! key = Some prev
  /\ (lastRawBytes e <= rawBytes ->
      prev = Entry (accumBytes e + (rawBytes - lastRawBytes e)) rawBytes)
  /\ (rawBytes < lastRawBytes e ->
      prev = Entry (accumBytes e + rawBytes) rawBytes)
  /\ (forall k, k <> key -> store' !! k = store !! k).
Proof.
  intros He. rewrite reconcile_spec, He. unfold reconcile_entry.
  split; [apply lookup_insert_eq|].
  split; [|split].
  - intros Hle. by rewrite (proj2 (Z.geb_le _ _)) by lia.
  - intros Hlt. destruct (Z.geb_spec rawBytes (lastRawBytes e)); [lia|done].
  - intros k Hk. by rewrite lookup_insert_ne.
Qed.

Lemma reconcile_existing_entry_witness :
  let store : gmap string entry := {[ "uuid-a" := Entry 200 700 ]} in
  let '(prev, store', _) := reconcile 100 "uuid-a" store false in
  store' !! "uuid-a" = Some prev
  /\ (700 <= 100 -> prev = Entry (200 + (100 - 700)) 100)
  /\ (100 < 700 -> prev = Entry (200 + 100) 100)
  /\ (forall k, k <> "uuid-a" -> store' !! k = store !! k).
Proof.
  apply (reconcile_existing_entry 100 "uuid-a" {[ "uuid-a" := Entry 200 700 ]} false
           (Entry 200 700)).
  reflexivity.
Defined.

(** ** C1: accumulation over successive cycles *)

Section Accumulation.

Variable Date_parse : string -> option Z.

(** Once a key holds [{r, r}], cycles with non-decreasing readings keep the
    entry at [{last reading, last reading}]. *)
Lemma run_cycles_tracks cs : forall w us i u r,
  users_file w = Some us -> _isAggregating w = false ->
  NoDup (u_uuid <$> us) -> us !! i = Some u ->
  stored_entry w (u_uuid u) = Some (Entry r r) ->
  let rs := (fun c => query_rawBytes (statKey_of u) (c.1 i)) <$> cs in
  nondecreasing_from r rs ->
  stored_entry (run_cycles Date_parse cs w) (u_uuid u)
  = Some (Entry (List.last rs r) (List.last rs r)).
Proof.
  induction cs as [|[obs now] cs IH]; intros w us i u r Hus Hfl Hnd Hi He rs Hmono.
  - done.
  - subst rs. rewrite fmap_cons in *. destruct Hmono as [Hle Hmono].
    cbn [run_cycles fst] in *.
    set (r1 := query_rawBytes (statKey_of u) (obs i)) in *.
    pose proof (cycle_entry Date_parse obs now w us i u Hus Hfl Hnd Hi) as Hstep.
    rewrite He in Hstep. fold r1 in Hstep.
    assert (reconcile_entry r1 (Some (Entry r r)) = Entry r1 r1) as Hr.
    { unfold reconcile_entry. simpl. rewrite (proj2 (Z.geb_le _ _)) by lia.
      f_equal. lia. }
    rewrite Hr in Hstep.
    destruct (cycle_users_identity Date_parse obs now w us Hus Hfl)
      as (us' & Hus' & Huuid & Hsk & Hfl').
    destruct (fmap_eq_lookup (fun u => (u_uuid u, statKey_of u)) us us' i u) as (u' & Hi' & Hu').
    { apply list_eq. intros j. rewrite !list_lookup_fmap.
      assert ((u_uuid <$> us') !! j = (u_uuid <$> us) !! j) as H1 by (by rewrite Huuid).
      assert ((statKey_of <$> us') !! j = (statKey_of <$> us) !! j) as H2 by (by rewrite Hsk).
      rewrite !list_lookup_fmap in H1, H2.
      destruct (us' !! j), (us !! j); simpl in *; congruence. }
    { done. }
    injection Hu' as Hu1 Hu2.
    specialize (IH _ us' i u' r1 Hus' Hfl').
    rewrite Hu1, Hu2 in IH. rewrite Huuid in IH.
    specialize (IH Hnd Hi' Hstep Hmono).
    rewrite IH.
    assert (forall (l : list Z) a b, List.last (a :: l) b = List.last l a) as Hlast.
    { induction l as [|x l IHl]; intros a b; [done|].
      change (List.last (a :: x :: l) b) with (List.last (x :: l) b).
      rewrite (IHl x b). symmetry. apply (IHl x a). }
    by rewrite Hlast.
Qed.

(** C1 (amended). Starting with no accumulator entry for a user's key,
    after successive cycles with readings [r0 <= r1 <= ... <= rn] the
    user's [accumBytes] (and [lastRawBytes]) equal [rn]: the first
    observation is stored in full, so after the very first cycle
    [accumBytes] is [r0], and every later cycle adds the delta. *)
Theorem monotonic_accumulation w us i u obs now cs :
  users_file w = Some us -> _isAggregating w = false ->
  NoDup (u_uuid <$> us) -> us !! i = Some u ->
  stored_entry w (u_uuid u) = None ->
  let r0 := query_rawBytes (statKey_of u) (obs i) in
  let rs := (fun c => query_rawBytes (statKey_of u) (c.1 i)) <$> cs in
  nondecreasing_from r0 rs ->
  stored_entry (run (aggregate Date_parse obs now) w) (u_uuid u) = Some (Entry r0 r0)
  /\ stored_entry (run_cycles Date_parse ((obs, now) :: cs) w) (u_uuid u)
     = Some (Entry (List.last rs r0) (List.last rs r0)).
Proof.
  intros Hus Hfl Hnd Hi He r0 rs Hmono.
  pose proof (cycle_entry Date_parse obs now w us i u Hus Hfl Hnd Hi) as Hstep.
  rewrite He in Hstep. cbn [reconcile_entry] in Hstep. fold r0 in Hstep.
  split; [done|].
  destruct (cycle_users_identity Date_parse obs now w us Hus Hfl)
    as (us' & Hus' & Huuid & Hsk & Hfl').
  destruct (fmap_eq_lookup u_uuid us us' i u Huuid Hi) as (u' & Hi' & Hu1).
  destruct (fmap_eq_lookup statKey_of us us' i u Hsk Hi) as (u'' & Hi'' & Hu2).
  rewrite Hi' in Hi''. injection Hi'' as <-.
  cbn [run_cycles].
  pose proof (run_cycles_tracks cs _ us' i u' r0 Hus' Hfl') as Htr.
  rewrite Hu1, Hu2, Huuid in Htr. by apply Htr.
Qed.

End Accumulation.

Lemma monotonic_accumulation_witness :
  let w := boot (Some [alice]) (Some ∅) in
  let cs := [(fun _ : nat => traffic "alice" 400 300, 20); (fun _ => traffic "alice" 450 350, 30)] in
  stored_entry (run (aggregate no_dates (fun _ => traffic "alice" 300 200) 10) w) "uuid-a"
    = Some (Entry 500 500)
  /\ stored_entry (run_cycles no_dates ((fun _ => traffic "alice" 300 200, 10) :: cs) w) "uuid-a"
     = Some (Entry 800 800).
Proof.
  apply (monotonic_accumulation no_dates (boot (Some [alice]) (Some ∅)) [alice] 0 alice
           (fun _ => traffic "alice" 300 200) 10
           [(fun _ : nat => traffic "alice" 400 300, 20); (fun _ => traffic "alice" 450 350, 30)]).
  - reflexivity.
  - reflexivity.
  - vm_compute. apply NoDup_singleton.
  - reflexivity.
  - reflexivity.
  - vm_compute. repeat split; discriminate.
Defined.

(** C1 as stated fails at the first observation: a user first seen with a
    raw reading of 10000 bytes has [accumBytes] 10000 after that cycle, not
    [r0 - r0 = 0]. *)
Lemma first_observation_counterexample :
  let w := boot (Some [alice]) (Some ∅) in
  let obs := fun _ : nat => traffic "alice" 6000 4000 in
  stored_entry w (u_uuid alice) = None
  /\ query_rawBytes (statKey_of alice) (obs 0%nat) = 10000
  /\ accumBytes <$> stored_entry (run (aggregate no_dates obs 10) w) (u_uuid alice)
     = Some 10000
  /\ accumBytes <$> stored_entry (run (aggregate no_dates obs 10) w) (u_uuid alice)
     <> Some (10000 - 10000).
Proof. vm_compute. repeat split; congruence. Qed.

(** ** The enablement policy *)

Section PolicyProperties.

Variable Date_parse : string -> option Z.

(** The snapshot row carries the record with at most [enabled] replaced. *)
Lemma enrich_user now u :
  e_user (enrich Date_parse now u)
  = set_enabled (u_enabled (e_user (enrich Date_parse now u))) u.
Proof.
  unfold enrich. cbn [e_user]. case_decide; by destruct u.
Qed.

(** The [enabled] flag of the snapshot row, against the breach predicate of
    the specification. *)
Lemma enrich_enabled now u :
  exists b, u_enabled (e_user (enrich Date_parse now u)) = Some b
    /\ (b = true <->
        truthy (u_enabled u) = true
        /\ ~ breached Date_parse now (u_quota u) (u_expiry u)
                      (default 0 (u_usageAccumBytes u))).
Proof.
  unfold enrich. cbn [e_user].
  set (usage := default 0 (u_usageAccumBytes u)).
  set (quotaGB := match u_quota u with
                  | Some q => if Qeq_bool q (-1) then (-1)%Q else q
                  | None => (-1)%Q
                  end).
  set (dl := if decide (u_expiry u = EmptyString) then Some (-1)
             else match Date_parse (u_expiry u) with
                  | Some t => Some (Z.max 0 (ceil_div (t - now) 86400000))
                  | None => None
                  end).
  set (breach := (negb (Qeq_bool quotaGB (-1)) && Qle_bool quotaGB (Qmake usage 1073741824))
                 || (negb (bool_decide (u_expiry u = EmptyString))
                     && match dl with Some d => d <=? 0 | None => false end)).
  assert (forall b : bool,
    u_enabled (if decide (Some b = u_enabled u) then u else set_enabled (Some b) u)
    = Some b) as Hen.
  { intros b. by case_decide. }
  rewrite Hen.
  assert (breach = true <-> breached Date_parse now (u_quota u) (u_expiry u) usage) as Hb.
  { unfold breach, breached. rewrite orb_true_iff, !andb_true_iff, !negb_true_iff.
    assert (dl = daysLeft_spec Date_parse now (u_expiry u)) as Hdl.
    { unfold dl, daysLeft_spec. case_decide; [done|]. by destruct (Date_parse _). }
    split.
    - intros [[Hq Hle]|[Hexp Hd]].
      + left. unfold quotaGB in *. destruct (u_quota u) as [q|]; [|done].
        destruct (Qeq_bool q (-1)) eqn:Hq1; [done|].
        exists q. split; [done|]. split.
        * intros Heq. apply Qeq_bool_iff in Heq. congruence.
        * by apply Qle_bool_iff.
      + right. apply bool_decide_eq_false in Hexp. split; [done|].
        rewrite <- Hdl. destruct dl as [d|]; [|done]. exists d. split; [done|lia].
    - intros [(q & Hq & Hne & Hle)|(Hexp & d & Hd & Hle)].
      + left. unfold quotaGB. rewrite Hq.
        destruct (Qeq_bool q (-1)) eqn:Hq1.
        { apply Qeq_bool_iff in Hq1. done. }
        split; [done|]. by apply Qle_bool_iff.
      + right. split; [by apply bool_decide_eq_false|].
        rewrite Hdl, Hd. lia. }
  eexists. split; [done|].
  destruct breach.
  - split; [done|]. intros [_ H]. destruct H. by apply Hb.
  - split; [|by intros [? _]]. intros Hen'. split; [done|].
    intros H. apply Hb in H. done.
Qed.

Lemma enrich_daysLeft now u :
  daysLeft (enrich Date_parse now u) = daysLeft_spec Date_parse now (u_expiry u).
Proof.
  unfold enrich, daysLeft_spec. cbn [daysLeft]. case_decide; [done|].
  by destruct (Date_parse _).
Qed.

(** The flag a cycle persists for the user at position [i], when ids and
    uuids are distinct: the flag of the snapshot row computed from the
    stored policy fields and the reconciled usage. *)
Lemma cycle_flag obs now w us i u :
  users_file w = Some us -> _isAggregating w = false ->
  NoDup (omap u_id us) -> NoDup (u_uuid <$> us) -> us !! i = Some u ->
  exists us' u' e b,
    users_file (run (aggregate Date_parse obs now) w) = Some us'
    /\ length us' = length us
    /\ us' !! i = Some u'
    /\ stored_entry (run (aggregate Date_parse obs now) w) (u_uuid u) = Some e
    /\ e = reconcile_entry (query_rawBytes (statKey_of u) (obs i))
                           (stored_entry w (u_uuid u))
    /\ u_enabled u' = Some b
    /\ (b = true <->
        truthy (u_enabled u) = true
        /\ ~ breached Date_parse now (u_quota u) (u_expiry u) (accumBytes e))
    /\ daysLeft <$> (_cachedEnriched (run (aggregate Date_parse obs now) w) !! i)
       = Some (daysLeft_spec Date_parse now (u_expiry u)).
Proof.
  intros Hus Hfl Hids Hnd Hi.
  pose proof (cycle_entry Date_parse obs now w us i u Hus Hfl Hnd Hi) as Hentry.
  set (e := reconcile_entry _ _) in *.
  unfold run in *. rewrite (aggregate_run Date_parse obs now w us) in * by done.
  cbn [snd] in *.
  destruct (cycle_at obs w us i u Hnd Hi) as (u0 & Hi0 & Hrel & Hrow & _).
  fold e in Hrow.
  set (u1 := set_usage (Some (accumBytes e)) (Some (lastRawBytes e)) u0) in *.
  unfold cycle_world. cbn [users_file]. unfold cycle_flags. rewrite flags_loop_fst.
  assert (u_quota u1 = u_quota u /\ u_expiry u1 = u_expiry u
          /\ u_enabled u1 = u_enabled u) as (Hq & Hx & Hn).
  { destruct Hrel as [Hrel _]. unfold u1. rewrite Hrel. done. }
  destruct (enrich_enabled now u1) as (b & Hb & Hbr).
  exists (flag_of (cycle_byId Date_parse obs now w us) <$> normalized us).
  exists (flag_of (cycle_byId Date_parse obs now w us) u0), e, b.
  split; [done|].
  split.
  { rewrite length_fmap. pose proof (normalize_loop_rel (maxId_of us) false us) as Hl.
    apply Forall2_length in Hl. fold (normalized us) in Hl. by rewrite <- Hl. }
  split; [by rewrite list_lookup_fmap, Hi0|].
  split; [done|]. split; [done|].
  cbn [_cachedEnriched]. unfold cycle_snapshot.
  rewrite list_lookup_fmap, Hrow. cbn [fmap option_fmap option_map].
  rewrite enrich_daysLeft, Hx.
  rewrite Hq, Hx, Hn in Hbr. cbn in Hbr.
  split; [|done].
  (* the Map built from the snapshot answers with the row of this user *)
  assert (cycle_byId Date_parse obs now w us !! u_id u0
          = Some (u_enabled (e_user (enrich Date_parse now u1)))) as Hget.
  { unfold cycle_byId. apply Map_new_lookup.
    - unfold cycle_snapshot. rewrite <- !list_fmap_compose.
      assert (forall l l' : list user,
        Forall2 (fun u u' => exists a l, u' = set_usage (Some a) (Some l) u) l l' ->
        (fst ∘ (fun e => (u_id (e_user e), u_enabled (e_user e))) ∘ enrich Date_parse now)
          <$> l' = u_id <$> l) as Hkeys.
      { induction 1 as [|a a' l l' (x & y & ->) _ IH]; [done|].
        rewrite !fmap_cons, IH. f_equal. unfold compose. cbn [fst].
        by rewrite enrich_user. }
      rewrite (Hkeys (normalized us)) by apply worker_users.
      by apply normalized_ids_NoDup.
    - apply list_elem_of_lookup. exists i. unfold cycle_snapshot.
      rewrite !list_lookup_fmap, Hrow. cbn [fmap option_fmap option_map].
      f_equal. f_equal. by rewrite enrich_user. }
  unfold flag_of. rewrite Hget, Hb. by case_decide.
Qed.

End PolicyProperties.

(** ** C3: the persisted flag after a cycle *)

(** The cycles the statements below call uninterrupted: [run (aggregate ...)]
    is the event loop taking the settle event right after the call of
    [aggregate], with no handler in between. *)
Lemma uninterrupted_cycle Date_parse obs now s :
  sys_suspended s = [] ->
  handle Date_parse (EvSettled 0 obs now) (handle Date_parse EvAggregate s)
  = MkSystem (run (aggregate Date_parse obs now) (sys_world s)) [].
Proof.
  destruct s as [w susp]. cbn [sys_suspended sys_world handle]. intros ->.
  unfold request_cycle, resume_cycle, run, aggregate, bind.
  cbn [sys_world sys_suspended].
  by destruct (aggregate_begin w) as [[[c|]|] w1].
Qed.

Section Enablement.

Variable Date_parse : string -> option Z.

(** C3, amended.  After a cycle that starts with no cycle in flight and
    completes with no request served in between ([uninterrupted_cycle]),
    every user's persisted [enabled] flag is true exactly when it was true
    before and the policy is not breached, where breached means: the quota
    is a number other than -1 and the precise usage in GB reaches it, or an
    expiry is set and [daysLeft <= 0]; [daysLeft] is -1 without expiry and
    max(0, ceil((expiry - now) / 1 day)) otherwise.  So a breach forces the
    flag to false and such a cycle never turns a false flag into true. *)
Theorem policy_enforced obs now w us :
  users_file w = Some us -> _isAggregating w = false ->
  NoDup (omap u_id us) -> NoDup (u_uuid <$> us) ->
  let w' := run (aggregate Date_parse obs now) w in
  exists us', users_file w' = Some us' /\ length us' = length us /\
    forall i u, us !! i = Some u ->
      exists u' e b,
        us' !! i = Some u'
        /\ stored_entry w' (u_uuid u) = Some e
        /\ u_enabled u' = Some b
        /\ (b = true <->
            truthy (u_enabled u) = true
            /\ ~ breached Date_parse now (u_quota u) (u_expiry u) (accumBytes e))
        /\ (breached Date_parse now (u_quota u) (u_expiry u) (accumBytes e) -> b = false)
        /\ (truthy (u_enabled u) = false -> b = false)
        /\ daysLeft <$> (_cachedEnriched w' !! i)
           = Some (daysLeft_spec Date_parse now (u_expiry u)).
Proof.
  intros Hus Hfl Hids Hnd w'. subst w'.
  destruct (cycle_users_identity Date_parse obs now w us Hus Hfl) as (us' & Hus' & Huuid & _).
  exists us'. split; [done|]. split.
  { apply (f_equal length) in Huuid. by rewrite !length_fmap in Huuid. }
  intros i u Hi.
  destruct (cycle_flag Date_parse obs now w us i u Hus Hfl Hids Hnd Hi)
    as (us'' & u' & e & b & Hus'' & _ & Hi' & He & _ & Hb & Hiff & Hdays).
  rewrite Hus' in Hus''. injection Hus'' as <-.
  exists u', e, b. repeat (split; [done|]).
  split; [|split; [|done]].
  - intros Hbr. destruct b; [|done]. by destruct (proj1 Hiff eq_refl) as [_ []].
  - intros Hpr. destruct b; [|done]. destruct (proj1 Hiff eq_refl) as [Ht _]. congruence.
Qed.

End Enablement.

Lemma policy_enforced_witness :
  let w := boot (Some [alice; bob]) (Some {[ "uuid-b" := Entry 1073741000 500 ]}) in
  let w' := run (aggregate no_dates (fun _ => traffic "bob" 900 424) 10) w in
  exists us', users_file w' = Some us' /\ length us' = length [alice; bob] /\
    forall i u, [alice; bob] !! i = Some u ->
      exists u' e b,
        us' !! i = Some u'
        /\ stored_entry w' (u_uuid u) = Some e
        /\ u_enabled u' = Some b
        /\ (b = true <->
            truthy (u_enabled u) = true
            /\ ~ breached no_dates 10 (u_quota u) (u_expiry u) (accumBytes e))
        /\ (breached no_dates 10 (u_quota u) (u_expiry u) (accumBytes e) -> b = false)
        /\ (truthy (u_enabled u) = false -> b = false)
        /\ daysLeft <$> (_cachedEnriched w' !! i)
           = Some (daysLeft_spec no_dates 10 (u_expiry u)).
Proof.
  apply (policy_enforced no_dates (fun _ => traffic "bob" 900 424) 10
           (boot (Some [alice; bob]) (Some {[ "uuid-b" := Entry 1073741000 500 ]}))
           [alice; bob]).
  - reflexivity.
  - reflexivity.
  - apply (bool_decide_unpack _). vm_compute. exact I.
  - apply (bool_decide_unpack _). vm_compute. exact I.
Defined.

(** C3 as stated fails for a cycle that a request runs into.  The cycle
    read [enabled = true] for alice before POST .../disable was served; when
    it completes it persists the flag computed from that reading, so the
    stored flag goes from false to true although no one enabled the user. *)
Lemma stale_flag_counterexample :
  let s1 := handle no_dates EvAggregate (MkSystem (boot (Some [alice]) (Some ∅)) []) in
  let s2 := handle no_dates (EvMutation (DisableUser "alice")) s1 in
  let s3 := handle no_dates (EvSettled 0 (fun _ => QueryFailed) 10) s2 in
  u_enabled <$> default [] (users_file (sys_world s2)) = [Some false]
  /\ u_enabled <$> default [] (users_file (sys_world s3)) = [Some true]
  /\ u_enabled <$> default [] (users_file (sys_world s3))
     <> u_enabled <$> default [] (users_file (sys_world s2))
  /\ _isAggregating (sys_world s3) = false
  /\ _cacheStamp (sys_world s3) = 10
  /\ length (_cachedEnriched (sys_world s3)) = 1%nat.
Proof. vm_compute. repeat split. discriminate. Qed.

(** ** The mutation endpoints *)

Lemma accumulateUsage_run users w :
  accumulateUsage users w
  = (Some (with_usage (default ∅ (usage_file w)) <$> users), log (Read USAGE_FILE) w).
Proof. unfold accumulateUsage, bind. by rewrite read_usage_run. Qed.

Lemma find_has_username n (users : list user) i u :
  users !! i = Some u -> u_username u = n ->
  is_Some (List.find (has_username n) users).
Proof.
  revert i. induction users as [|x rest IH]; intros i Hi Hn; [done|].
  simpl. destruct (has_username n x) eqn:Hx; [done|].
  destruct i as [|i]; simpl in Hi.
  - injection Hi as ->. unfold has_username in Hx.
    by rewrite bool_decide_eq_true_2 in Hx.
  - by apply (IH i).
Qed.

Lemma update_first_unique n f (users : list user) i u :
  NoDup (u_username <$> users) -> users !! i = Some u -> u_username u = n ->
  update_first (has_username n) f users = <[i := f u]> users.
Proof.
  revert i. induction users as [|x rest IH]; intros i Hnd Hi Hn; [done|].
  rewrite fmap_cons in Hnd. apply NoDup_cons in Hnd as [Hx Hnd].
  destruct i as [|i]; simpl in Hi.
  - injection Hi as ->. simpl. unfold has_username.
    by rewrite bool_decide_eq_true_2.
  - simpl. unfold has_username at 1. rewrite bool_decide_eq_false_2.
    + f_equal. by apply IH.
    + intros Hxn. apply Hx. rewrite Hxn, <- Hn.
      apply list_elem_of_fmap. exists u. split; [done|].
      by apply list_elem_of_lookup_2 in Hi.
Qed.

Lemma with_usage_rel store u :
  with_usage store u
  = set_usage (u_usageAccumBytes (with_usage store u)) (u_lastRawBytes (with_usage store u)) u.
Proof. unfold with_usage. destruct (store !! u_uuid u); by destruct u. Qed.

(** POST .../enable on a readable user store that lists the user. *)
Lemma enable_user_run n w us i u :
  users_file w = Some us -> us !! i = Some u -> u_username u = n ->
  enable_user n w
  = (Some R200,
     MkWorld (Some (update_first (has_username n) (set_enabled (Some true))
                      (with_usage (default ∅ (usage_file w)) <$> us)))
             (usage_file w)
             (Write USERS_FILE :: Read USAGE_FILE :: Read USERS_FILE :: io w)
             (_cachedEnriched w) (_cacheStamp w) (_isAggregating w)).
Proof.
  intros Hus Hi Hn. unfold enable_user, try_catch, bind at 1, readJson_USERS_FILE.
  rewrite Hus. destruct (find_has_username n us i u Hi Hn) as [x ->].
  unfold bind. by rewrite accumulateUsage_run.
Qed.


Lemma update_first_rel n f store (users : list user) :
  (forall x, mutation_rel x (f x)) ->
  (forall x y, mutation_rel x y -> mutation_rel x (f y)) ->
  Forall2 mutation_rel users
          (update_first (has_username n) f (with_usage store <$> users)).
Proof.
  intros Hf Hf'.
  assert (forall x, mutation_rel x (with_usage store x)) as Hw.
  { intros x. unfold mutation_rel, with_usage.
    destruct (store !! u_uuid x); by destruct x. }
  induction users as [|x rest IH]; [constructor|].
  rewrite fmap_cons. simpl. destruct (has_username n (with_usage store x)).
  - constructor; [by apply Hf'|].
    clear IH. induction rest as [|y rest IH]; [constructor|].
    rewrite fmap_cons. constructor; [apply Hw|apply IH].
  - constructor; [apply Hw|apply IH].
Qed.

(** ** C10: a manual re-enable under a standing quota breach *)

Section ReEnable.

Variable Date_parse : string -> option Z.


End ReEnable.


(** ** What the mutation endpoints leave alone *)

Ltac unfold_js :=
  unfold enable_user, disable_user, delete_user, reset_quota, accumulateUsage,
    try_catch, try_finally, bind, ret, when, modify,
    readJson_USERS_FILE, readJson_USAGE_FILE,
    writeJson_USERS_FILE, writeJson_USAGE_FILE, log, run in *.

(** Every endpoint leaves the flag and the snapshot alone; all but
    reset-quota leave the accumulator store alone. *)
Lemma enable_user_frame n w :
  usage_file (run (enable_user n) w) = usage_file w
  /\ _isAggregating (run (enable_user n) w) = _isAggregating w
  /\ _cachedEnriched (run (enable_user n) w) = _cachedEnriched w.
Proof.
  destruct w as [uf gf t ce cs fl]. unfold_js. cbn.
  destruct uf as [us|]; cbn; [|done].
  destruct (List.find _ us); cbn; [|done]. by destruct gf.
Qed.

Lemma disable_user_frame n w :
  usage_file (run (disable_user n) w) = usage_file w
  /\ _isAggregating (run (disable_user n) w) = _isAggregating w
  /\ _cachedEnriched (run (disable_user n) w) = _cachedEnriched w.
Proof.
  destruct w as [uf gf t ce cs fl]. unfold_js. cbn.
  destruct uf as [us|]; cbn; [|done].
  destruct (List.find _ us); cbn; [|done]. by destruct gf.
Qed.

Lemma delete_user_frame n w :
  usage_file (run (delete_user n) w) = usage_file w
  /\ _isAggregating (run (delete_user n) w) = _isAggregating w
  /\ _cachedEnriched (run (delete_user n) w) = _cachedEnriched w.
Proof.
  destruct w as [uf gf t ce cs fl]. unfold_js. cbn.
  destruct uf as [us|]; cbn; [|done].
  destruct (List.find _ us); cbn; [|done]. by destruct gf.
Qed.

Lemma reset_quota_frame n w :
  _isAggregating (run (reset_quota n) w) = _isAggregating w
  /\ _cachedEnriched (run (reset_quota n) w) = _cachedEnriched w.
Proof.
  destruct w as [uf gf t ce cs fl]. unfold_js. cbn.
  destruct uf as [us|]; cbn; [|done].
  destruct (List.find _ us) as [user|]; cbn; [|done].
  destruct gf as [st|]; cbn; [|done]. by destruct (st !! u_uuid user).
Qed.

(** Besides the trace and the user store, reset-quota changes at most the
    entry of the user it names. *)
Lemma reset_quota_usage n w key :
  stored_entry (run (reset_quota n) w) key = stored_entry w key
  \/ stored_entry (run (reset_quota n) w) key = Some (Entry 0 0).
Proof.
  destruct w as [uf gf t ce cs fl]. unfold stored_entry. unfold_js. cbn.
  destruct uf as [us|]; cbn; [|by left].
  destruct (List.find _ us) as [user|]; cbn; [|by left].
  destruct gf as [st|]; cbn in *; [|by left].
  destruct (st !! u_uuid user) eqn:Hu; cbn; [|by left].
  destruct (decide (u_uuid user = key)) as [->|Hne].
  - right. by rewrite lookup_insert_eq.
  - left. by rewrite lookup_insert_ne.
Qed.

Lemma run_mutation_flag m w :
  _isAggregating (run_mutation m w) = _isAggregating w
  /\ _cachedEnriched (run_mutation m w) = _cachedEnriched w.
Proof.
  destruct m; unfold run_mutation.
  - apply reset_quota_frame.
  - apply enable_user_frame.
  - apply disable_user_frame.
  - apply delete_user_frame.
Qed.

(** ** C7 and the in-flight flag *)
Section InFlight.

Variable Date_parse : string -> option Z.

(** A call of [aggregate] while the flag is set returns at once and leaves
    the world as it is, trace included. *)
Lemma aggregate_dropped obs now w :
  _isAggregating w = true ->
  aggregate_begin w = (Some None, w)
  /\ aggregate Date_parse obs now w = (Some tt, w).
Proof.
  intros Hfl. unfold aggregate, bind, aggregate_begin. by rewrite Hfl.
Qed.

Lemma aggregate_resume_flag obs now c w :
  _isAggregating (run (aggregate_resume Date_parse obs now c) w) = false.
Proof.
  unfold run, aggregate_resume, try_finally.
  by destruct (try_catch _ _ w).
Qed.

(** The flag is set exactly while one call is suspended. *)
Lemma reachable_flag s :
  reachable Date_parse s ->
  length (sys_suspended s) = if _isAggregating (sys_world s) then 1%nat else 0%nat.
Proof.
  induction 1 as [users usage|e s Hs IH]; [done|].
  destruct s as [w susp]. cbn [sys_world sys_suspended] in IH.
  destruct e as [|k obs now|m]; cbn [handle].
  - unfold request_cycle. cbn [sys_world sys_suspended].
    destruct (_isAggregating w) eqn:Hfl.
    + destruct (aggregate_dropped (fun _ => QueryFailed) 0 w Hfl) as [-> _].
      cbn [sys_world sys_suspended]. by rewrite Hfl.
    + destruct (users_file w) as [us|] eqn:Hus.
      * rewrite (aggregate_begin_run w us Hus Hfl). cbn. by rewrite IH.
      * rewrite (aggregate_begin_fail w Hus Hfl). cbn. by rewrite Hfl.
  - unfold resume_cycle. cbn [sys_world sys_suspended].
    destruct (susp !! k) as [c|] eqn:Hk; cbn [sys_world sys_suspended]; [|done].
    rewrite aggregate_resume_flag.
    apply lookup_lt_Some in Hk. rewrite length_delete by (by apply lookup_lt_is_Some_2).
    destruct (_isAggregating w); simpl in *; lia.
  - cbn [sys_world sys_suspended].
    by destruct (run_mutation_flag m w) as [-> _].
Qed.

(** C7. In every state the process can reach, at most one cycle is
    suspended, and while the in-flight flag is set a further call of
    [aggregate] is a no-op: it returns at once, the stores, the trace of
    reads and writes and the cached snapshot are what they were, and no
    call is queued. *)
Theorem in_flight_request_dropped s obs now :
  reachable Date_parse s ->
  (length (sys_suspended s) <= 1)%nat
  /\ (_isAggregating (sys_world s) = true ->
      length (sys_suspended s) = 1%nat
      /\ aggregate_begin (sys_world s) = (Some None, sys_world s)
      /\ aggregate Date_parse obs now (sys_world s) = (Some tt, sys_world s)
      /\ request_cycle s = s).
Proof.
  intros Hs. pose proof (reachable_flag s Hs) as Hlen.
  split; [destruct (_isAggregating (sys_world s)); lia|].
  intros Hfl. rewrite Hfl in Hlen.
  destruct (aggregate_dropped obs now (sys_world s) Hfl) as [Hb Ha].
  repeat (split; [done|]).
  unfold request_cycle. rewrite Hb. by destruct s.
Qed.

End InFlight.

Lemma in_flight_request_dropped_witness :
  let s := handle no_dates EvAggregate
             (MkSystem (boot (Some [alice]) (Some ∅)) []) in
  (length (sys_suspended s) <= 1)%nat
  /\ (_isAggregating (sys_world s) = true ->
      length (sys_suspended s) = 1%nat
      /\ aggregate_begin (sys_world s) = (Some None, sys_world s)
      /\ aggregate no_dates (fun _ => traffic "alice" 1 2) 10 (sys_world s)
         = (Some tt, sys_world s)
      /\ request_cycle s = s).
Proof.
  apply (in_flight_request_dropped no_dates
           (handle no_dates EvAggregate (MkSystem (boot (Some [alice]) (Some ∅)) []))
           (fun _ => traffic "alice" 1 2) 10).
  apply reachable_step. apply reachable_init.
Defined.

(** ** C4: accumBytes only goes down on reset-quota *)

Section Monotone.

Variable Date_parse : string -> option Z.

(** An uninterrupted cycle keeps every stored entry and never lowers the
    accumulated usage of a key. *)
Lemma aggregate_mono obs now w key :
  (forall j, outcome_nonneg (obs j)) ->
  let w' := run (aggregate Date_parse obs now) w in
  (is_Some (stored_entry w key) -> is_Some (stored_entry w' key))
  /\ accum_of (stored_entry w key) <= accum_of (stored_entry w' key).
Proof.
  intros Hobs w'. subst w'. unfold run.
  destruct (_isAggregating w) eqn:Hfl.
  { destruct (aggregate_dropped Date_parse obs now w Hfl) as [_ ->].
    split; [done|]. cbn [snd]. lia. }
  destruct (users_file w) as [us|] eqn:Hus.
  - rewrite (aggregate_run Date_parse obs now w us Hus Hfl). cbn [snd].
    rewrite cycle_stored_entry_worker, <- stored_entry_default. unfold cycle_worker.
    by apply worker_mono.
  - rewrite (aggregate_fail Date_parse obs now w Hus Hfl). cbn [snd].
    split; [done|]. unfold stored_entry. cbn [usage_file log]. lia.
Qed.

(** The accumulator store after reset-quota: the entry of the named user's
    uuid, when the user is stored and has one, is [{0, 0}]; every other key
    is as it was. *)
Lemma reset_quota_entry n w key :
  stored_entry (run (reset_quota n) w) key
  = match users_file w ≫= List.find (has_username n), stored_entry w key with
    | Some user, Some e =>
        if decide (u_uuid user = key) then Some (Entry 0 0) else Some e
    | _, _ => stored_entry w key
    end.
Proof.
  destruct w as [uf gf t ce cs fl]. unfold stored_entry. unfold_js. cbn.
  destruct uf as [us|]; cbn; [|by destruct (gf ≫= _)].
  destruct (List.find _ us) as [user|]; cbn; [|by destruct (gf ≫= _)].
  destruct gf as [st|]; cbn in *; [|done].
  destruct (st !! u_uuid user) as [e0|] eqn:Hu; cbn.
  - destruct (decide (u_uuid user = key)) as [<-|Hne].
    + by rewrite lookup_insert_eq, Hu.
    + rewrite lookup_insert_ne by done. by destruct (st !! key).
  - destruct (st !! key) as [e|] eqn:Hk; [|done].
    destruct (decide (u_uuid user = key)) as [<-|Hne]; [congruence|done].
Qed.

(** C4. Under an aggregation cycle the accumulated usage of a key (zero
    while it has no entry) never goes down, whichever branch is taken: first
    sight, delta or reset; an entry once stored stays stored.  Enable,
    disable and delete leave every entry as it is.  Only reset-quota lowers
    [accumBytes]: it sets the entry of the named user's uuid, when the user
    is stored and has an entry, to [{accumBytes: 0, lastRawBytes: 0}] and
    leaves every other key as it was. *)
Theorem accumBytes_never_decreases o w key :
  match o with
  | OpAggregate obs _ => forall j, outcome_nonneg (obs j)
  | OpMutation _ => True
  end ->
  let w' := run_operation Date_parse o w in
  (is_Some (stored_entry w key) -> is_Some (stored_entry w' key))
  /\ match o with
     | OpAggregate _ _ =>
         accum_of (stored_entry w key) <= accum_of (stored_entry w' key)
     | OpMutation (ResetQuota n) =>
         stored_entry w' key
         = match users_file w ≫= List.find (has_username n), stored_entry w key with
           | Some user, Some e =>
               if decide (u_uuid user = key) then Some (Entry 0 0) else Some e
           | _, _ => stored_entry w key
           end
     | OpMutation _ => stored_entry w' key = stored_entry w key
     end.
Proof.
  intros Hobs w'. subst w'.
  destruct o as [obs now|[n|n|n|n]]; cbn [run_operation run_mutation].
  - by apply aggregate_mono.
  - split; [|apply reset_quota_entry].
    destruct (reset_quota_usage n w key) as [H|H]; rewrite H; auto.
  - unfold stored_entry. by destruct (enable_user_frame n w) as [-> _].
  - unfold stored_entry. by destruct (disable_user_frame n w) as [-> _].
  - unfold stored_entry. by destruct (delete_user_frame n w) as [-> _].
Qed.

End Monotone.

Lemma accumBytes_never_decreases_witness :
  let w := boot (Some [alice; bob])
                (Some {[ "uuid-a" := Entry 900 700; "uuid-b" := Entry 50 50 ]}) in
  let w1 := run_operation no_dates (OpAggregate (fun _ => traffic "alice" 60 40) 10) w in
  let w2 := run_operation no_dates (OpMutation (ResetQuota "alice")) w in
  accum_of (stored_entry w "uuid-a") <= accum_of (stored_entry w1 "uuid-a")
  /\ stored_entry w "uuid-a" = Some (Entry 900 700)
  /\ stored_entry w2 "uuid-a" = Some (Entry 0 0)
  /\ stored_entry w2 "uuid-b" = Some (Entry 50 50).
Proof.
  split; [|split; [reflexivity|split]].
  - apply (accumBytes_never_decreases no_dates
             (OpAggregate (fun _ => traffic "alice" 60 40) 10)
             (boot (Some [alice; bob])
                   (Some {[ "uuid-a" := Entry 900 700; "uuid-b" := Entry 50 50 ]}))
             "uuid-a").
    intros j. unfold outcome_nonneg, traffic.
    repeat (constructor; [intros v [= <-]; lia|]). constructor.
  - exact (proj2 (accumBytes_never_decreases no_dates (OpMutation (ResetQuota "alice"))
                    (boot (Some [alice; bob])
                          (Some {[ "uuid-a" := Entry 900 700; "uuid-b" := Entry 50 50 ]}))
                    "uuid-a" I)).
  - exact (proj2 (accumBytes_never_decreases no_dates (OpMutation (ResetQuota "alice"))
                    (boot (Some [alice; bob])
                          (Some {[ "uuid-a" := Entry 900 700; "uuid-b" := Entry 50 50 ]}))
                    "uuid-b" I)).
Defined.

(** ** C8: idle cycles *)

Section Idle.

Variable Date_parse : string -> option Z.

(** C8. If every user's key has an entry and every reading equals the
    stored [lastRawBytes], the cycle does not write the accumulator store
    and leaves its content as it is. *)
Theorem idle_cycle_writes_nothing obs now w us :
  users_file w = Some us -> _isAggregating w = false ->
  (forall i u, us !! i = Some u ->
     exists e, stored_entry w (u_uuid u) = Some e
               /\ query_rawBytes (statKey_of u) (obs i) = lastRawBytes e) ->
  let w' := run (aggregate Date_parse obs now) w in
  usage_file w' = usage_file w
  /\ nwrites USAGE_FILE (io w') = nwrites USAGE_FILE (io w)
  /\ (forall key, stored_entry w' key = stored_entry w key).
Proof.
  intros Hus Hfl Hall w'. subst w'. unfold run.
  rewrite (aggregate_run Date_parse obs now w us Hus Hfl). cbn [snd].
  assert ((cycle_worker obs w us).2 = false) as Hch.
  { unfold cycle_worker. apply worker_idle. intros j u0 Hj.
    pose proof (normalize_loop_rel (maxId_of us) false us) as Hrel.
    fold (normalized us) in Hrel.
    destruct (Forall2_lookup_r _ _ _ _ _ Hrel Hj) as (u & Hu & Hr).
    destruct (Hall j u Hu) as (e & He & Hraw). exists e.
    assert (u_uuid u0 = u_uuid u) as -> by (destruct Hr as [Hr _]; by rewrite Hr).
    assert (statKey_of u0 = statKey_of u) as -> by (by destruct Hr as [_ ->]).
    by rewrite stored_entry_default. }
  assert (usage_file (cycle_world Date_parse obs now w us) = usage_file w) as Hfile.
  { unfold cycle_world. cbn [usage_file]. by rewrite Hch. }
  split; [done|]. split.
  - unfold cycle_world, cycle_trace. cbn [io]. rewrite Hch.
    unfold nwrites. rewrite !List.filter_app, !length_app.
    destruct (cycle_flags Date_parse obs now w us).2,
             (needPersist_of (normalized us)), (needPersist_of us); done.
  - intros key. unfold stored_entry. by rewrite Hfile.
Qed.

End Idle.

Lemma idle_cycle_writes_nothing_witness :
  let w := boot (Some [alice]) (Some {[ "uuid-a" := Entry 900 700 ]}) in
  let w' := run (aggregate no_dates (fun _ => traffic "alice" 400 300) 10) w in
  usage_file w' = usage_file w
  /\ nwrites USAGE_FILE (io w') = nwrites USAGE_FILE (io w)
  /\ (forall key, stored_entry w' key = stored_entry w key).
Proof.
  apply (idle_cycle_writes_nothing no_dates (fun _ => traffic "alice" 400 300) 10
           (boot (Some [alice]) (Some {[ "uuid-a" := Entry 900 700 ]})) [alice]).
  - reflexivity.
  - reflexivity.
  - intros [|[|i]] u [= <-]. exists (Entry 900 700). split; reflexivity.
Defined.

(** ** C5: unreadable stores *)

Section Unreadable.

Variable Date_parse : string -> option Z.

(** C5 (amended). When the user store cannot be read or parsed the cycle
    aborts as a whole: no accumulator entry is touched, neither store is
    written, the cached snapshot and its stamp stay, the flag is cleared.
    When only the accumulator store cannot be read the cycle does not
    abort: it runs as over an empty accumulator store. *)
Theorem unreadable_store_handling obs now w :
  _isAggregating w = false ->
  let w' := run (aggregate Date_parse obs now) w in
  (users_file w = None ->
     users_file w' = None
     /\ usage_file w' = usage_file w
     /\ nwrites USERS_FILE (io w') = nwrites USERS_FILE (io w)
     /\ nwrites USAGE_FILE (io w') = nwrites USAGE_FILE (io w)
     /\ _cachedEnriched w' = _cachedEnriched w
     /\ _cacheStamp w' = _cacheStamp w
     /\ _isAggregating w' = false)
  /\ (usage_file w = None ->
      let w0 := run (aggregate Date_parse obs now) (with_empty_usage w) in
      users_file w' = users_file w0
      /\ (forall key, stored_entry w' key = stored_entry w0 key)
      /\ _cachedEnriched w' = _cachedEnriched w0
      /\ _cacheStamp w' = _cacheStamp w0
      /\ _isAggregating w' = false).
Proof.
  intros Hfl w'. subst w'. unfold run. split.
  - intros Hus. rewrite (aggregate_fail Date_parse obs now w Hus Hfl). cbn [snd].
    unfold log. cbn. by rewrite Hus, Hfl.
  - intros Hst. cbv zeta.
    destruct (users_file w) as [us|] eqn:Hus.
    + rewrite (aggregate_run Date_parse obs now w us Hus Hfl).
      rewrite (aggregate_run Date_parse obs now (with_empty_usage w) us) by done.
      cbn [snd].
      assert (cycle_worker obs (with_empty_usage w) us = cycle_worker obs w us) as Hw.
      { unfold cycle_worker. cbn [with_empty_usage usage_file]. by rewrite Hst. }
      assert (cycle_snapshot Date_parse obs now (with_empty_usage w) us
              = cycle_snapshot Date_parse obs now w us) as Hs.
      { unfold cycle_snapshot. by rewrite Hw. }
      assert (cycle_flags Date_parse obs now (with_empty_usage w) us
              = cycle_flags Date_parse obs now w us) as Hf.
      { unfold cycle_flags, cycle_byId. by rewrite Hs. }
      split; [unfold cycle_world; cbn [users_file]; by rewrite Hf|].
      split; [intros key; by rewrite !cycle_stored_entry_worker, Hw|].
      split; [unfold cycle_world; cbn [_cachedEnriched]; by rewrite Hs|].
      done.
    + rewrite (aggregate_fail Date_parse obs now w Hus Hfl).
      rewrite (aggregate_fail Date_parse obs now (with_empty_usage w)) by done.
      cbn [snd]. unfold stored_entry, log, with_empty_usage. cbn.
      rewrite Hst, Hfl. done.
Qed.

End Unreadable.

Lemma unreadable_store_handling_witness :
  let w := boot None None in
  let w' := run (aggregate no_dates (fun _ => traffic "alice" 60 40) 10) w in
  (users_file w = None ->
     users_file w' = None
     /\ usage_file w' = usage_file w
     /\ nwrites USERS_FILE (io w') = nwrites USERS_FILE (io w)
     /\ nwrites USAGE_FILE (io w') = nwrites USAGE_FILE (io w)
     /\ _cachedEnriched w' = _cachedEnriched w
     /\ _cacheStamp w' = _cacheStamp w
     /\ _isAggregating w' = false)
  /\ (usage_file w = None ->
      let w0 := run (aggregate no_dates (fun _ => traffic "alice" 60 40) 10)
                    (with_empty_usage w) in
      users_file w' = users_file w0
      /\ (forall key, stored_entry w' key = stored_entry w0 key)
      /\ _cachedEnriched w' = _cachedEnriched w0
      /\ _cacheStamp w' = _cacheStamp w0
      /\ _isAggregating w' = false).
Proof.
  apply (unreadable_store_handling no_dates (fun _ => traffic "alice" 60 40) 10
           (boot None None)).
  reflexivity.
Defined.

(** C5 as stated fails for the accumulator store: with usage-store.json
    unreadable the cycle goes on, writes a new accumulator store and
    replaces the snapshot. *)
Lemma unreadable_usage_counterexample :
  let w := boot (Some [alice]) None in
  let w' := run (aggregate no_dates (fun _ => traffic "alice" 60 40) 10) w in
  usage_file w = None
  /\ nwrites USAGE_FILE (io w) = 0%nat
  /\ nwrites USAGE_FILE (io w') = 1%nat
  /\ stored_entry w' "uuid-a" = Some (Entry 100 100)
  /\ length (_cachedEnriched w) = 0%nat
  /\ length (_cachedEnriched w') = 1%nat.
Proof. vm_compute. repeat split. Qed.

(** ** C9: the write-back to the user store *)

Section WriteBack.

Variable Date_parse : string -> option Z.

(** C9 (amended). Over a user store whose records all carry an id and a
    [statKey], a cycle changes at most the [enabled] field of the records:
    no record is added or removed, every other stored field keeps its
    value, and the user store is written only when the flag of some record
    changed (and then once). *)
Theorem write_back_changes_enabled_only obs now w us :
  users_file w = Some us -> _isAggregating w = false ->
  Forall (fun u => is_Some (u_id u) /\ u_statKey u <> EmptyString) us ->
  let w' := run (aggregate Date_parse obs now) w in
  exists us',
    users_file w' = Some us'
    /\ Forall2 (fun u u' => u' = set_enabled (u_enabled u') u) us us'
    /\ (nwrites USERS_FILE (io w') <> nwrites USERS_FILE (io w) ->
        nwrites USERS_FILE (io w') = S (nwrites USERS_FILE (io w))
        /\ exists i u u', us !! i = Some u /\ us' !! i = Some u'
                          /\ u_enabled u' <> u_enabled u).
Proof.
  intros Hus Hfl Hall w'. subst w'. unfold run.
  rewrite (aggregate_run Date_parse obs now w us Hus Hfl). cbn [snd].
  assert (normalized us = us) as Hn.
  { unfold normalized. by rewrite normalize_loop_complete. }
  assert (needPersist_of us = false) as Hp.
  { unfold needPersist_of. by rewrite normalize_loop_complete. }
  unfold cycle_world, cycle_trace. cbn [users_file io].
  unfold cycle_flags. rewrite flags_loop_fst, flags_loop_snd, !Hn, Hp.
  set (byId := cycle_byId Date_parse obs now w us).
  exists (flag_of byId <$> us). split; [done|]. split.
  { apply Forall2_fmap_r, Forall_Forall2_diag, Forall_forall.
    intros u _. apply flag_of_rel. }
  cbn [orb]. unfold nwrites. rewrite !List.filter_app, !length_app.
  destruct (existsb _ us) eqn:Hex.
  - intros _. split.
    { destruct (cycle_worker obs w us).2; cbn; lia. }
    apply existsb_exists in Hex as (u & Hin & Hu).
    apply bool_decide_eq_true in Hu.
    apply list_elem_of_In, list_elem_of_lookup in Hin as [i Hi].
    exists i, u, (flag_of byId u). by rewrite list_lookup_fmap, Hi.
  - intros Hne. destruct Hne.
    destruct (cycle_worker obs w us).2; cbn; lia.
Qed.

End WriteBack.

Lemma write_back_changes_enabled_only_witness :
  let w := boot (Some [alice; bob]) (Some {[ "uuid-b" := Entry 1073741000 500 ]}) in
  let w' := run (aggregate no_dates (fun _ => traffic "bob" 900 424) 10) w in
  exists us',
    users_file w' = Some us'
    /\ Forall2 (fun u u' => u' = set_enabled (u_enabled u') u) [alice; bob] us'
    /\ (nwrites USERS_FILE (io w') <> nwrites USERS_FILE (io w) ->
        nwrites USERS_FILE (io w') = S (nwrites USERS_FILE (io w))
        /\ exists i u u', [alice; bob] !! i = Some u /\ us' !! i = Some u'
                          /\ u_enabled u' <> u_enabled u).
Proof.
  apply (write_back_changes_enabled_only no_dates (fun _ => traffic "bob" 900 424) 10
           (boot (Some [alice; bob]) (Some {[ "uuid-b" := Entry 1073741000 500 ]}))
           [alice; bob]).
  - reflexivity.
  - reflexivity.
  - repeat (constructor; [split; [by eexists|discriminate]|]). constructor.
Defined.

(** C9 as stated fails on a record without id and [statKey]: the cycle
    stores an id and a [statKey] for it and writes the user store although
    no [enabled] flag changed. *)
Lemma write_back_counterexample :
  let w := boot (Some [carol]) (Some ∅) in
  let w' := run (aggregate no_dates (fun _ => QueryFailed) 10) w in
  users_file w' = Some [set_statKey "carol" (set_id (Some 1) carol)]
  /\ u_statKey (set_statKey "carol" (set_id (Some 1) carol)) <> u_statKey carol
  /\ u_enabled (set_statKey "carol" (set_id (Some 1) carol)) = u_enabled carol
  /\ nwrites USERS_FILE (io w) = 0%nat
  /\ nwrites USERS_FILE (io w') = 1%nat.
Proof. vm_compute. repeat split. discriminate. Qed.

(** ** C6: a failing stats query *)

Section FaultIsolation.

Variable Date_parse : string -> option Z.

(** The snapshot row of the user at position [i] carries the reconciled
    [accumBytes]. *)
Lemma cycle_snapshot_row obs now w us i u :
  NoDup (u_uuid <$> us) -> us !! i = Some u ->
  exists row,
    cycle_snapshot Date_parse obs now w us !! i = Some row
    /\ u_uuid (e_user row) = u_uuid u
    /\ u_usageAccumBytes (e_user row)
       = Some (accumBytes (reconcile_entry (query_rawBytes (statKey_of u) (obs i))
                                           (stored_entry w (u_uuid u)))).
Proof.
  intros Hnd Hi.
  destruct (cycle_at obs w us i u Hnd Hi) as (u0 & _ & Hrel & Hrow & _).
  eexists. unfold cycle_snapshot. rewrite list_lookup_fmap, Hrow.
  split; [done|]. rewrite enrich_user. cbn.
  split; [|done]. destruct Hrel as [Hrel _]. by rewrite Hrel.
Qed.

(** C6. When the stats query of one user fails or times out, that user is
    reconciled with [rawBytes = 0], which adds nothing to the accumulated
    usage; every other user is reconciled with the reading of its own
    query, which for an answer listing that user's counters is the sum of
    their values; the cycle completes, clears the flag and publishes a
    snapshot with one row per user, each carrying the reconciled usage. *)
Theorem query_failure_isolated obs now w us i u :
  users_file w = Some us -> _isAggregating w = false ->
  NoDup (u_uuid <$> us) -> us !! i = Some u ->
  obs i = QueryFailed ->
  (forall e, stored_entry w (u_uuid u) = Some e -> 0 <= lastRawBytes e) ->
  let w' := run (aggregate Date_parse obs now) w in
  stored_entry w' (u_uuid u) = Some (reconcile_entry 0 (stored_entry w (u_uuid u)))
  /\ accum_of (stored_entry w' (u_uuid u)) = accum_of (stored_entry w (u_uuid u))
  /\ (forall j v, j <> i -> us !! j = Some v ->
        stored_entry w' (u_uuid v)
        = Some (reconcile_entry (query_rawBytes (statKey_of v) (obs j))
                                (stored_entry w (u_uuid v))))
  /\ (forall j v stats, j <> i -> us !! j = Some v -> obs j = QueryStats stats ->
        Forall (fun s => String.prefix ("user>>>" ++ statKey_of v ++ ">>>traffic>>>")
                                       (s_name s) = true) stats ->
        stored_entry w' (u_uuid v)
        = Some (reconcile_entry (foldr Z.add 0 (omap s_value stats))
                                (stored_entry w (u_uuid v))))
  /\ _isAggregating w' = false
  /\ _cacheStamp w' = now
  /\ length (_cachedEnriched w') = length us
  /\ (forall j v, us !! j = Some v ->
        exists row, _cachedEnriched w' !! j = Some row
          /\ u_uuid (e_user row) = u_uuid v
          /\ u_usageAccumBytes (e_user row) = Some (accum_of (stored_entry w' (u_uuid v)))).
Proof.
  intros Hus Hfl Hnd Hi Hfail Hlast w'. subst w'.
  pose proof (fun j v => cycle_entry Date_parse obs now w us j v Hus Hfl Hnd) as Hentry.
  split; [|split; [|split; [|split]]].
  - rewrite (Hentry i u Hi), Hfail. done.
  - rewrite (Hentry i u Hi), Hfail. cbn [query_rawBytes].
    destruct (stored_entry w (u_uuid u)) as [e|] eqn:He; [|done].
    specialize (Hlast e eq_refl). unfold reconcile_entry, accum_of.
    destruct (Z.geb_spec 0 (lastRawBytes e)); cbn; lia.
  - intros j v _ Hj. by apply Hentry.
  - intros j v stats _ Hj Hobs Hown.
    rewrite (Hentry j v Hj), Hobs. cbn [query_rawBytes]. by rewrite sum_stats_own.
  - assert (run (aggregate Date_parse obs now) w = cycle_world Date_parse obs now w us)
      as Hrun by (unfold run; by rewrite (aggregate_run Date_parse obs now w us Hus Hfl)).
    assert (_cachedEnriched (run (aggregate Date_parse obs now) w)
            = cycle_snapshot Date_parse obs now w us) as Hsnap by (by rewrite Hrun).
    rewrite Hsnap.
    split; [by rewrite Hrun|]. split; [by rewrite Hrun|]. split.
    + unfold cycle_snapshot. rewrite length_map.
      pose proof (worker_users obs 0 (normalized us) (default ∅ (usage_file w)) false) as Hl.
      apply Forall2_length in Hl. unfold cycle_worker. rewrite <- Hl.
      pose proof (normalize_loop_rel (maxId_of us) false us) as Hl'.
      apply Forall2_length in Hl'. by rewrite Hl'.
    + intros j v Hj.
      destruct (cycle_snapshot_row obs now w us j v Hnd Hj) as (row & Hrow & Hk & Hu).
      exists row. split; [done|]. split; [done|].
      rewrite Hu. by rewrite (Hentry j v Hj).
Qed.

End FaultIsolation.

Lemma query_failure_isolated_witness :
  let us := [alice; bob] in
  let obs := fun j : nat => match j with 0%nat => QueryFailed | _ => traffic "bob" 300 200 end in
  let w := boot (Some us) (Some {[ "uuid-a" := Entry 900 700; "uuid-b" := Entry 50 50 ]}) in
  let w' := run (aggregate no_dates obs 10) w in
  stored_entry w' "uuid-a" = Some (Entry 900 0)
  /\ accum_of (stored_entry w' "uuid-a") = accum_of (stored_entry w "uuid-a")
  /\ stored_entry w' "uuid-b" = Some (Entry 500 500)
  /\ _isAggregating w' = false
  /\ _cacheStamp w' = 10
  /\ length (_cachedEnriched w') = 2%nat
  /\ (exists row, _cachedEnriched w' !! 0%nat = Some row
                  /\ u_uuid (e_user row) = "uuid-a"
                  /\ u_usageAccumBytes (e_user row) = Some 900)
  /\ (exists row, _cachedEnriched w' !! 1%nat = Some row
                  /\ u_uuid (e_user row) = "uuid-b"
                  /\ u_usageAccumBytes (e_user row) = Some 500).
Proof.
  assert (Hnd : NoDup (u_uuid <$> [alice; bob])).
  { apply (bool_decide_unpack _). vm_compute. exact I. }
  assert (Hlast : forall e,
            stored_entry (boot (Some [alice; bob])
                            (Some {[ "uuid-a" := Entry 900 700; "uuid-b" := Entry 50 50 ]}))
                         (u_uuid alice) = Some e -> 0 <= lastRawBytes e).
  { intros e. vm_compute. intros [= <-]. discriminate. }
  destruct (query_failure_isolated no_dates
              (fun j : nat => match j with 0%nat => QueryFailed | _ => traffic "bob" 300 200 end)
              10
              (boot (Some [alice; bob])
                    (Some {[ "uuid-a" := Entry 900 700; "uuid-b" := Entry 50 50 ]}))
              [alice; bob] 0 alice eq_refl eq_refl Hnd eq_refl eq_refl Hlast)
    as (Ha & Hsame & _ & Hb & Hfl & Hstamp & Hlen & Hrows).
  cbv zeta.
  split; [exact Ha|]. split; [exact Hsame|].
  split.
  { apply (Hb 1%nat bob _ (fun H : 1%nat = 0%nat => O_S _ (eq_sym H)) eq_refl eq_refl).
    repeat constructor. }
  split; [exact Hfl|]. split; [exact Hstamp|]. split; [exact Hlen|].
  split.
  - exact (Hrows 0%nat alice eq_refl).
  - exact (Hrows 1%nat bob eq_refl).
Defined.

(** ** Writes happen only on change *)

Lemma worker_changed obs i users store changed :
  NoDup (u_uuid <$> users) ->
  (worker obs i users store changed).2 = true ->
  changed = true
  \/ exists key, (worker obs i users store changed).1.2 !! key <> store !! key.
Proof.
  revert i store changed.
  induction users as [|u rest IH]; intros i store changed Hnd; simpl.
  - by left.
  - rewrite reconcile_spec. set (e1 := reconcile_entry _ _).
    rewrite fmap_cons in Hnd. apply NoDup_cons in Hnd as [Hu Hnd].
    specialize (IH (S i) (<[u_uuid u := e1]> store)
      (if decide (store !! u_uuid u = Some e1) then changed else true) Hnd).
    pose proof (worker_store_frame obs (S i) rest (<[u_uuid u := e1]> store)
      (if decide (store !! u_uuid u = Some e1) then changed else true) _ Hu) as Hfr.
    destruct (worker obs (S i) rest _ _) as [[us st] ch]. simpl in *.
    intros Hch. destruct (decide (store !! u_uuid u = Some e1)) as [Heq|Hne].
    + rewrite (insert_id store _ _ Heq) in IH. by apply IH.
    + right. exists (u_uuid u). rewrite Hfr, lookup_insert_eq. congruence.
Qed.

Section WrittenOnChange.

Variable Date_parse : string -> option Z.

(** With distinct uuids, a cycle that writes the accumulator store has
    changed the entry of some key. *)
Lemma usage_written_only_on_change obs now w us :
  users_file w = Some us -> _isAggregating w = false ->
  NoDup (u_uuid <$> us) ->
  let w' := run (aggregate Date_parse obs now) w in
  nwrites USAGE_FILE (io w') <> nwrites USAGE_FILE (io w) ->
  exists key, stored_entry w' key <> stored_entry w key.
Proof.
  intros Hus Hfl Hnd w'. subst w'. unfold run.
  rewrite (aggregate_run Date_parse obs now w us Hus Hfl). cbn [snd].
  intros Hw.
  assert ((cycle_worker obs w us).2 = true) as Hch.
  { destruct (cycle_worker obs w us).2 eqn:Hch; [done|]. destruct Hw.
    unfold cycle_world, cycle_trace. cbn [io]. rewrite Hch.
    unfold nwrites. rewrite !List.filter_app, !length_app.
    destruct (cycle_flags Date_parse obs now w us).2,
             (needPersist_of (normalized us)), (needPersist_of us); done. }
  unfold cycle_worker in Hch.
  apply worker_changed in Hch as [?|[key Hkey]]; [done| |by rewrite normalized_uuid].
  exists key. by rewrite cycle_stored_entry_worker, <- stored_entry_default.
Qed.

(** On any readable user store the cycle's write-back is the migration of
    [baseLoadUsers] followed by a change of [enabled] flags. *)
Lemma write_back_general obs now w us :
  users_file w = Some us -> _isAggregating w = false ->
  exists us',
    users_file (run (aggregate Date_parse obs now) w) = Some us'
    /\ Forall2 (fun u u' => exists u0, normalize_rel u u0
                                       /\ u' = set_enabled (u_enabled u') u0) us us'.
Proof.
  intros Hus Hfl. unfold run.
  rewrite (aggregate_run Date_parse obs now w us Hus Hfl). cbn [snd].
  unfold cycle_world. cbn [users_file]. unfold cycle_flags. rewrite flags_loop_fst.
  eexists. split; [done|].
  apply Forall2_fmap_r.
  eapply Forall2_impl; [apply (normalize_loop_rel (maxId_of us) false us)|].
  intros u u0 Hrel. exists u0. split; [done|]. apply flag_of_rel.
Qed.

End WrittenOnChange.

(** ** Further checks *)

Section StoreInvariant.

Variable Date_parse : string -> option Z.

(** Stored [lastRawBytes] values are readings, hence never negative: the
    property is kept by every operation. *)
Lemma lastRawBytes_nonneg_kept o w :
  match o with
  | OpAggregate obs _ => forall j, outcome_nonneg (obs j)
  | OpMutation _ => True
  end ->
  (forall key e, stored_entry w key = Some e -> 0 <= lastRawBytes e) ->
  forall key e, stored_entry (run_operation Date_parse o w) key = Some e ->
                0 <= lastRawBytes e.
Proof.
  intros Hobs Hinv key e.
  destruct o as [obs now|[n|n|n|n]]; cbn [run_operation run_mutation].
  - unfold run. destruct (_isAggregating w) eqn:Hfl.
    { destruct (aggregate_dropped Date_parse obs now w Hfl) as [_ ->]. apply Hinv. }
    destruct (users_file w) as [us|] eqn:Hus.
    + rewrite (aggregate_run Date_parse obs now w us Hus Hfl). cbn [snd].
      rewrite cycle_stored_entry_worker. unfold cycle_worker.
      assert (forall k e0, default ∅ (usage_file w) !! k = Some e0 -> 0 <= lastRawBytes e0)
        as Hinv' by (intros k e0; rewrite stored_entry_default; apply Hinv).
      revert Hinv'. generalize (default ∅ (usage_file w)) as st.
      generalize false as ch. generalize 0%nat as i.
      induction (normalized us) as [|u rest IH]; intros i ch st Hst; simpl.
      * apply Hst.
      * rewrite reconcile_spec. set (e1 := reconcile_entry _ _).
        specialize (IH (S i) (if decide (st !! u_uuid u = Some e1) then ch else true)
                       (<[u_uuid u := e1]> st)).
        destruct (worker obs (S i) rest _ _) as [[us' st'] ch']. simpl in *.
        apply IH. intros k e0. destruct (decide (u_uuid u = k)) as [<-|Hne].
        -- rewrite lookup_insert_eq. intros [= <-]. unfold e1.
           rewrite reconcile_entry_last. by apply query_rawBytes_nonneg.
        -- rewrite lookup_insert_ne by done. apply Hst.
    + rewrite (aggregate_fail Date_parse obs now w Hus Hfl). cbn [snd]. apply Hinv.
  - destruct (reset_quota_usage n w key) as [-> | ->]; [apply Hinv|].
    by intros [= <-].
  - unfold stored_entry. destruct (enable_user_frame n w) as [-> _]. apply Hinv.
  - unfold stored_entry. destruct (disable_user_frame n w) as [-> _]. apply Hinv.
  - unfold stored_entry. destruct (delete_user_frame n w) as [-> _]. apply Hinv.
Qed.

End StoreInvariant.

(** The readings 500, 700, 100 (counter reset), 250 of one user give the
    [accumBytes] progression 500, 700, 800, 950. *)
Example reset_handling_progression :
  let w := boot (Some [alice]) (Some ∅) in
  let c r : (nat -> query_outcome) * Z := (fun _ => traffic "alice" r 0, 10) in
  accum_of (stored_entry (run_cycles no_dates [c 500] w) "uuid-a") = 500
  /\ accum_of (stored_entry (run_cycles no_dates [c 500; c 700] w) "uuid-a") = 700
  /\ accum_of (stored_entry (run_cycles no_dates [c 500; c 700; c 100] w) "uuid-a") = 800
  /\ accum_of (stored_entry (run_cycles no_dates [c 500; c 700; c 100; c 250] w) "uuid-a")
     = 950.
Proof. vm_compute. repeat split. Qed.

(** A user with a 1 GB quota whose usage crosses 2^30 bytes is disabled in
    that cycle and stays disabled in the next one. *)
Example quota_breach_disables :
  let w := boot (Some [bob]) (Some {[ "uuid-b" := Entry 1073741000 500 ]}) in
  let obs := fun _ : nat => traffic "bob" 900 424 in
  let w1 := run (aggregate no_dates obs 10) w in
  let w2 := run (aggregate no_dates obs 20) w1 in
  fmap (M := list) u_enabled <$> users_file w1 = Some [Some false]
  /\ fmap (M := list) u_enabled <$> users_file w2 = Some [Some false]
  /\ stored_entry w1 "uuid-b" = Some (Entry 1073741824 1324).
Proof. vm_compute. repeat split. Qed.

(** * Further properties of the code *)

(** ** The derived fields of a snapshot row *)

Lemma ceil_div_bounds a b :
  0 < b -> (ceil_div a b - 1) * b < a <= ceil_div a b * b.
Proof.
  intros Hb. unfold ceil_div.
  pose proof (Z.div_mod (- a) b ltac:(lia)) as Hdm.
  pose proof (Z.mod_pos_bound (- a) b Hb) as Hmod. nia.
Qed.

(** X1. For a record whose expiry parses to the instant [t], [daysLeft] is
    the number of started days until [t]: never negative, 0 exactly when
    [t <= now], and otherwise the [d] with
    [(d - 1) days < t - now <= d days]. *)
Theorem daysLeft_counts_started_days Date_parse now u t :
  u_expiry u <> EmptyString -> Date_parse (u_expiry u) = Some t ->
  exists d, daysLeft (enrich Date_parse now u) = Some d
    /\ 0 <= d
    /\ (d = 0 <-> t <= now)
    /\ (0 < d -> (d - 1) * 86400000 < t - now <= d * 86400000).
Proof.
  intros Hexp Ht. unfold enrich. cbn [daysLeft].
  rewrite decide_False by done. rewrite Ht.
  pose proof (ceil_div_bounds (t - now) 86400000 ltac:(lia)) as Hc.
  eexists. split; [done|]. repeat split; lia.
Qed.

Lemma daysLeft_counts_started_days_witness :
  exists d, daysLeft (enrich (dates_at 200000000) 100 dave) = Some d
    /\ 0 <= d
    /\ (d = 0 <-> 200000000 <= 100)
    /\ (0 < d -> (d - 1) * 86400000 < 200000000 - 100 <= d * 86400000).
Proof.
  apply (daysLeft_counts_started_days (dates_at 200000000) 100 dave 200000000).
  - discriminate.
  - reflexivity.
Defined.

(** X2. The remaining budget of a row is the sentinel -1 exactly for an
    unlimited quota (not a number, or -1); for a limited quota it is never
    negative, it is what is left of the quota while usage is below it, and
    it is 0 exactly when usage has reached the quota. *)
Theorem remaining_budget Date_parse now u :
  let usage := Qmake (default 0 (u_usageAccumBytes u)) 1073741824 in
  let r := remainingBandwidthRaw (enrich Date_parse now u) in
  match u_quota u with
  | None => r = (-1)%Q
  | Some q =>
      if Qeq_bool q (-1) then r = (-1)%Q
      else (0 <= r)%Q
           /\ ((usage <= q)%Q -> (usage + r == q)%Q)
           /\ ((r == 0)%Q <-> (q <= usage)%Q)
  end.
Proof.
  intros usage r. subst r. unfold enrich. cbn [remainingBandwidthRaw].
  fold usage. destruct (u_quota u) as [q|]; [|done].
  destruct (Qeq_bool q (-1)) eqn:Hq; [done|]. rewrite Hq.
  unfold Qmax0. destruct (Qle_bool 0 (q - usage)) eqn:Hle.
  - apply Qle_bool_iff in Hle. repeat split; intros; lra.
  - assert (~ (0 <= q - usage)%Q) as Hn.
    { intros H. apply Qle_bool_iff in H. congruence. }
    repeat split; intros; lra.
Qed.

(** ** The snapshot against the stores *)

Section SnapshotProperties.

Variable Date_parse : string -> option Z.

(** The row and the persisted record of the user at position [i]. *)
Lemma cycle_row_and_record obs now w us i u :
  NoDup (omap u_id us) -> NoDup (u_uuid <$> us) -> us !! i = Some u ->
  let e := reconcile_entry (query_rawBytes (statKey_of u) (obs i))
                           (stored_entry w (u_uuid u)) in
  exists u0 row b,
    normalized us !! i = Some u0
    /\ normalize_rel u u0
    /\ cycle_snapshot Date_parse obs now w us !! i = Some row
    /\ e_user row
       = set_enabled (Some b) (set_usage (Some (accumBytes e)) (Some (lastRawBytes e)) u0)
    /\ (cycle_flags Date_parse obs now w us).1 !! i = Some (set_enabled (Some b) u0).
Proof.
  intros Hids Hnd Hi e.
  destruct (cycle_at obs w us i u Hnd Hi) as (u0 & Hi0 & Hrel & Hrow & _).
  fold e in Hrow.
  set (u1 := set_usage (Some (accumBytes e)) (Some (lastRawBytes e)) u0) in *.
  destruct (enrich_enabled Date_parse now u1) as (b & Hb & _).
  exists u0, (enrich Date_parse now u1), b.
  split; [done|]. split; [done|].
  split; [unfold cycle_snapshot; by rewrite list_lookup_fmap, Hrow|].
  split; [by rewrite enrich_user, Hb|].
  assert (cycle_byId Date_parse obs now w us !! u_id u0 = Some (Some b)) as Hget.
  { unfold cycle_byId. apply Map_new_lookup.
    - unfold cycle_snapshot. rewrite <- !list_fmap_compose.
      assert (forall l l' : list user,
        Forall2 (fun u u' => exists a l, u' = set_usage (Some a) (Some l) u) l l' ->
        (fst ∘ (fun e => (u_id (e_user e), u_enabled (e_user e))) ∘ enrich Date_parse now)
          <$> l' = u_id <$> l) as Hkeys.
      { induction 1 as [|a a' l l' (x & y & ->) _ IH]; [done|].
        rewrite !fmap_cons, IH. f_equal. unfold compose. cbn [fst].
        by rewrite enrich_user. }
      rewrite (Hkeys (normalized us)) by apply worker_users.
      by apply normalized_ids_NoDup.
    - apply list_elem_of_lookup. exists i. unfold cycle_snapshot.
      rewrite !list_lookup_fmap, Hrow. cbn [fmap option_fmap option_map].
      f_equal. rewrite Hb. f_equal. by rewrite enrich_user. }
  unfold cycle_flags. rewrite flags_loop_fst, list_lookup_fmap, Hi0.
  cbn [fmap option_fmap option_map]. f_equal.
  rewrite flag_of_rel. f_equal. unfold flag_of. rewrite Hget. by case_decide.
Qed.

(** X4. After a cycle that starts with no cycle in flight and completes
    with no request served in between ([uninterrupted_cycle]), over a store
    with distinct ids and uuids, the published snapshot has one row per
    persisted record, and each row is the persisted record of the same
    position with the two usage fields filled in from the persisted
    accumulator entry of its uuid: snapshot, user store and accumulator
    store agree. *)
Theorem snapshot_agrees_with_stores obs now w us :
  users_file w = Some us -> _isAggregating w = false ->
  NoDup (omap u_id us) -> NoDup (u_uuid <$> us) ->
  let w' := run (aggregate Date_parse obs now) w in
  exists us', users_file w' = Some us'
    /\ length (_cachedEnriched w') = length us'
    /\ forall i row, _cachedEnriched w' !! i = Some row ->
         exists u' e, us' !! i = Some u'
           /\ stored_entry w' (u_uuid u') = Some e
           /\ e_user row = set_usage (Some (accumBytes e)) (Some (lastRawBytes e)) u'.
Proof.
  intros Hus Hfl Hids Hnd w'. subst w'.
  pose proof (fun j v => cycle_entry Date_parse obs now w us j v Hus Hfl Hnd) as Hentry.
  assert (run (aggregate Date_parse obs now) w = cycle_world Date_parse obs now w us)
    as Hrun by (unfold run; by rewrite (aggregate_run Date_parse obs now w us Hus Hfl)).
  rewrite Hrun in *.
  exists (cycle_flags Date_parse obs now w us).1. split; [done|].
  assert (length (cycle_snapshot Date_parse obs now w us) = length us) as Hlen.
  { unfold cycle_snapshot. rewrite length_map.
    pose proof (worker_users obs 0 (normalized us) (default ∅ (usage_file w)) false) as Hl.
    apply Forall2_length in Hl. unfold cycle_worker. rewrite <- Hl.
    pose proof (normalize_loop_rel (maxId_of us) false us) as Hl'.
    apply Forall2_length in Hl'. by rewrite Hl'. }
  split.
  { cbn [cycle_world _cachedEnriched]. rewrite Hlen.
    unfold cycle_flags. rewrite flags_loop_fst, length_fmap.
    pose proof (normalize_loop_rel (maxId_of us) false us) as Hl'.
    apply Forall2_length in Hl'. by rewrite Hl'. }
  intros i row Hrow. cbn [cycle_world _cachedEnriched] in Hrow.
  assert (is_Some (us !! i)) as [u Hi].
  { apply lookup_lt_is_Some. rewrite <- Hlen. by apply lookup_lt_Some in Hrow. }
  destruct (cycle_row_and_record obs now w us i u Hids Hnd Hi)
    as (u0 & row' & b & Hi0 & Hrel & Hrow' & Huser & Hrec).
  rewrite Hrow in Hrow'. injection Hrow' as <-.
  eexists _, _. split; [exact Hrec|].
  assert (u_uuid u0 = u_uuid u) as Hk by (destruct Hrel as [Hr _]; by rewrite Hr).
  split.
  - cbn [u_uuid set_enabled]. rewrite Hk. apply Hentry, Hi.
  - rewrite Huser. by destruct u0.
Qed.

End SnapshotProperties.

Lemma snapshot_agrees_with_stores_witness :
  let w := boot (Some [alice; bob]) (Some {[ "uuid-b" := Entry 1073741000 500 ]}) in
  let w' := run (aggregate no_dates (fun _ => traffic "bob" 900 424) 10) w in
  exists us', users_file w' = Some us'
    /\ length (_cachedEnriched w') = length us'
    /\ forall i row, _cachedEnriched w' !! i = Some row ->
         exists u' e, us' !! i = Some u'
           /\ stored_entry w' (u_uuid u') = Some e
           /\ e_user row = set_usage (Some (accumBytes e)) (Some (lastRawBytes e)) u'.
Proof.
  apply (snapshot_agrees_with_stores no_dates (fun _ => traffic "bob" 900 424) 10
           (boot (Some [alice; bob]) (Some {[ "uuid-b" := Entry 1073741000 500 ]}))
           [alice; bob]).
  - reflexivity.
  - reflexivity.
  - apply (bool_decide_unpack _). vm_compute. exact I.
  - apply (bool_decide_unpack _). vm_compute. exact I.
Defined.

(** ** Flags over successive cycles *)

Section FlagsOverCycles.

Variable Date_parse : string -> option Z.

(** A cycle keeps the ids of the user store distinct. *)
Lemma cycle_users_ids obs now w us :
  users_file w = Some us -> _isAggregating w = false ->
  NoDup (omap u_id us) ->
  exists us', users_file (run (aggregate Date_parse obs now) w) = Some us'
              /\ NoDup (omap u_id us').
Proof.
  intros Hus Hfl Hids. unfold run.
  rewrite (aggregate_run Date_parse obs now w us Hus Hfl). cbn [snd].
  eexists. split; [done|]. cbn [cycle_world users_file].
  unfold cycle_flags. rewrite flags_loop_fst.
  pose proof (normalized_ids_NoDup us Hids) as Hn.
  rewrite fmap_omap_Some in Hn
    by (eapply Forall_impl; [apply normalize_loop_filled|]; by intros ? [? _]).
  apply NoDup_fmap_1 in Hn.
  assert (omap u_id (flag_of (cycle_byId Date_parse obs now w us) <$> normalized us)
          = omap u_id (normalized us)) as ->; [|done].
  apply list_omap_ext. apply Forall2_fmap_l, Forall_Forall2_diag, Forall_forall.
  intros x _. unfold compose, flag_of.
  destruct (cycle_byId Date_parse obs now w us !! u_id x) as [[?|]|];
    [case_decide|..]; done.
Qed.

Lemma run_cycles_keeps_disabled cs : forall w us i u,
  users_file w = Some us -> _isAggregating w = false ->
  NoDup (omap u_id us) -> NoDup (u_uuid <$> us) ->
  us !! i = Some u -> u_enabled u = Some false ->
  exists us' u', users_file (run_cycles Date_parse cs w) = Some us'
                 /\ us' !! i = Some u' /\ u_enabled u' = Some false.
Proof.
  induction cs as [|[obs now] cs IH]; intros w us i u Hus Hfl Hids Hnd Hi Hen.
  - by exists us, u.
  - cbn [run_cycles].
    destruct (cycle_flag Date_parse obs now w us i u Hus Hfl Hids Hnd Hi)
      as (us' & u' & e & b & Hus' & _ & Hi' & _ & _ & Hb & Hiff & _).
    destruct (cycle_users_identity Date_parse obs now w us Hus Hfl)
      as (us'' & Hus'' & Huuid & _ & Hfl').
    destruct (cycle_users_ids obs now w us Hus Hfl Hids) as (us3 & Hus3 & Hids').
    rewrite Hus' in Hus'', Hus3. injection Hus'' as <-. injection Hus3 as <-.
    apply (IH _ us' i u'); try done.
    + by rewrite Huuid.
    + rewrite Hb. f_equal. destruct b; [|done].
      destruct (proj1 Hiff eq_refl) as [Ht _]. by rewrite Hen in Ht.
Qed.

(** X5. Uninterrupted cycles never enable: starting with no cycle in
    flight, over any non-empty sequence of cycles with no request served
    during or between them, whatever the readings, a user whose stored flag
    is false or absent ends with the persisted flag false. *)
Theorem disabled_stays_disabled obs now cs w us i u :
  users_file w = Some us -> _isAggregating w = false ->
  NoDup (omap u_id us) -> NoDup (u_uuid <$> us) ->
  us !! i = Some u -> truthy (u_enabled u) = false ->
  exists us' u', users_file (run_cycles Date_parse ((obs, now) :: cs) w) = Some us'
                 /\ us' !! i = Some u' /\ u_enabled u' = Some false.
Proof.
  intros Hus Hfl Hids Hnd Hi Hen. cbn [run_cycles].
  destruct (cycle_flag Date_parse obs now w us i u Hus Hfl Hids Hnd Hi)
    as (us' & u' & e & b & Hus' & _ & Hi' & _ & _ & Hb & Hiff & _).
  destruct (cycle_users_identity Date_parse obs now w us Hus Hfl)
    as (us'' & Hus'' & Huuid & _ & Hfl').
  destruct (cycle_users_ids obs now w us Hus Hfl Hids) as (us3 & Hus3 & Hids').
  rewrite Hus' in Hus'', Hus3. injection Hus'' as <-. injection Hus3 as <-.
  apply (run_cycles_keeps_disabled cs _ us' i u'); try done.
  - by rewrite Huuid.
  - rewrite Hb. f_equal. destruct b; [|done].
    destruct (proj1 Hiff eq_refl) as [Ht _]. congruence.
Qed.

End FlagsOverCycles.

Lemma disabled_stays_disabled_witness :
  let w := boot (Some [alice; set_enabled None bob]) (Some ∅) in
  exists us' u',
    users_file (run_cycles no_dates
                  [(fun _ => traffic "bob" 1 2, 10); (fun _ => QueryFailed, 20)] w)
    = Some us'
    /\ us' !! 1%nat = Some u' /\ u_enabled u' = Some false.
Proof.
  apply (disabled_stays_disabled no_dates (fun _ => traffic "bob" 1 2) 10
           [(fun _ : nat => QueryFailed, 20)]
           (boot (Some [alice; set_enabled None bob]) (Some ∅))
           [alice; set_enabled None bob] 1 (set_enabled None bob)).
  - reflexivity.
  - reflexivity.
  - apply (bool_decide_unpack _). vm_compute. exact I.
  - apply (bool_decide_unpack _). vm_compute. exact I.
  - reflexivity.
  - reflexivity.
Defined.

(** ** The mutation endpoints, request by request *)

Lemma find_unique (users : list user) i u :
  NoDup (u_username <$> users) -> users !! i = Some u ->
  List.find (has_username (u_username u)) users = Some u.
Proof.
  revert i. induction users as [|x rest IH]; intros i Hnd Hi; [done|].
  rewrite fmap_cons in Hnd. apply NoDup_cons in Hnd as [Hx Hnd].
  destruct i as [|i]; simpl in Hi.
  - injection Hi as ->. simpl. unfold has_username. by rewrite bool_decide_eq_true_2.
  - simpl. unfold has_username at 1. rewrite bool_decide_eq_false_2; [by apply (IH i)|].
    intros Hxn. apply Hx. rewrite Hxn. apply list_elem_of_fmap. exists u.
    split; [done|]. by apply list_elem_of_lookup_2 in Hi.
Qed.

Lemma find_none n (users : list user) :
  n ∉ u_username <$> users -> List.find (has_username n) users = None.
Proof.
  induction users as [|x rest IH]; [done|].
  rewrite fmap_cons. intros [Hx Hrest]%not_elem_of_cons. simpl.
  unfold has_username at 1. rewrite bool_decide_eq_false_2 by congruence. by apply IH.
Qed.

(** X6. A mutation request that names no stored user is answered 404, and
    one that meets an unreadable user store is answered 500; either way the
    handler has only tried to read the user store: both stores, the
    snapshot and the flag are what they were and nothing was written. *)
Theorem rejected_mutation_changes_nothing m w :
  match users_file w with
  | Some us => mutation_username m ∉ u_username <$> us
  | None => True
  end ->
  mutation_handler m w
  = (Some (match users_file w with Some _ => R404 | None => R500 end),
     log (Read USERS_FILE) w).
Proof.
  intros Hn. destruct m as [n|n|n|n]; cbn [mutation_handler mutation_username] in *;
    unfold_js; destruct (users_file w) as [us|]; cbn; try done;
    by rewrite (find_none n us Hn).
Qed.

Lemma rejected_mutation_changes_nothing_witness :
  mutation_handler (ResetQuota "zoe") (boot (Some [alice; bob]) (Some ∅))
  = (Some R404, log (Read USERS_FILE) (boot (Some [alice; bob]) (Some ∅))).
Proof.
  apply (rejected_mutation_changes_nothing (ResetQuota "zoe")
           (boot (Some [alice; bob]) (Some ∅))).
  apply (bool_decide_unpack _). vm_compute. exact I.
Defined.

(** POST .../reset-quota on a readable user store that lists the user
    once. *)
Lemma reset_quota_run w us i u :
  users_file w = Some us -> NoDup (u_username <$> us) -> us !! i = Some u ->
  exists t,
    reset_quota (u_username u) w
    = (Some R200,
       MkWorld (Some (<[i := set_usage (Some 0) (Some 0) u]> us))
               (match usage_file w with
                | Some st => match st !! u_uuid u with
                             | Some _ => Some (<[u_uuid u := Entry 0 0]> st)
                             | None => Some st
                             end
                | None => None
                end)
               (t ++ io w) (_cachedEnriched w) (_cacheStamp w) (_isAggregating w)).
Proof.
  destruct w as [uf gf tr ce cs fl]. cbn. intros -> Hnd Hi. unfold_js. cbn.
  rewrite (find_unique us i u Hnd Hi).
  rewrite (update_first_unique _ _ us i u Hnd Hi eq_refl).
  destruct gf as [st|]; cbn.
  - destruct (st !! u_uuid u) eqn:Hk; cbn.
    + by exists [Write USERS_FILE; Write USAGE_FILE; Read USAGE_FILE; Read USERS_FILE].
    + by exists [Write USERS_FILE; Read USAGE_FILE; Read USERS_FILE].
  - by exists [Write USERS_FILE; Read USAGE_FILE; Read USERS_FILE].
Qed.

Section AfterMutation.

Variable Date_parse : string -> option Z.

(** X7. Served while no cycle is in flight, reset-quota zeroes the two
    usage fields of the named record and the accumulator entry of its uuid
    (when there is one) and leaves the [enabled] flag alone; a cycle that
    starts right after it and completes with no request served in between
    then restarts the accumulation from the live counter: the entry becomes
    [{rawBytes, rawBytes}]. *)
Theorem reset_restarts_accumulation obs now w us i u :
  users_file w = Some us -> _isAggregating w = false ->
  NoDup (u_uuid <$> us) -> NoDup (u_username <$> us) -> us !! i = Some u ->
  outcome_nonneg (obs i) ->
  let w1 := run (reset_quota (u_username u)) w in
  let w2 := run (aggregate Date_parse obs now) w1 in
  let r := query_rawBytes (statKey_of u) (obs i) in
  users_file w1 = Some (<[i := set_usage (Some 0) (Some 0) u]> us)
  /\ (is_Some (stored_entry w (u_uuid u)) ->
      stored_entry w1 (u_uuid u) = Some (Entry 0 0))
  /\ (stored_entry w (u_uuid u) = None -> stored_entry w1 (u_uuid u) = None)
  /\ stored_entry w2 (u_uuid u) = Some (Entry r r).
Proof.
  intros Hus Hfl Hnd Hnames Hi Hobs w1 w2 r. subst w2 w1. unfold run at 1 2 3 5.
  destruct (reset_quota_run w us i u Hus Hnames Hi) as [t ->]. cbn [snd].
  set (w1 := MkWorld _ _ _ _ _ _).
  assert (is_Some (stored_entry w (u_uuid u)) ->
          stored_entry w1 (u_uuid u) = Some (Entry 0 0)) as H1.
  { unfold stored_entry, w1. cbn. destruct (usage_file w) as [st|]; cbn; [|by intros [? ?]].
    intros [e He]. rewrite He. cbn. by rewrite lookup_insert_eq. }
  assert (stored_entry w (u_uuid u) = None -> stored_entry w1 (u_uuid u) = None) as H2.
  { unfold stored_entry, w1. cbn. destruct (usage_file w) as [st|]; cbn; [|done].
    intros He. by rewrite He. }
  split; [done|]. split; [done|]. split; [done|].
  set (u1 := set_usage (Some 0) (Some 0) u).
  assert ((<[i := u1]> us) !! i = Some u1) as Hi1.
  { apply list_lookup_insert_eq. by apply lookup_lt_Some in Hi. }
  assert (u_uuid <$> <[i := u1]> us = u_uuid <$> us) as Huuid.
  { rewrite list_fmap_insert. apply list_insert_id. by rewrite list_lookup_fmap, Hi. }
  pose proof (cycle_entry Date_parse obs now w1 (<[i := u1]> us) i u1) as Hc.
  rewrite Huuid in Hc. specialize (Hc eq_refl Hfl Hnd Hi1).
  change (u_uuid u1) with (u_uuid u) in Hc.
  change (statKey_of u1) with (statKey_of u) in Hc. fold r in Hc.
  rewrite Hc. f_equal.
  pose proof (query_rawBytes_nonneg (statKey_of u) (obs i) Hobs) as Hr. fold r in Hr.
  destruct (stored_entry w (u_uuid u)) as [e|] eqn:He.
  - rewrite H1 by done. unfold reconcile_entry. cbn.
    rewrite (proj2 (Z.geb_le _ _)) by lia. f_equal. lia.
  - by rewrite H2.
Qed.

(** The flag a cycle persists for a user after a request that rewrote the
    user store without touching ids, uuids, names or policy fields. *)
Lemma cycle_flag_after obs now w1 us us1 i u u1 :
  users_file w1 = Some us1 -> _isAggregating w1 = false ->
  Forall2 mutation_rel us us1 ->
  NoDup (omap u_id us) -> NoDup (u_uuid <$> us) ->
  us !! i = Some u -> us1 !! i = Some u1 ->
  exists us2 u2 b,
    users_file (run (aggregate Date_parse obs now) w1) = Some us2
    /\ us2 !! i = Some u2 /\ u_enabled u2 = Some b
    /\ (b = true <->
        truthy (u_enabled u1) = true
        /\ ~ breached Date_parse now (u_quota u) (u_expiry u)
               (accumBytes (reconcile_entry (query_rawBytes (statKey_of u) (obs i))
                                            (stored_entry w1 (u_uuid u))))).
Proof.
  intros Hus1 Hfl Hrel Hids Hnd Hi Hi1.
  assert (omap u_id us1 = omap u_id us) as Hids1.
  { symmetry. apply list_omap_ext. eapply Forall2_impl; [exact Hrel|].
    by intros x y ->. }
  assert (u_uuid <$> us1 = u_uuid <$> us) as Huuid1.
  { apply (Forall2_fmap_eq _ mutation_rel); [|done]. by intros x y ->. }
  destruct (Forall2_lookup_l _ _ _ _ _ Hrel Hi) as (u1' & Hi1' & Hr).
  rewrite Hi1 in Hi1'. injection Hi1' as <-.
  assert (u_uuid u1 = u_uuid u /\ u_quota u1 = u_quota u /\ u_expiry u1 = u_expiry u
          /\ statKey_of u1 = statKey_of u) as (Hu1 & Hu2 & Hu3 & Hu4).
  { rewrite Hr. done. }
  destruct (cycle_flag Date_parse obs now w1 us1 i u1)
    as (us2 & u2 & e2 & b & Hus2 & _ & Hi2 & _ & He2 & Hb & Hiff & _);
    [done|done|by rewrite Hids1|by rewrite Huuid1|done|].
  exists us2, u2, b. repeat (split; [done|]).
  rewrite He2, Hu1, Hu2, Hu3, Hu4 in Hiff. exact Hiff.
Qed.

(** X8. A manual re-enable served while no cycle is in flight sticks when
    the policy is not breached: after POST .../enable, a cycle that starts
    right after it and completes with no request served in between persists
    [enabled = true], provided the reconciled usage is below the quota and
    the expiry has not passed. *)
Theorem reenable_sticks_without_breach obs now w us i u :
  users_file w = Some us -> _isAggregating w = false ->
  NoDup (omap u_id us) -> NoDup (u_uuid <$> us) -> NoDup (u_username <$> us) ->
  us !! i = Some u ->
  ~ breached Date_parse now (u_quota u) (u_expiry u)
      (accumBytes (reconcile_entry (query_rawBytes (statKey_of u) (obs i))
                                   (stored_entry w (u_uuid u)))) ->
  let w2 := run (aggregate Date_parse obs now) (run (enable_user (u_username u)) w) in
  exists us2 u2, users_file w2 = Some us2 /\ us2 !! i = Some u2
                 /\ u_enabled u2 = Some true.
Proof.
  intros Hus Hfl Hids Hnd Hnames Hi Hnb w2. subst w2.
  unfold run at 2. rewrite (enable_user_run _ w us i u Hus Hi eq_refl). cbn [snd].
  set (st := default ∅ (usage_file w)).
  pose proof (update_first_rel (u_username u) (set_enabled (Some true)) st us) as Hrel.
  set (us1 := update_first _ _ _) in *.
  set (w1 := MkWorld (Some us1) _ _ _ _ _).
  assert (Forall2 mutation_rel us us1) as Hrel'.
  { apply Hrel.
    - intros x. unfold mutation_rel. by destruct x.
    - intros x y ->. unfold mutation_rel. by destruct x. }
  assert (NoDup (u_username <$> (with_usage st <$> us))) as Hnames'.
  { rewrite <- list_fmap_compose.
    erewrite list_fmap_ext; [exact Hnames|]. intros _ x _. simpl.
    by rewrite with_usage_rel. }
  assert ((with_usage st <$> us) !! i = Some (with_usage st u)) as Hi'
    by (by rewrite list_lookup_fmap, Hi).
  assert (us1 !! i = Some (set_enabled (Some true) (with_usage st u))) as Hi1.
  { unfold us1.
    rewrite (update_first_unique _ _ _ i (with_usage st u) Hnames' Hi')
      by (by rewrite with_usage_rel).
    apply list_lookup_insert_eq. rewrite length_fmap. by apply lookup_lt_Some in Hi. }
  destruct (cycle_flag_after obs now w1 us us1 i u _ eq_refl Hfl Hrel' Hids Hnd Hi Hi1)
    as (us2 & u2 & b & Hus2 & Hi2 & Hb & Hiff).
  exists us2, u2. split; [done|]. split; [done|]. rewrite Hb. f_equal.
  apply Hiff. split; [done|]. exact Hnb.
Qed.

End AfterMutation.

Lemma reset_restarts_accumulation_witness :
  let w := boot (Some [alice; bob]) (Some {[ "uuid-b" := Entry 5000 700 ]}) in
  let w1 := run (reset_quota "bob") w in
  let w2 := run (aggregate no_dates (fun _ => traffic "bob" 30 12) 10) w1 in
  let r := query_rawBytes (statKey_of bob) (traffic "bob" 30 12) in
  users_file w1 = Some (<[1%nat := set_usage (Some 0) (Some 0) bob]> [alice; bob])
  /\ (is_Some (stored_entry w "uuid-b") -> stored_entry w1 "uuid-b" = Some (Entry 0 0))
  /\ (stored_entry w "uuid-b" = None -> stored_entry w1 "uuid-b" = None)
  /\ stored_entry w2 "uuid-b" = Some (Entry r r).
Proof.
  apply (reset_restarts_accumulation no_dates (fun _ => traffic "bob" 30 12) 10
           (boot (Some [alice; bob]) (Some {[ "uuid-b" := Entry 5000 700 ]}))
           [alice; bob] 1 bob).
  - reflexivity.
  - reflexivity.
  - apply (bool_decide_unpack _). vm_compute. exact I.
  - apply (bool_decide_unpack _). vm_compute. exact I.
  - reflexivity.
  - unfold outcome_nonneg, traffic.
    repeat (constructor; [intros v [= <-]; lia|]). constructor.
Defined.

Lemma reenable_sticks_without_breach_witness :
  let w := boot (Some [alice; set_enabled (Some false) bob])
                (Some {[ "uuid-b" := Entry 1000 500 ]}) in
  let w2 := run (aggregate no_dates (fun _ => traffic "bob" 300 250) 10)
                (run (enable_user "bob") w) in
  exists us2 u2, users_file w2 = Some us2 /\ us2 !! 1%nat = Some u2
                 /\ u_enabled u2 = Some true.
Proof.
  apply (reenable_sticks_without_breach no_dates (fun _ => traffic "bob" 300 250) 10
           (boot (Some [alice; set_enabled (Some false) bob])
                 (Some {[ "uuid-b" := Entry 1000 500 ]}))
           [alice; set_enabled (Some false) bob] 1 (set_enabled (Some false) bob)).
  - reflexivity.
  - reflexivity.
  - apply (bool_decide_unpack _). vm_compute. exact I.
  - apply (bool_decide_unpack _). vm_compute. exact I.
  - apply (bool_decide_unpack _). vm_compute. exact I.
  - reflexivity.
  - intros [(q & Hq & _ & Hle)|(Hexp & _)].
    + injection Hq as <-. vm_compute in Hle. by apply Hle.
    + by apply Hexp.
Defined.

(** ** A request in the middle of a cycle *)

Section Interleaving.

Variable Date_parse : string -> option Z.

Lemma persistEnabledFlags_usage snapshot w :
  usage_file (run (persistEnabledFlags snapshot) w) = usage_file w.
Proof.
  unfold run, persistEnabledFlags, try_catch, bind.
  destruct (users_file w) as [us|] eqn:Hus.
  - rewrite (baseLoadUsers_run w us Hus).
    destruct (flags_loop _ (normalized us) false) as [orig' [|]]; done.
  - by rewrite (baseLoadUsers_fail w Hus).
Qed.

(** The accumulator store after a resumed cycle, whatever happened to the
    world while the cycle was suspended: the cycle writes the store it read
    at its start, reconciled. *)
Lemma aggregate_resume_usage obs now c w :
  usage_file (run (aggregate_resume Date_parse obs now c) w)
  = if (worker obs 0 (c_users c) (c_store c) false).2
    then Some (worker obs 0 (c_users c) (c_store c) false).1.2
    else usage_file w.
Proof.
  unfold run, aggregate_resume, try_finally, try_catch at 1.
  destruct (worker obs 0 (c_users c) (c_store c) false) as [[users store] ch].
  cbn [fst snd]. unfold bind at 1.
  destruct ch; cbn [when].
  - unfold try_catch at 1, writeJson_USAGE_FILE at 1. unfold bind at 1.
    pose proof (persistEnabledFlags_usage (map (enrich Date_parse now) users)
      (MkWorld (users_file w) (Some store) (Write USAGE_FILE :: io w)
               (_cachedEnriched w) (_cacheStamp w) (_isAggregating w))) as Hp.
    unfold run in Hp. destruct (persistEnabledFlags _ _) as [[[]|] w2]; cbn in *; done.
  - unfold ret at 1. unfold bind at 1.
    pose proof (persistEnabledFlags_usage (map (enrich Date_parse now) users) w) as Hp.
    unfold run in Hp. destruct (persistEnabledFlags _ _) as [[[]|] w2]; cbn in *; done.
Qed.

(** X9. A reset-quota request served while a cycle is in flight is undone
    when the cycle resumes: the cycle read the accumulator store before the
    reset and, as soon as the user's reading differs from the stored
    [lastRawBytes], writes back the entry reconciled from what it read. *)
Theorem reset_during_cycle_is_overwritten obs now w us i u e :
  users_file w = Some us -> _isAggregating w = false ->
  NoDup (u_uuid <$> us) -> NoDup (u_username <$> us) -> us !! i = Some u ->
  stored_entry w (u_uuid u) = Some e ->
  query_rawBytes (statKey_of u) (obs i) <> lastRawBytes e ->
  let s1 := handle Date_parse EvAggregate (MkSystem w []) in
  let s2 := handle Date_parse (EvMutation (ResetQuota (u_username u))) s1 in
  let s3 := handle Date_parse (EvSettled 0 obs now) s2 in
  stored_entry (sys_world s2) (u_uuid u) = Some (Entry 0 0)
  /\ stored_entry (sys_world s3) (u_uuid u)
     = Some (reconcile_entry (query_rawBytes (statKey_of u) (obs i)) (Some e))
  /\ sys_suspended s3 = []
  /\ _isAggregating (sys_world s3) = false.
Proof.
  intros Hus Hfl Hnd Hnames Hi He Hraw s1 s2 s3. subst s3 s2 s1.
  cbn [handle]. unfold request_cycle. cbn [sys_world sys_suspended].
  rewrite (aggregate_begin_run w us Hus Hfl).
  cbn [sys_world sys_suspended run_mutation].
  set (w1 := MkWorld (Some (normalized us)) _ _ _ _ true).
  destruct (cycle_at obs w us i u Hnd Hi) as (u0 & Hi0 & [Hrel _] & _ & Hstore).
  assert (u_username u0 = u_username u /\ u_uuid u0 = u_uuid u) as [Hn0 Hk0]
    by (rewrite Hrel; done).
  assert (NoDup (u_username <$> normalized us)) as Hnames0.
  { assert (u_username <$> normalized us = u_username <$> us) as ->; [|done].
    apply (Forall2_fmap_eq _ normalize_rel); [|apply normalize_loop_rel].
    by intros a a' [-> _]. }
  destruct (reset_quota_run w1 (normalized us) i u0 eq_refl Hnames0 Hi0) as [t Hreset].
  rewrite Hn0 in Hreset.
  apply (f_equal snd) in Hreset. cbn [snd] in Hreset. fold (run (reset_quota (u_username u)) w1) in Hreset.
  rewrite Hreset. clear Hreset. unfold stored_entry in He.
  destruct (usage_file w) as [st|] eqn:Hst; [|done]. cbn in He.
  cbn [usage_file w1]. rewrite Hk0, He.
  split.
  { unfold stored_entry. cbn. by rewrite lookup_insert_eq. }
  unfold resume_cycle. cbn [sys_world sys_suspended lookup list_lookup delete list_delete].
  split; [|split; [done|apply aggregate_resume_flag]].
  unfold stored_entry. rewrite aggregate_resume_usage. cbn [c_users c_store].
  unfold cycle_worker, stored_entry in Hstore. rewrite ?Hst in Hstore.
  change (default ∅ (Some st)) with st in *.
  cbn [mbind option_bind] in Hstore. rewrite He in Hstore.
  destruct (worker obs 0 (normalized us) st false) as [[us' st'] ch] eqn:Hw.
  cbn [fst snd] in *. destruct ch; [exact Hstore|].
  apply worker_unchanged in Hw as [-> _]. rewrite He in Hstore.
  injection Hstore as Hstore. destruct Hraw.
  apply (f_equal lastRawBytes) in Hstore.
  destruct (_ >=? _) in Hstore; cbn in Hstore; congruence.
Qed.

End Interleaving.

Lemma reset_during_cycle_is_overwritten_witness :
  let w := boot (Some [alice; bob]) (Some {[ "uuid-b" := Entry 5000 700 ]}) in
  let obs := fun _ : nat => traffic "bob" 500 300 in
  let s1 := handle no_dates EvAggregate (MkSystem w []) in
  let s2 := handle no_dates (EvMutation (ResetQuota "bob")) s1 in
  let s3 := handle no_dates (EvSettled 0 obs 10) s2 in
  stored_entry (sys_world s2) "uuid-b" = Some (Entry 0 0)
  /\ stored_entry (sys_world s3) "uuid-b"
     = Some (reconcile_entry (query_rawBytes (statKey_of bob) (obs 1%nat))
                             (Some (Entry 5000 700)))
  /\ sys_suspended s3 = []
  /\ _isAggregating (sys_world s3) = false.
Proof.
  apply (reset_during_cycle_is_overwritten no_dates (fun _ => traffic "bob" 500 300) 10
           (boot (Some [alice; bob]) (Some {[ "uuid-b" := Entry 5000 700 ]}))
           [alice; bob] 1 bob (Entry 5000 700)).
  - reflexivity.
  - reflexivity.
  - apply (bool_decide_unpack _). vm_compute. exact I.
  - apply (bool_decide_unpack _). vm_compute. exact I.
  - reflexivity.
  - reflexivity.
  - vm_compute. discriminate.
Defined.

(** ** DELETE /api/users/:username *)

Lemma filter_not_username n (users : list user) :
  n ∉ u_username <$> List.filter (fun u => negb (has_username n u)) users.
Proof.
  induction users as [|x rest IH]; simpl; [by intros ?%elem_of_nil|].
  destruct (has_username n x) eqn:Hx; simpl; [exact IH|].
  apply not_elem_of_cons. split; [|exact IH].
  unfold has_username in Hx. apply bool_decide_eq_false in Hx. congruence.
Qed.

(** X10. DELETE of a stored user answers 200 and rewrites the user store
    without any record of that name; the remaining records keep their order
    and everything but their two usage fields, which are refreshed from the
    accumulator store; the accumulator store itself is left as it is, so
    the entry of the deleted user stays behind. *)
Theorem delete_removes_only_the_named_user n w us :
  users_file w = Some us -> n ∈ u_username <$> us ->
  exists us',
    delete_user n w
    = (Some R200,
       MkWorld (Some us') (usage_file w)
               (Write USERS_FILE :: Read USAGE_FILE :: Read USERS_FILE :: io w)
               (_cachedEnriched w) (_cacheStamp w) (_isAggregating w))
    /\ (n ∉ u_username <$> us')
    /\ Forall2 (fun u u' => u' = with_usage (default ∅ (usage_file w)) u
                           /\ u' = set_usage (u_usageAccumBytes u') (u_lastRawBytes u') u)
               (List.filter (fun u => negb (has_username n u)) us) us'.
Proof.
  intros Hus Hin.
  exists (with_usage (default ∅ (usage_file w))
            <$> List.filter (fun u => negb (has_username n u)) us).
  split; [|split].
  - apply list_elem_of_fmap in Hin as (u & Hn & Hu).
    apply list_elem_of_lookup in Hu as [i Hi].
    destruct (find_has_username n us i u Hi (eq_sym Hn)) as [x Hx].
    unfold delete_user, try_catch, bind at 1, readJson_USERS_FILE.
    rewrite Hus, Hx. unfold bind. by rewrite accumulateUsage_run.
  - rewrite <- list_fmap_compose.
    erewrite list_fmap_ext; [apply filter_not_username|]. intros _ x _. simpl.
    by rewrite with_usage_rel.
  - apply Forall2_fmap_r, Forall_Forall2_diag, Forall_forall.
    intros x _. split; [done|apply with_usage_rel].
Qed.

Lemma delete_removes_only_the_named_user_witness :
  let w := boot (Some [alice; bob]) (Some {[ "uuid-a" := Entry 9 9 ]}) in
  exists us',
    delete_user "alice" w
    = (Some R200,
       MkWorld (Some us') (usage_file w)
               (Write USERS_FILE :: Read USAGE_FILE :: Read USERS_FILE :: io w)
               (_cachedEnriched w) (_cacheStamp w) (_isAggregating w))
    /\ ("alice" ∉ u_username <$> us')
    /\ Forall2 (fun u u' => u' = with_usage (default ∅ (usage_file w)) u
                           /\ u' = set_usage (u_usageAccumBytes u') (u_lastRawBytes u') u)
               (List.filter (fun u => negb (has_username "alice" u)) [alice; bob]) us'.
Proof.
  apply (delete_removes_only_the_named_user "alice"
           (boot (Some [alice; bob]) (Some {[ "uuid-a" := Entry 9 9 ]})) [alice; bob]).
  - reflexivity.
  - apply (bool_decide_unpack _). vm_compute. exact I.
Defined.

(** ** buildDesiredClients *)

Lemma buildDesiredClients_boolean (users : list user) :
  Forall (fun u => is_Some (u_enabled u)) users ->
  buildDesiredClients users
  = map (fun u => Client (u_uuid u) (u_username u) 0)
        (List.filter (fun u => truthy (u_enabled u)) users).
Proof.
  unfold buildDesiredClients. intros Hall. f_equal.
  induction Hall as [|u l [b Hb] _ IH]; [done|]. simpl. rewrite IH, Hb.
  by destruct b.
Qed.

Section DesiredClients.

Variable Date_parse : string -> option Z.

(** X11. A completed cycle over a store with distinct ids and uuids leaves
    every record with a boolean [enabled] flag, so that the client list
    built for Xray ([enabled !== false]) is exactly the list of users the
    aggregator counts as enabled ([!!enabled]). *)
Theorem desired_clients_after_cycle obs now w us :
  users_file w = Some us -> _isAggregating w = false ->
  NoDup (omap u_id us) -> NoDup (u_uuid <$> us) ->
  exists us', users_file (run (aggregate Date_parse obs now) w) = Some us'
    /\ Forall (fun u => is_Some (u_enabled u)) us'
    /\ buildDesiredClients us'
       = map (fun u => Client (u_uuid u) (u_username u) 0)
             (List.filter (fun u => truthy (u_enabled u)) us').
Proof.
  intros Hus Hfl Hids Hnd.
  destruct (cycle_users_identity Date_parse obs now w us Hus Hfl)
    as (us' & Hus' & Huuid & _).
  exists us'. split; [done|].
  assert (Forall (fun u => is_Some (u_enabled u)) us') as Hall.
  { apply Forall_lookup. intros i u' Hi'.
    assert (is_Some (us !! i)) as [u Hi].
    { apply lookup_lt_is_Some. apply lookup_lt_Some in Hi'.
      apply (f_equal length) in Huuid. rewrite !length_fmap in Huuid. lia. }
    destruct (cycle_flag Date_parse obs now w us i u Hus Hfl Hids Hnd Hi)
      as (us'' & u'' & e & b & Hus'' & _ & Hi'' & _ & _ & Hb & _).
    rewrite Hus' in Hus''. injection Hus'' as <-.
    rewrite Hi' in Hi''. injection Hi'' as <-. by rewrite Hb. }
  split; [done|]. by apply buildDesiredClients_boolean.
Qed.

(** X12. A record without an [enabled] field counts as a client when the
    Xray client list is built, but the aggregator reads the absent flag as
    false: the first completed cycle persists [enabled = false] for it and
    its uuid is no longer among the desired clients. *)
Theorem absent_flag_is_disabled_by_first_cycle obs now w us i u :
  users_file w = Some us -> _isAggregating w = false ->
  NoDup (omap u_id us) -> NoDup (u_uuid <$> us) ->
  us !! i = Some u -> u_enabled u = None ->
  Client (u_uuid u) (u_username u) 0 ∈ buildDesiredClients us
  /\ exists us' u', users_file (run (aggregate Date_parse obs now) w) = Some us'
       /\ us' !! i = Some u' /\ u_enabled u' = Some false
       /\ forall c, c ∈ buildDesiredClients us' -> c_id c <> u_uuid u.
Proof.
  intros Hus Hfl Hids Hnd Hi Hen. split.
  { unfold buildDesiredClients. apply list_elem_of_In, in_map_iff.
    exists u. split; [done|]. apply filter_In. split.
    - apply list_elem_of_In. by apply list_elem_of_lookup_2 in Hi.
    - by rewrite Hen. }
  destruct (cycle_flag Date_parse obs now w us i u Hus Hfl Hids Hnd Hi)
    as (us' & u' & e & b & Hus' & _ & Hi' & _ & _ & Hb & Hiff & _).
  destruct (cycle_users_identity Date_parse obs now w us Hus Hfl)
    as (us'' & Hus'' & Huuid & _).
  rewrite Hus' in Hus''. injection Hus'' as <-.
  assert (b = false) as ->.
  { destruct b; [|done]. destruct (proj1 Hiff eq_refl) as [Ht _]. by rewrite Hen in Ht. }
  exists us', u'. repeat (split; [done|]).
  intros c Hc Hcid. unfold buildDesiredClients in Hc.
  apply list_elem_of_In, in_map_iff in Hc as (v & <- & Hv).
  apply filter_In in Hv as [Hv Hven]. cbn in Hcid.
  apply list_elem_of_In, list_elem_of_lookup in Hv as [j Hj].
  assert (j = i) as ->.
  { rewrite <- Huuid in Hnd. eapply (NoDup_lookup _ _ _ _ Hnd).
    - by rewrite list_lookup_fmap, Hj.
    - rewrite list_lookup_fmap, Hi'. cbn. f_equal.
      destruct (fmap_eq_lookup u_uuid us us' i u Huuid Hi) as (u2 & Hi2 & Hu2).
      rewrite Hi' in Hi2. injection Hi2 as <-. congruence. }
  rewrite Hi' in Hj. injection Hj as <-. by rewrite Hb in Hven.
Qed.

End DesiredClients.

Lemma desired_clients_after_cycle_witness :
  let w := boot (Some [alice; set_enabled None bob]) (Some ∅) in
  exists us', users_file (run (aggregate no_dates (fun _ => QueryFailed) 10) w) = Some us'
    /\ Forall (fun u => is_Some (u_enabled u)) us'
    /\ buildDesiredClients us'
       = map (fun u => Client (u_uuid u) (u_username u) 0)
             (List.filter (fun u => truthy (u_enabled u)) us').
Proof.
  apply (desired_clients_after_cycle no_dates (fun _ => QueryFailed) 10
           (boot (Some [alice; set_enabled None bob]) (Some ∅))
           [alice; set_enabled None bob]).
  - reflexivity.
  - reflexivity.
  - apply (bool_decide_unpack _). vm_compute. exact I.
  - apply (bool_decide_unpack _). vm_compute. exact I.
Defined.

Lemma absent_flag_is_disabled_by_first_cycle_witness :
  let us := [alice; set_enabled None bob] in
  let w := boot (Some us) (Some ∅) in
  Client "uuid-b" "bob" 0 ∈ buildDesiredClients us
  /\ exists us' u', users_file (run (aggregate no_dates (fun _ => QueryFailed) 10) w) = Some us'
       /\ us' !! 1%nat = Some u' /\ u_enabled u' = Some false
       /\ forall c, c ∈ buildDesiredClients us' -> c_id c <> "uuid-b".
Proof.
  apply (absent_flag_is_disabled_by_first_cycle no_dates (fun _ => QueryFailed) 10
           (boot (Some [alice; set_enabled None bob]) (Some ∅))
           [alice; set_enabled None bob] 1 (set_enabled None bob)).
  - reflexivity.
  - reflexivity.
  - apply (bool_decide_unpack _). vm_compute. exact I.
  - apply (bool_decide_unpack _). vm_compute. exact I.
  - reflexivity.
  - reflexivity.
Defined.

(** ** baseLoadUsers, as its callers see it *)

Lemma normalize_loop_flag maxId np users :
  (normalize_loop maxId np users).2
  = np || existsb (fun u => negb (bool_decide (is_Some (u_id u)))
                            || bool_decide (u_statKey u = EmptyString)) users.
Proof.
  revert maxId np. induction users as [|u rest IH]; intros maxId np.
  - simpl. by destruct np.
  - rewrite normalize_loop_cons. cbn [snd existsb]. rewrite IH.
    destruct (u_id u) as [x|] eqn:Hx.
    + rewrite (bool_decide_eq_true_2 (is_Some (Some x))) by done. cbn [negb orb].
      destruct (decide (u_statKey u = EmptyString)) as [Hs|Hs].
      * rewrite (bool_decide_eq_true_2 _ Hs). by destruct np.
      * rewrite (bool_decide_eq_false_2 _ Hs). by destruct np.
    + rewrite (bool_decide_eq_false_2 (is_Some None)) by (by intros [? ?]).
      by destruct np.
Qed.

Lemma normalize_loop_lookup maxId np users i u :
  users !! i = Some u ->
  exists u', (normalize_loop maxId np users).1 !! i = Some u'
    /\ match u_id u with
       | Some x => u_id u' = Some x
       | None => exists x, u_id u' = Some x /\ maxId < x
       end
    /\ u_statKey u'
       = (if decide (u_statKey u = EmptyString)
          then or_str (u_displayName u) (or_str (u_username u) (u_uuid u))
          else u_statKey u).
Proof.
  revert maxId np i. induction users as [|v rest IH]; intros maxId np i Hi; [done|].
  rewrite normalize_loop_cons. cbn [fst]. destruct i as [|i]; simpl in Hi.
  - injection Hi as ->. eexists. split; [done|]. split.
    + rewrite fill_statKey_id. unfold assign_id.
      destruct (u_id u) as [x|] eqn:Hx; [done|]. cbn. exists (maxId + 1). split; [done|lia].
    + unfold fill_statKey, assign_id.
      destruct (u_id u); cbn [u_statKey set_id u_displayName u_username u_uuid];
        by case_decide.
  - destruct (IH (match u_id v with Some _ => maxId | None => maxId + 1 end)
                (match u_id v with
                 | Some _ => if decide (u_statKey v = EmptyString) then true else np
                 | None => true
                 end) i Hi) as (u' & Hu' & Hid & Hsk).
    exists u'. split; [done|]. split; [|done].
    destruct (u_id u); [done|]. destruct Hid as (x & Hx & Hlt). exists x. split; [done|].
    destruct (u_id v); lia.
Qed.

(** X13. On a readable user store [baseLoadUsers] returns, and leaves in
    the file, one record per stored record: a record keeps its id, or gets
    a fresh one above every stored id when it had none; it keeps its
    [statKey], or gets [displayName || username || uuid] when it had none;
    nothing else changes.  Distinct stored ids stay distinct, and the file
    is written exactly when some record lacked an id or a [statKey]. *)
Theorem baseLoadUsers_completes_records w us :
  users_file w = Some us ->
  exists us' w',
    baseLoadUsers w = (Some us', w')
    /\ users_file w' = Some us' /\ usage_file w' = usage_file w
    /\ length us' = length us
    /\ (forall i u, us !! i = Some u ->
          exists u', us' !! i = Some u'
            /\ u' = set_statKey (u_statKey u') (set_id (u_id u') u)
            /\ match u_id u with
               | Some x => u_id u' = Some x
               | None => exists x, u_id u' = Some x /\ maxId_of us < x
               end
            /\ u_statKey u'
               = (if decide (u_statKey u = EmptyString)
                  then or_str (u_displayName u) (or_str (u_username u) (u_uuid u))
                  else u_statKey u))
    /\ (NoDup (omap u_id us) -> NoDup (u_id <$> us'))
    /\ (nwrites USERS_FILE (io w') = nwrites USERS_FILE (io w) <->
        Forall (fun u => is_Some (u_id u) /\ u_statKey u <> EmptyString) us).
Proof.
  intros Hus. rewrite (baseLoadUsers_run w us Hus). eexists _, _. split; [done|].
  cbn [users_file usage_file io]. split; [done|]. split; [done|].
  pose proof (normalize_loop_rel (maxId_of us) false us) as Hrel.
  fold (normalized us) in Hrel.
  split; [symmetry; by apply Forall2_length in Hrel|]. split.
  { intros i u Hi.
    destruct (normalize_loop_lookup (maxId_of us) false us i u Hi) as (u' & Hu' & Hid & Hsk).
    exists u'. split; [done|]. split; [|done].
    destruct (Forall2_lookup_l _ _ _ _ _ Hrel Hi) as (u2 & Hi2 & Hr & _).
    unfold normalized in Hi2. rewrite Hu' in Hi2. by injection Hi2 as <-. }
  split; [apply normalized_ids_NoDup|].
  unfold needPersist_of. rewrite normalize_loop_flag. cbn [orb].
  unfold nwrites. rewrite List.filter_app, length_app.
  destruct (existsb _ us) eqn:Hex; cbn.
  - split; [lia|]. intros Hall. apply existsb_exists in Hex as (u & Hin & Hu).
    apply list_elem_of_In in Hin.
    apply (proj1 (Forall_forall _ _) Hall) in Hin as [Hid Hsk].
    rewrite (bool_decide_eq_true_2 _ Hid), (bool_decide_eq_false_2 _ Hsk) in Hu. done.
  - split; [|done]. intros _. apply Forall_forall. intros u Hin.
    apply list_elem_of_In in Hin.
    assert (negb (bool_decide (is_Some (u_id u)))
            || bool_decide (u_statKey u = EmptyString) = false) as Hu.
    { destruct (negb _ || _) eqn:Hb; [|done].
      assert (existsb (fun u => negb (bool_decide (is_Some (u_id u)))
                                || bool_decide (u_statKey u = EmptyString)) us = true)
        as Hex' by (apply existsb_exists; eauto).
      congruence. }
    apply orb_false_elim in Hu as [H1 H2]. split.
    + apply negb_false_iff, bool_decide_eq_true in H1. done.
    + by apply bool_decide_eq_false in H2.
Qed.

Lemma baseLoadUsers_completes_records_witness :
  let w := boot (Some [alice; carol]) (Some ∅) in
  let us := [alice; carol] in
  exists us' w',
    baseLoadUsers w = (Some us', w')
    /\ users_file w' = Some us' /\ usage_file w' = usage_file w
    /\ length us' = length us
    /\ (forall i u, us !! i = Some u ->
          exists u', us' !! i = Some u'
            /\ u' = set_statKey (u_statKey u') (set_id (u_id u') u)
            /\ match u_id u with
               | Some x => u_id u' = Some x
               | None => exists x, u_id u' = Some x /\ maxId_of us < x
               end
            /\ u_statKey u'
               = (if decide (u_statKey u = EmptyString)
                  then or_str (u_displayName u) (or_str (u_username u) (u_uuid u))
                  else u_statKey u))
    /\ (NoDup (omap u_id us) -> NoDup (u_id <$> us'))
    /\ (nwrites USERS_FILE (io w') = nwrites USERS_FILE (io w) <->
        Forall (fun u => is_Some (u_id u) /\ u_statKey u <> EmptyString) us).
Proof.
  apply (baseLoadUsers_completes_records (boot (Some [alice; carol]) (Some ∅))
           [alice; carol]).
  reflexivity.
Defined.

(** X14. [baseLoadUsers] is idempotent: called again right away it returns
    the same records and leaves the same file content; and when every
    record has a display name, username or uuid to fall back on, the second
    call only reads. *)
Theorem baseLoadUsers_twice w us :
  users_file w = Some us ->
  exists us' w1 w2,
    baseLoadUsers w = (Some us', w1)
    /\ baseLoadUsers w1 = (Some us', w2)
    /\ users_file w2 = users_file w1
    /\ (Forall (fun u => statKey_of u <> EmptyString) us ->
        w2 = log (Read USERS_FILE) w1).
Proof.
  intros Hus. rewrite (baseLoadUsers_run w us Hus). eexists _, _, _.
  split; [done|]. set (w1 := MkWorld _ _ _ _ _ _).
  rewrite (baseLoadUsers_run w1 (normalized us) eq_refl), normalized_idem.
  split; [done|]. split; [done|].
  intros Hall.
  assert (needPersist_of (normalized us) = false) as ->; [|done].
  unfold needPersist_of. rewrite normalize_loop_complete; [done|].
  pose proof (normalize_loop_filled (maxId_of us) false us) as Hf.
  pose proof (normalize_loop_rel (maxId_of us) false us) as Hrel.
  fold (normalized us) in Hf, Hrel.
  apply Forall_lookup. intros i u' Hi'.
  pose proof (proj1 (Forall_lookup _ _) Hf i u' Hi') as [Hid Hfill].
  split; [done|]. intros Hs.
  destruct (Forall2_lookup_r _ _ _ _ _ Hrel Hi') as (u & Hi & _ & Hsk).
  pose proof (proj1 (Forall_lookup _ _) Hall i u Hi) as Hne.
  apply Hne. rewrite <- Hsk, <- Hfill. rewrite statKey_of_fill.
  unfold fill_statKey in Hfill. rewrite decide_True in Hfill by done.
  unfold statKey_of. rewrite Hs, or_str_empty.
  rewrite <- Hfill in Hs. exact Hs.
Qed.

Lemma baseLoadUsers_twice_witness :
  exists us' w1 w2,
    baseLoadUsers (boot (Some [alice; carol]) (Some ∅)) = (Some us', w1)
    /\ baseLoadUsers w1 = (Some us', w2)
    /\ users_file w2 = users_file w1
    /\ (Forall (fun u => statKey_of u <> EmptyString) [alice; carol] ->
        w2 = log (Read USERS_FILE) w1).
Proof.
  apply (baseLoadUsers_twice (boot (Some [alice; carol]) (Some ∅)) [alice; carol]).
  reflexivity.
Defined.

(** ** Reading the stats answer *)

(** X15. The raw reading does not depend on the order in which the stats
    source lists its counters, and the reading of two answers put together
    is the sum of their readings. *)
Theorem raw_reading_is_order_independent statKey stats stats' :
  stats ≡ₚ stats' ->
  query_rawBytes statKey (QueryStats stats) = query_rawBytes statKey (QueryStats stats')
  /\ forall more,
       query_rawBytes statKey (QueryStats (stats ++ more))
       = query_rawBytes statKey (QueryStats stats')
         + query_rawBytes statKey (QueryStats more).
Proof.
  intros Hp. cbn [query_rawBytes].
  assert (sum_stats statKey stats = sum_stats statKey stats') as Heq.
  { induction Hp as [|x l l' _ IH|x y l|l l' l'' _ IH1 _ IH2].
    - done.
    - by rewrite !sum_stats_cons, IH.
    - rewrite !sum_stats_cons. lia.
    - congruence. }
  split; [done|]. intros more. rewrite <- Heq. clear.
  induction stats as [|s l IH]; [done|].
  cbn [app]. rewrite !sum_stats_cons, IH. lia.
Qed.

Lemma raw_reading_is_order_independent_witness :
  let up := Stat "user>>>alice>>>traffic>>>uplink" (Some 40) in
  let down := Stat "user>>>alice>>>traffic>>>downlink" (Some 2) in
  query_rawBytes "alice" (QueryStats [up; down]) = query_rawBytes "alice" (QueryStats [down; up])
  /\ forall more,
       query_rawBytes "alice" (QueryStats ([up; down] ++ more))
       = query_rawBytes "alice" (QueryStats [down; up])
         + query_rawBytes "alice" (QueryStats more).
Proof.
  apply (raw_reading_is_order_independent "alice"
           [Stat "user>>>alice>>>traffic>>>uplink" (Some 40);
            Stat "user>>>alice>>>traffic>>>downlink" (Some 2)]
           [Stat "user>>>alice>>>traffic>>>downlink" (Some 2);
            Stat "user>>>alice>>>traffic>>>uplink" (Some 40)]).
  apply perm_swap.
Defined.

Lemma prefix_cons_inv c p s :
  String.prefix (String c p) s = true ->
  exists s', s = String c s' /\ String.prefix p s' = true.
Proof.
  destruct s as [|a s']; simpl; [done|].
  destruct (Ascii.ascii_dec c a) as [->|]; [|done]. eauto.
Qed.

Lemma separator_prefix_unique k : forall k' s,
  occurs ">"%char k = false -> occurs ">"%char k' = false ->
  String.prefix (k ++ ">>>traffic>>>") s = true ->
  String.prefix (k' ++ ">>>traffic>>>") s = true ->
  k = k'.
Proof.
  induction k as [|c k IH]; intros k' s Hk Hk' Hp Hp'.
  - destruct k' as [|c' k']; [done|].
    apply prefix_cons_inv in Hp as (s1 & -> & _).
    apply prefix_cons_inv in Hp' as (s2 & [= <- _] & _).
    simpl in Hk'. done.
  - apply prefix_cons_inv in Hp as (s1 & -> & Hp).
    destruct k' as [|c' k'].
    + apply prefix_cons_inv in Hp' as (s2 & [= -> _] & _). simpl in Hk. done.
    + apply prefix_cons_inv in Hp' as (s2 & [= <- <-] & Hp').
      simpl in Hk, Hk'.
      destruct (Ascii.eqb c ">"%char); [done|].
      f_equal. by apply (IH k' s1).
Qed.

(** X16. Counters are charged to one user only: when two stat keys differ
    and neither contains the separator character [>], a counter whose name
    carries the prefix of the one key adds nothing to the reading of the
    other. *)
Theorem counters_of_other_users_are_ignored k k' s stats :
  occurs ">"%char k = false -> occurs ">"%char k' = false -> k <> k' ->
  String.prefix ("user>>>" ++ k' ++ ">>>traffic>>>") (s_name s) = true ->
  query_rawBytes k (QueryStats (s :: stats)) = query_rawBytes k (QueryStats stats).
Proof.
  intros Hk Hk' Hne Hp'. cbn [query_rawBytes]. rewrite sum_stats_cons.
  destruct (String.prefix ("user>>>" ++ k ++ ">>>traffic>>>") (s_name s)) eqn:Hp; [|lia].
  destruct Hne. revert Hp Hp'. generalize (s_name s) as n. intros n Hp Hp'.
  cbn [append] in Hp, Hp'.
  do 7 (apply prefix_cons_inv in Hp as (? & -> & Hp);
        apply prefix_cons_inv in Hp' as (? & [= <-] & Hp')).
  by apply (separator_prefix_unique k k' _ Hk Hk' Hp Hp').
Qed.

Lemma counters_of_other_users_are_ignored_witness :
  query_rawBytes "al" (QueryStats [Stat "user>>>alice>>>traffic>>>uplink" (Some 40)])
  = query_rawBytes "al" (QueryStats []).
Proof.
  apply (counters_of_other_users_are_ignored "al" "alice"
           (Stat "user>>>alice>>>traffic>>>uplink" (Some 40)) []).
  - reflexivity.
  - reflexivity.
  - discriminate.
  - reflexivity.
Defined.

(** * Expiry normalisation of the POST and PUT handlers *)

Lemma matches_length p s :
  matches p s = true -> String.length s = List.length p.
Proof.
  revert s. induction p as [|[|a] p IH]; intros [|c s] H; simpl in *;
    try discriminate; try reflexivity.
  - apply andb_prop in H as [_ H]. f_equal. auto.
  - apply andb_prop in H as [_ H]. f_equal. auto.
Qed.

Lemma matches_app p q s t :
  matches p s = true -> matches q t = true ->
  matches (p ++ q) (String.append s t) = true.
Proof.
  revert s. induction p as [|[|a] p IH]; intros [|c s] H Hq; simpl in *;
    try discriminate; auto.
  - apply andb_prop in H as [-> H]. simpl. auto.
  - apply andb_prop in H as [-> H]. simpl. auto.
Qed.

Lemma is_digit_not a c :
  is_digit a = false -> is_digit c = true -> Ascii.eqb c a = false.
Proof.
  intros Ha Hc. destruct (Ascii.eqb_spec c a) as [->|]; [congruence|reflexivity].
Qed.

Lemma replace_first_avoids a b p s :
  is_digit a = false -> avoids a p -> matches p s = true ->
  replace_first a b s = s.
Proof.
  intros Ha Hp. revert s.
  induction Hp as [|[|x] p Hx Hp IH]; intros [|c s] H; simpl in *;
    try discriminate; try reflexivity.
  - apply andb_prop in H as [Hc H]. rewrite (is_digit_not _ _ Ha Hc).
    f_equal. auto.
  - apply andb_prop in H as [Hc H]. apply Ascii.eqb_eq in Hc. subst c.
    destruct (Ascii.eqb_spec x a); [contradiction|]. f_equal. auto.
Qed.

Lemma replace_first_separator a b p q s :
  is_digit a = false -> avoids a p ->
  matches (p ++ Lit a :: q) s = true ->
  matches (p ++ Lit b :: q) (replace_first a b s) = true.
Proof.
  intros Ha Hp. revert s.
  induction Hp as [|[|x] p Hx Hp IH]; intros [|c s] H; simpl in *;
    try discriminate.
  - apply andb_prop in H as [Hc H]. apply Ascii.eqb_eq in Hc. subst c.
    rewrite Ascii.eqb_refl. simpl. rewrite Ascii.eqb_refl. exact H.
  - apply andb_prop in H as [Hc H]. rewrite (is_digit_not _ _ Ha Hc).
    simpl. rewrite Hc. simpl. auto.
  - apply andb_prop in H as [Hc H]. apply Ascii.eqb_eq in Hc. subst c.
    destruct (Ascii.eqb_spec x a); [contradiction|].
    simpl. rewrite Ascii.eqb_refl. simpl. auto.
Qed.

Lemma strip_final_Z_digit p s :
  ends_in_digit p = true -> matches p s = true -> strip_final_Z s = s.
Proof.
  revert s. induction p as [|x p IH]; intros s He H; [discriminate|].
  destruct s as [|c s]; [reflexivity|].
  destruct p as [|y p].
  - destruct x; [|discriminate]. simpl in H.
    apply andb_prop in H as [Hc H]. destruct s; [|discriminate].
    simpl. destruct (Ascii.eqb_spec c "Z") as [->|]; [discriminate|].
    destruct (Ascii.eqb_spec c "z") as [->|]; [discriminate|]. reflexivity.
  - assert (Hs : matches (y :: p) s = true).
    { destruct x; simpl in H; apply andb_prop in H as [_ H]; exact H. }
    assert (He' : ends_in_digit (y :: p) = true) by (destruct x; exact He).
    specialize (IH s He' Hs).
    destruct s as [|d s]; [destruct y; discriminate|].
    change (String c (strip_final_Z (String d s)) = String c (String d s)).
    now rewrite IH.
Qed.

Lemma normalise_tail s :
  let r := if matches DATE_SECONDS s then s else EmptyString in
  r = EmptyString \/ (matches DATE_SECONDS r = true /\ String.length r = 19%nat).
Proof.
  cbv zeta. destruct (matches DATE_SECONDS s) eqn:H; [right|left; reflexivity].
  split; [exact H|]. now apply matches_length in H.
Qed.

Lemma normalizeExpiry_shape (trim : string -> string) (e : option string) :
  normalizeExpiry trim e = EmptyString \/
  (matches DATE_SECONDS (normalizeExpiry trim e) = true /\
   String.length (normalizeExpiry trim e) = 19%nat).
Proof.
  unfold normalizeExpiry. destruct e as [e|]; [|left; reflexivity].
  destruct (decide (e = EmptyString)); [left; reflexivity|].
  destruct (decide (trim e = EmptyString)); [left; reflexivity|].
  apply normalise_tail.
Qed.

(** X17. Whatever is submitted as an expiry, the POST and the PUT handler
    store the same value, and it is either the empty string or a
    19-character [YYYY-MM-DD HH:MM:SS] string of digits. *)
Theorem stored_expiry_is_well_formed (trim : string -> string) (e : option string) :
  normalize trim e = normalizeExpiry trim e /\
  (normalizeExpiry trim e = EmptyString \/
   (matches DATE_SECONDS (normalizeExpiry trim e) = true /\
    String.length (normalizeExpiry trim e) = 19%nat)).
Proof.
  split.
  - unfold normalize, normalizeExpiry. destruct e as [e|]; [|reflexivity].
    destruct (decide (e = EmptyString)); [reflexivity|].
    destruct (decide (trim e = EmptyString)) as [->|]; reflexivity.
  - apply normalizeExpiry_shape.
Qed.

Lemma DATE_SECONDS_avoids_T : avoids "T" DATE_SECONDS.
Proof. repeat constructor; discriminate. Qed.

Lemma normalizeExpiry_fixed (trim : string -> string) (s : string) :
  trim s = s -> matches DATE_SECONDS s = true ->
  normalizeExpiry trim (Some s) = s.
Proof.
  intros Ht Hs. unfold normalizeExpiry.
  destruct (decide (s = EmptyString)) as [->|]; [discriminate|].
  rewrite Ht. destruct (decide (s = EmptyString)); [contradiction|].
  rewrite (replace_first_avoids "T" " " DATE_SECONDS s eq_refl DATE_SECONDS_avoids_T Hs).
  destruct (matches DATE_MINUTES s) eqn:Hm.
  { apply matches_length in Hm. apply matches_length in Hs.
    rewrite Hm in Hs. discriminate. }
  rewrite (strip_final_Z_digit DATE_SECONDS s eq_refl Hs). now rewrite Hs.
Qed.

(** X18. Normalising is idempotent: a stored expiry that is submitted again
    is stored unchanged, provided [trim] leaves a well-formed timestamp
    alone. *)
Theorem normalizeExpiry_idempotent (trim : string -> string) (e : option string) :
  (forall s, matches DATE_SECONDS s = true -> trim s = s) ->
  normalizeExpiry trim (Some (normalizeExpiry trim e)) = normalizeExpiry trim e.
Proof.
  intros Htrim.
  destruct (normalizeExpiry_shape trim e) as [->|[Hm _]].
  - reflexivity.
  - apply normalizeExpiry_fixed; auto.
Qed.

Lemma is_digit_not_space c : is_digit c = true -> is_space c = false.
Proof.
  unfold is_digit, is_space. intros H. apply andb_prop in H as [H1 H2].
  apply Nat.leb_le in H1. apply Nat.leb_le in H2.
  apply orb_false_iff. split.
  - apply Nat.eqb_neq. lia.
  - apply andb_false_iff. right. apply Nat.leb_gt. lia.
Qed.

Lemma trim_end_digit p s :
  ends_in_digit p = true -> matches p s = true ->
  trim_end s = s /\ s <> EmptyString.
Proof.
  revert s. induction p as [|x p IH]; intros s He H; [discriminate|].
  destruct s as [|c s]; [destruct x; discriminate|].
  split; [|discriminate].
  destruct p as [|y p].
  - destruct x; [|discriminate]. simpl in H.
    apply andb_prop in H as [Hc H]. destruct s; [|discriminate].
    simpl. now rewrite (is_digit_not_space _ Hc).
  - assert (Hs : matches (y :: p) s = true).
    { destruct x; simpl in H; apply andb_prop in H as [_ H]; exact H. }
    assert (He' : ends_in_digit (y :: p) = true) by (destruct x; exact He).
    destruct (IH s He' Hs) as [IH1 IH2].
    simpl. rewrite IH1. destruct s; [contradiction|reflexivity].
Qed.

(** The sample [trim] leaves a well-formed timestamp alone. *)
Lemma trim_ascii_fixes s : matches DATE_SECONDS s = true -> trim_ascii s = s.
Proof.
  intros H. unfold trim_ascii.
  assert (Hs : trim_start s = s).
  { destruct s as [|c s]; [reflexivity|]. simpl in H.
    apply andb_prop in H as [Hc _]. simpl.
    now rewrite (is_digit_not_space _ Hc). }
  rewrite Hs. exact (proj1 (trim_end_digit DATE_SECONDS s eq_refl H)).
Qed.

Lemma normalizeExpiry_idempotent_witness :
  normalizeExpiry trim_ascii
    (Some (normalizeExpiry trim_ascii (Some "  2025-01-01T10:30Z "))) =
  normalizeExpiry trim_ascii (Some "  2025-01-01T10:30Z ") /\
  normalizeExpiry trim_ascii
    (Some (normalizeExpiry trim_ascii (Some " 2025-01-01T10:30:15z"))) =
  "2025-01-01 10:30:15".
Proof.
  split.
  - apply (normalizeExpiry_idempotent trim_ascii (Some "  2025-01-01T10:30Z ")).
    exact trim_ascii_fixes.
  - rewrite (normalizeExpiry_idempotent trim_ascii
               (Some " 2025-01-01T10:30:15z") trim_ascii_fixes).
    reflexivity.
Defined.

Lemma replace_first_length a b s :
  String.length (replace_first a b s) = String.length s.
Proof.
  induction s as [|c s IH]; [reflexivity|]. simpl.
  destruct (Ascii.eqb c a); simpl; [reflexivity|now rewrite IH].
Qed.

Lemma append_length s t :
  String.length (String.append s t) = (String.length s + String.length t)%nat.
Proof. induction s as [|c s IH]; simpl; [reflexivity|now rewrite IH]. Qed.

Lemma strip_final_Z_length s :
  (String.length (strip_final_Z s) <= String.length s)%nat.
Proof.
  induction s as [|c s IH]; [reflexivity|].
  destruct s as [|d s].
  - simpl. destruct (_ || _); simpl; lia.
  - change (S (String.length (strip_final_Z (String d s))) <= S (String.length (String d s)))%nat.
    lia.
Qed.

(** X19. A timestamp in the [YYYY-MM-DDTHH:MM] form is accepted: it is
    stored with a space for the [T] and with [:00] for the seconds.  The same
    form followed by [Z] is rejected, because the zone letter is removed only
    after the seconds have been added. *)
Theorem minute_precision_expiry (trim : string -> string) (s : string) :
  matches DATE_LOCAL s = true ->
  (trim s = s ->
   normalizeExpiry trim (Some s) = String.append (replace_first "T" " " s) ":00" /\
   matches DATE_SECONDS (normalizeExpiry trim (Some s)) = true) /\
  (trim (String.append s "Z") = String.append s "Z" ->
   normalizeExpiry trim (Some (String.append s "Z")) = EmptyString).
Proof.
  intros Hs.
  assert (Hm : matches DATE_MINUTES (replace_first "T" " " s) = true).
  { apply (replace_first_separator "T" " "
             [Digit; Digit; Digit; Digit; Lit "-"; Digit; Digit; Lit "-"; Digit; Digit]
             [Digit; Digit; Lit ":"; Digit; Digit] s eq_refl);
      [repeat constructor; discriminate|exact Hs]. }
  split.
  - intros Ht. unfold normalizeExpiry.
    destruct (decide (s = EmptyString)) as [->|]; [discriminate|].
    rewrite Ht. destruct (decide (s = EmptyString)); [contradiction|].
    rewrite Hm.
    assert (Hsec : matches DATE_SECONDS
                     (String.append (replace_first "T" " " s) ":00") = true).
    { apply (matches_app DATE_MINUTES [Lit ":"; Digit; Digit]); [exact Hm|reflexivity]. }
    rewrite (strip_final_Z_digit DATE_SECONDS _ eq_refl Hsec).
    rewrite Hsec. split; [reflexivity|exact Hsec].
  - intros Ht. unfold normalizeExpiry.
    destruct (decide (String.append s "Z" = EmptyString)); [reflexivity|].
    rewrite Ht.
    destruct (decide (String.append s "Z" = EmptyString)); [contradiction|].
    set (r := replace_first "T" " " (String.append s "Z")).
    assert (Hr : String.length r = 17%nat).
    { subst r. rewrite replace_first_length, append_length.
      apply matches_length in Hs. rewrite Hs. reflexivity. }
    destruct (matches DATE_MINUTES r) eqn:H1.
    { apply matches_length in H1. rewrite Hr in H1. discriminate. }
    destruct (matches DATE_SECONDS (strip_final_Z r)) eqn:H2; [|reflexivity].
    apply matches_length in H2. pose proof (strip_final_Z_length r) as Hl.
    rewrite H2, Hr in Hl. simpl in Hl. lia.
Qed.

Lemma minute_precision_expiry_witness :
  normalizeExpiry trim_ascii (Some "2030-06-15T08:45") = "2030-06-15 08:45:00" /\
  normalizeExpiry trim_ascii (Some "2030-06-15T08:45Z") = "".
Proof.
  destruct (minute_precision_expiry trim_ascii "2030-06-15T08:45" eq_refl) as [H1 H2].
  split.
  - exact (proj1 (H1 eq_refl)).
  - exact (H2 eq_refl).
Defined.

(** * POST /api/users *)

Lemma or_str_nonempty a b : a <> EmptyString \/ b <> EmptyString -> or_str a b <> EmptyString.
Proof. unfold or_str. destruct (decide (a = EmptyString)); tauto. Qed.

Lemma with_usage_fields store u :
  u_id (with_usage store u) = u_id u
  /\ u_username (with_usage store u) = u_username u
  /\ u_uuid (with_usage store u) = u_uuid u
  /\ u_statKey (with_usage store u) = u_statKey u
  /\ u_enabled (with_usage store u) = u_enabled u.
Proof. unfold with_usage. by destruct (store !! u_uuid u). Qed.

Lemma with_usage_usernames store (us : list user) :
  u_username <$> (with_usage store <$> us) = u_username <$> us.
Proof.
  rewrite <- list_fmap_compose. apply list_fmap_ext. intros _ x _. simpl.
  apply with_usage_fields.
Qed.

Lemma with_usage_ids store (us : list user) :
  omap u_id (with_usage store <$> us) = omap u_id us.
Proof.
  induction us as [|x us IH]; [done|]. cbn in IH |- *.
  rewrite (proj1 (with_usage_fields store x)). destruct (u_id x); by rewrite IH.
Qed.

(** A store the loop of [baseLoadUsers] finds nothing to repair in. *)
Lemma normalize_loop_false maxId np users l :
  normalize_loop maxId np users = (l, false) ->
  Forall (fun u => is_Some (u_id u) /\ u_statKey u <> EmptyString) users.
Proof.
  revert maxId np l. induction users as [|u rest IH]; intros maxId np l; [constructor|].
  rewrite normalize_loop_cons. cbn zeta.
  destruct (normalize_loop _ _ rest) as [r b] eqn:Hr. cbn [fst snd].
  intros [= <- ->]. pose proof Hr as Hr'. apply normalize_loop_clean in Hr' as [_ Hnp].
  constructor; [|by eapply IH].
  destruct (u_id u) as [x|]; [|done]. split; [by eexists|].
  by destruct (decide (u_statKey u = EmptyString)).
Qed.

Lemma needPersist_of_false us :
  needPersist_of us = false <->
  Forall (fun u => is_Some (u_id u) /\ u_statKey u <> EmptyString) us.
Proof.
  unfold needPersist_of. split.
  - destruct (normalize_loop (maxId_of us) false us) as [l b] eqn:Hn. simpl.
    intros ->. by eapply normalize_loop_false.
  - intros Hall. by rewrite normalize_loop_complete.
Qed.

(** X20. POST /api/users with a non-empty username that is not stored yet
    answers 200 and writes the user store once: the stored records, with
    their usage fields refreshed, followed by one new record.  The new
    record is enabled, carries the submitted username and a non-empty
    [statKey], and its id is positive and greater than every stored id; so
    distinct usernames and distinct ids stay distinct, and a store that
    [baseLoadUsers] had nothing to repair in still needs no repair.  The
    accumulator store is not written. *)
Theorem add_user_appends_a_complete_record
    (trim : string -> string) n d e q uuid w us :
  users_file w = Some us -> n <> EmptyString -> n ∉ u_username <$> us ->
  exists new,
    let us' := (with_usage (default ∅ (usage_file w)) <$> us) ++ [new] in
    add_user trim n d e q uuid w
    = (Some S200,
       MkWorld (Some us') (usage_file w)
               (Write USERS_FILE :: Read USAGE_FILE :: Read USERS_FILE :: io w)
               (_cachedEnriched w) (_cacheStamp w) (_isAggregating w))
    /\ u_username new = n /\ u_uuid new = uuid /\ u_enabled new = Some true
    /\ u_expiry new = normalizeExpiry trim e
    /\ u_statKey new <> EmptyString
    /\ (exists k, u_id new = Some k /\ 0 < k /\ forall x, x ∈ omap u_id us -> x < k)
    /\ (NoDup (u_username <$> us) -> NoDup (u_username <$> us'))
    /\ (NoDup (omap u_id us) -> NoDup (omap u_id us'))
    /\ (needPersist_of us = false -> needPersist_of us' = false).
Proof.
  intros Hus Hn Hin.
  set (st := default ∅ (usage_file w)).
  set (rec := User (Some (maxId_of us + 1)) n uuid d (normalizeExpiry trim e)
                   (Some (default (-1)%Q q)) (Some true)
                   (or_str d (or_str n uuid)) None None).
  exists (with_usage st rec). cbv zeta.
  destruct (with_usage_fields st rec) as (Hid & Hname & Huuid & Hkey & Hen).
  assert (Hexp : u_expiry (with_usage st rec) = normalizeExpiry trim e).
  { unfold with_usage. by destruct (st !! u_uuid rec). }
  assert (Hmax : 0 <= maxId_of us) by exact (proj1 (maxId_of_fold 0 us)).
  split; [|split; [|split; [|split; [|split; [|split; [|split; [|split; [|split]]]]]]]].
  - unfold add_user. rewrite decide_False by done.
    unfold try_catch, bind at 1, readJson_USERS_FILE. rewrite Hus.
    rewrite (find_none n us Hin). unfold bind. rewrite accumulateUsage_run.
    cbn. by rewrite fmap_app.
  - by rewrite Hname.
  - by rewrite Huuid.
  - by rewrite Hen.
  - exact Hexp.
  - rewrite Hkey. apply or_str_nonempty. right. apply or_str_nonempty. by left.
  - exists (maxId_of us + 1). split; [by rewrite Hid|]. split; [lia|].
    intros x Hx. apply maxId_of_bound in Hx. lia.
  - intros Hnd. rewrite fmap_app, with_usage_usernames. apply NoDup_app.
    split; [done|]. split; [|apply NoDup_singleton].
    intros x Hx. cbn. rewrite Hname. cbn.
    intros ->%list_elem_of_singleton. done.
  - intros Hnd. rewrite omap_app, with_usage_ids. apply NoDup_app.
    split; [done|]. split; [|cbn; rewrite Hid; apply NoDup_singleton].
    intros x Hx. cbn. rewrite Hid. cbn. intros ->%list_elem_of_singleton.
    apply maxId_of_bound in Hx. lia.
  - rewrite !needPersist_of_false. intros Hall. apply Forall_app. split.
    + apply Forall_fmap. eapply Forall_impl; [exact Hall|]. intros x [Hx1 Hx2]. cbn.
      destruct (with_usage_fields st x) as (-> & _ & _ & -> & _). done.
    + constructor; [|constructor]. rewrite Hid, Hkey. split; [by eexists|].
      apply or_str_nonempty. right. apply or_str_nonempty. by left.
Qed.

Lemma add_user_appends_a_complete_record_witness :
  exists new,
    let w := boot (Some [alice; bob]) (Some ∅) in
    let us' := (with_usage (default ∅ (usage_file w)) <$> [alice; bob]) ++ [new] in
    add_user trim_ascii "erin" "" (Some "2031-01-01T00:00") None "uuid-e" w
    = (Some S200,
       MkWorld (Some us') (usage_file w)
               (Write USERS_FILE :: Read USAGE_FILE :: Read USERS_FILE :: io w)
               (_cachedEnriched w) (_cacheStamp w) (_isAggregating w))
    /\ u_username new = "erin" /\ u_uuid new = "uuid-e" /\ u_enabled new = Some true
    /\ u_expiry new = normalizeExpiry trim_ascii (Some "2031-01-01T00:00")
    /\ u_statKey new <> EmptyString
    /\ (exists k, u_id new = Some k /\ 0 < k
                  /\ forall x, x ∈ omap u_id [alice; bob] -> x < k)
    /\ (NoDup (u_username <$> [alice; bob]) -> NoDup (u_username <$> us'))
    /\ (NoDup (omap u_id [alice; bob]) -> NoDup (omap u_id us'))
    /\ (needPersist_of [alice; bob] = false -> needPersist_of us' = false).
Proof.
  apply (add_user_appends_a_complete_record trim_ascii "erin" ""
           (Some "2031-01-01T00:00") None "uuid-e"
           (boot (Some [alice; bob]) (Some ∅)) [alice; bob]).
  - reflexivity.
  - discriminate.
  - apply (bool_decide_unpack _). vm_compute. exact I.
Defined.

(** X21. POST /api/users is refused without a write: an empty username is
    answered 400 before anything is read; a username that is stored already
    is answered 400, and an unreadable user store 500, after the one read of
    the user store. *)
Theorem rejected_add_changes_nothing (trim : string -> string) n d e q uuid w :
  (n = EmptyString \/
   match users_file w with
   | Some us => n ∈ u_username <$> us
   | None => True
   end) ->
  add_user trim n d e q uuid w
  = if decide (n = EmptyString) then (Some S400, w)
    else (Some (match users_file w with Some _ => S400 | None => S500 end),
          log (Read USERS_FILE) w).
Proof.
  intros H. unfold add_user. destruct (decide (n = EmptyString)) as [|Hn]; [done|].
  destruct H as [|H]; [done|].
  unfold try_catch, bind, readJson_USERS_FILE.
  destruct (users_file w) as [us|]; [|done].
  apply list_elem_of_fmap in H as (u & Hu & Hin).
  apply list_elem_of_lookup in Hin as [i Hi].
  destruct (find_has_username n us i u Hi (eq_sym Hu)) as [x ->]. done.
Qed.

Lemma rejected_add_changes_nothing_witness :
  add_user trim_ascii "bob" "Bobby" None None "uuid-x" (boot (Some [alice; bob]) (Some ∅))
  = (Some S400, log (Read USERS_FILE) (boot (Some [alice; bob]) (Some ∅))).
Proof.
  apply (rejected_add_changes_nothing trim_ascii "bob" "Bobby" None None "uuid-x"
           (boot (Some [alice; bob]) (Some ∅))).
  right. apply (bool_decide_unpack _). vm_compute. exact I.
Defined.

(** * PUT /api/users/:username *)

Lemma findIndex_Some p (us : list user) i :
  findIndex p us = Some i -> exists u, us !! i = Some u /\ p u = true.
Proof.
  revert i. induction us as [|x us IH]; intros i; [done|]. simpl.
  destruct (p x) eqn:Hx.
  - intros [= <-]. by exists x.
  - destruct (findIndex p us) as [j|]; [|done]. intros [= <-].
    destruct (IH j eq_refl) as (u & Hu & Hp). by exists u.
Qed.

Lemma findIndex_None n (us : list user) :
  n ∉ u_username <$> us -> findIndex (has_username n) us = None.
Proof.
  induction us as [|x us IH]; [done|].
  rewrite fmap_cons. intros [Hx Hrest]%not_elem_of_cons. simpl.
  unfold has_username at 1. rewrite bool_decide_eq_false_2 by congruence.
  by rewrite IH.
Qed.

Lemma findIndex_is_Some n (us : list user) :
  n ∈ u_username <$> us -> is_Some (findIndex (has_username n) us).
Proof.
  induction us as [|x us IH]; [by intros ?%elem_of_nil|].
  rewrite fmap_cons. simpl. destruct (has_username n x) eqn:Hx; [by eexists|].
  intros [Hn|Hn]%elem_of_cons.
  - unfold has_username in Hx. by rewrite bool_decide_eq_true_2 in Hx.
  - destruct (IH Hn) as [j ->]. by eexists.
Qed.

Lemma existsb_has_username n (us : list user) :
  existsb (has_username n) us = bool_decide (n ∈ u_username <$> us).
Proof.
  induction us as [|x us IH]; [done|]. rewrite fmap_cons.
  change (existsb (has_username n) (x :: us))
    with (has_username n x || existsb (has_username n) us).
  rewrite IH. unfold has_username.
  destruct (decide (u_username x = n)) as [Hx|Hx].
  - rewrite bool_decide_eq_true_2 by done. simpl. symmetry.
    apply bool_decide_eq_true_2. subst n. apply elem_of_cons. by left.
  - rewrite bool_decide_eq_false_2 by done. simpl.
    apply bool_decide_ext. rewrite elem_of_cons.
    split; [by right|]. intros [->|?]; done.
Qed.

Lemma apply_body_fields (trim : string -> string) b u :
  u_id (apply_body trim b u) = u_id u
  /\ u_uuid (apply_body trim b u) = u_uuid u
  /\ u_statKey (apply_body trim b u) = u_statKey u
  /\ u_enabled (apply_body trim b u) = u_enabled u
  /\ u_usageAccumBytes (apply_body trim b u) = u_usageAccumBytes u
  /\ u_lastRawBytes (apply_body trim b u) = u_lastRawBytes u.
Proof.
  unfold apply_body.
  destruct (b_username b) as [n|]; [destruct (decide (trim n = EmptyString))|];
    destruct (b_displayName b), (b_expiry b), (b_quota b); done.
Qed.

Lemma apply_body_username (trim : string -> string) b u :
  u_username (apply_body trim b u)
  = match b_username b with
    | Some n => if decide (trim n = EmptyString) then u_username u else trim n
    | None => u_username u
    end.
Proof.
  unfold apply_body.
  destruct (b_username b) as [n|]; [destruct (decide (trim n = EmptyString))|];
    destruct (b_displayName b), (b_expiry b), (b_quota b); done.
Qed.

(** A PUT that passes the checks of the handler. *)
Lemma update_user_run (trim : string -> string) old b w us i :
  users_file w = Some us -> findIndex (has_username old) us = Some i ->
  (forall n, b_username b = Some n ->
             n = EmptyString \/ n = old \/ n ∉ u_username <$> us) ->
  exists prev us' tr,
    us !! i = Some prev /\ u_username prev = old
    /\ update_user trim old (Some b) w
       = (Some S200,
          MkWorld (Some us') (usage_file w)
                  (Write USERS_FILE :: tr ++ Read USERS_FILE :: io w)
                  (_cachedEnriched w) (_cacheStamp w) (_isAggregating w))
    /\ (tr = [] /\ us' = <[i := apply_body trim b prev]> us
        \/ tr = [Read USAGE_FILE]
           /\ us' = with_usage (default ∅ (usage_file w))
                      <$> <[i := apply_body trim b prev]> us).
Proof.
  intros Hus Hidx Hname.
  destruct (findIndex_Some _ us i Hidx) as (prev & Hprev & Hp).
  unfold has_username in Hp. apply bool_decide_eq_true_1 in Hp.
  unfold update_user, try_catch, bind at 1, readJson_USERS_FILE.
  rewrite Hus, Hidx, Hprev. cbn [mbind option_bind default].
  assert (Hcheck :
    negb (bool_decide (default EmptyString (b_username b) = EmptyString))
    && negb (bool_decide (default EmptyString (b_username b) = old))
    && existsb (has_username (default EmptyString (b_username b))) us = false).
  { destruct (b_username b) as [n|] eqn:Hn; [|done]. cbn [default].
    destruct (Hname n eq_refl) as [->|[->|Hnot]].
    - done.
    - rewrite (bool_decide_eq_true_2 (old = old)) by done.
      by rewrite andb_false_r.
    - rewrite existsb_has_username, (bool_decide_eq_false_2 _ Hnot).
      by rewrite andb_false_r. }
  rewrite Hcheck.
  match goal with
  | |- context [if ?c then accumulateUsage _ else _] => destruct c
  end.
  - exists prev, (with_usage (default ∅ (usage_file w)) <$> <[i := apply_body trim b prev]> us),
      [Read USAGE_FILE].
    split; [done|]. split; [done|]. split; [|by right].
    unfold bind. by rewrite accumulateUsage_run.
  - exists prev, (<[i := apply_body trim b prev]> us), [].
    split; [done|]. split; [done|]. split; [|by left]. done.
Qed.

(** X22. A PUT that names a stored user and does not rename them to another
    stored username answers 200 and writes the user store once, reading the
    accumulator store at most once and never writing it.  No record gains
    or loses its id, uuid, [statKey] or [enabled] flag, and every record
    but the first one with the old username is stored as it was, up to its
    two usage fields: a rename changes the username only. *)
Theorem update_user_keeps_identity (trim : string -> string) old b w us :
  users_file w = Some us -> old ∈ u_username <$> us ->
  (forall n, b_username b = Some n ->
             n = EmptyString \/ n = old \/ n ∉ u_username <$> us) ->
  exists us' tr i,
    update_user trim old (Some b) w
    = (Some S200,
       MkWorld (Some us') (usage_file w)
               (Write USERS_FILE :: tr ++ Read USERS_FILE :: io w)
               (_cachedEnriched w) (_cacheStamp w) (_isAggregating w))
    /\ (tr = [] \/ tr = [Read USAGE_FILE])
    /\ findIndex (has_username old) us = Some i
    /\ Forall2 (fun u u' => u_id u' = u_id u /\ u_uuid u' = u_uuid u
                           /\ u_statKey u' = u_statKey u
                           /\ u_enabled u' = u_enabled u) us us'
    /\ (forall j u, j <> i -> us !! j = Some u ->
          exists u', us' !! j = Some u'
                     /\ u' = set_usage (u_usageAccumBytes u') (u_lastRawBytes u') u).
Proof.
  intros Hus Hold Hname.
  destruct (findIndex_is_Some old us Hold) as [i Hidx].
  destruct (update_user_run trim old b w us i Hus Hidx Hname)
    as (prev & us' & tr & Hprev & Hp & Hrun & Hcases).
  exists us', tr, i. split; [exact Hrun|]. split; [tauto|]. split; [exact Hidx|].
  destruct (apply_body_fields trim b prev) as (Hid & Huuid & Hkey & Hen & _).
  assert (Hrel : Forall2 (fun u u' => u_id u' = u_id u /\ u_uuid u' = u_uuid u
                                      /\ u_statKey u' = u_statKey u
                                      /\ u_enabled u' = u_enabled u)
                         us (<[i := apply_body trim b prev]> us)).
  { apply Forall2_same_length_lookup_2; [by rewrite length_insert|].
    intros j u u' Hu Hu'. destruct (decide (j = i)) as [->|Hj].
    - rewrite list_lookup_insert_eq in Hu' by (by eapply lookup_lt_Some).
      injection Hu' as <-. rewrite Hprev in Hu. injection Hu as <-. done.
    - rewrite list_lookup_insert_ne in Hu' by done.
      rewrite Hu in Hu'. by injection Hu' as <-. }
  destruct Hcases as [[-> ->]|[-> ->]].
  - split; [exact Hrel|]. intros j u Hj Hu. exists u.
    rewrite list_lookup_insert_ne by done. split; [done|]. by destruct u.
  - split.
    + apply Forall2_fmap_r. eapply Forall2_impl; [exact Hrel|].
      intros u u' (H1 & H2 & H3 & H4). cbn.
      destruct (with_usage_fields (default ∅ (usage_file w)) u')
        as (-> & _ & -> & -> & ->). done.
    + intros j u Hj Hu. exists (with_usage (default ∅ (usage_file w)) u).
      rewrite list_lookup_fmap, list_lookup_insert_ne by done. rewrite Hu.
      split; [done|]. apply with_usage_rel.
Qed.

Lemma update_user_keeps_identity_witness :
  let w := boot (Some [alice; bob]) (Some {[ "uuid-a" := Entry 9 9 ]}) in
  let b := PutBody (Some "alicia") None (Some (Some "2031-01-01T00:00")) None in
  exists us' tr i,
    update_user trim_ascii "alice" (Some b) w
    = (Some S200,
       MkWorld (Some us') (usage_file w)
               (Write USERS_FILE :: tr ++ Read USERS_FILE :: io w)
               (_cachedEnriched w) (_cacheStamp w) (_isAggregating w))
    /\ (tr = [] \/ tr = [Read USAGE_FILE])
    /\ findIndex (has_username "alice") [alice; bob] = Some i
    /\ Forall2 (fun u u' => u_id u' = u_id u /\ u_uuid u' = u_uuid u
                           /\ u_statKey u' = u_statKey u
                           /\ u_enabled u' = u_enabled u) [alice; bob] us'
    /\ (forall j u, j <> i -> [alice; bob] !! j = Some u ->
          exists u', us' !! j = Some u'
                     /\ u' = set_usage (u_usageAccumBytes u') (u_lastRawBytes u') u).
Proof.
  apply (update_user_keeps_identity trim_ascii "alice"
           (PutBody (Some "alicia") None (Some (Some "2031-01-01T00:00")) None)
           (boot (Some [alice; bob]) (Some {[ "uuid-a" := Entry 9 9 ]})) [alice; bob]).
  - reflexivity.
  - apply (bool_decide_unpack _). vm_compute. exact I.
  - intros n [= <-]. right. right. apply (bool_decide_unpack _). vm_compute. exact I.
Defined.

Lemma update_user_usernames (trim : string -> string) old b w us i :
  users_file w = Some us -> findIndex (has_username old) us = Some i ->
  (forall n, b_username b = Some n ->
             n = EmptyString \/ n = old \/ n ∉ u_username <$> us) ->
  exists prev us',
    us !! i = Some prev /\ u_username prev = old
    /\ (update_user trim old (Some b) w).1 = Some S200
    /\ users_file (run (update_user trim old (Some b)) w) = Some us'
    /\ u_username <$> us'
       = <[i := u_username (apply_body trim b prev)]> (u_username <$> us).
Proof.
  intros Hus Hidx Hname.
  destruct (update_user_run trim old b w us i Hus Hidx Hname)
    as (prev & us' & tr & Hprev & Hp & Hrun & Hcases).
  exists prev, us'. unfold run. rewrite Hrun. cbn.
  split; [done|]. split; [done|]. split; [done|]. split; [done|].
  destruct Hcases as [[_ ->]|[_ ->]].
  - by rewrite list_fmap_insert.
  - by rewrite with_usage_usernames, list_fmap_insert.
Qed.

Lemma NoDup_insert_fresh (l : list string) i x y :
  NoDup l -> l !! i = Some x -> y = x \/ y ∉ l -> NoDup (<[i := y]> l).
Proof.
  intros Hnd Hi [->|Hy]; [by rewrite list_insert_id|].
  rewrite insert_take_drop by (by eapply lookup_lt_Some).
  rewrite <- (take_drop_middle l i x Hi) in Hnd, Hy.
  apply NoDup_app in Hnd as (H1 & H2 & H3).
  apply NoDup_cons in H3 as [H3 H4].
  apply not_elem_of_app in Hy as [Hy1 Hy2].
  apply not_elem_of_cons in Hy2 as [_ Hy2].
  apply NoDup_app. split; [done|]. split.
  - intros z Hz [->|Hz']%elem_of_cons; [done|].
    apply (H2 z Hz). apply elem_of_cons. by right.
  - by apply NoDup_cons.
Qed.

(** X23. Whatever a PUT request asks for and however it is answered, a
    user store with distinct usernames has distinct usernames afterwards,
    provided the new username, if one is submitted, has no white space for
    [trim] to remove. *)
Theorem rename_keeps_usernames_distinct (trim : string -> string) old body w us :
  users_file w = Some us -> NoDup (u_username <$> us) ->
  (forall b n, body = Some b -> b_username b = Some n -> trim n = n) ->
  exists us',
    users_file (run (update_user trim old body) w) = Some us'
    /\ length us' = length us
    /\ NoDup (u_username <$> us').
Proof.
  intros Hus Hnd Htrim.
  destruct (findIndex (has_username old) us) as [i|] eqn:Hidx; cycle 1.
  { exists us. unfold run, update_user, try_catch, bind, readJson_USERS_FILE.
    by rewrite Hus, Hidx. }
  destruct (findIndex_Some _ us i Hidx) as (prev & Hprev & Hp).
  destruct body as [b|]; cycle 1.
  { exists us. unfold run, update_user, try_catch, bind, readJson_USERS_FILE.
    by rewrite Hus, Hidx, Hprev. }
  assert (Hdec :
    (forall n, b_username b = Some n ->
               n = EmptyString \/ n = old \/ n ∉ u_username <$> us)
    \/ exists n, b_username b = Some n /\ n <> EmptyString /\ n <> old
                 /\ n ∈ u_username <$> us).
  { destruct (b_username b) as [n|]; [|by left].
    destruct (decide (n = EmptyString)); [left; intros ? [= <-]; by left|].
    destruct (decide (n = old)); [left; intros ? [= <-]; right; by left|].
    destruct (decide (n ∈ u_username <$> us)); [right; by exists n|].
    left. intros ? [= <-]. right. by right. }
  destruct Hdec as [Hname|(n & Hn & Hn1 & Hn2 & Hn3)].
  - destruct (update_user_usernames trim old b w us i Hus Hidx Hname)
      as (prev' & us' & Hprev' & Hold & _ & Hfile & Hnames).
    exists us'. split; [done|]. split.
    { apply (f_equal length) in Hnames.
      by rewrite length_insert, !length_fmap in Hnames. }
    rewrite Hnames. apply (NoDup_insert_fresh _ i (u_username prev')); [done| |].
    { by rewrite list_lookup_fmap, Hprev'. }
    rewrite apply_body_username. destruct (b_username b) as [n|] eqn:Hn; [|by left].
    destruct (decide (trim n = EmptyString)); [by left|].
    rewrite (Htrim b n eq_refl Hn).
    destruct (Hname n eq_refl) as [->|[->|Hnot]]; [|by left|by right].
    by rewrite (Htrim b EmptyString eq_refl Hn) in *.
  - exists us. split; [|done].
    unfold run, update_user, try_catch, bind, readJson_USERS_FILE.
    rewrite Hus, Hidx, Hprev. cbn [mbind option_bind default]. rewrite Hn. cbn [default].
    rewrite existsb_has_username, (bool_decide_eq_true_2 _ Hn3).
    rewrite (bool_decide_eq_false_2 _ Hn1), (bool_decide_eq_false_2 _ Hn2). done.
Qed.

Lemma rename_keeps_usernames_distinct_witness :
  let w := boot (Some [alice; bob]) (Some ∅) in
  let body := Some (PutBody (Some "alicia") None None None) in
  exists us',
    users_file (run (update_user trim_ascii "alice" body) w) = Some us'
    /\ length us' = length [alice; bob]
    /\ NoDup (u_username <$> us').
Proof.
  apply (rename_keeps_usernames_distinct trim_ascii "alice"
           (Some (PutBody (Some "alicia") None None None))
           (boot (Some [alice; bob]) (Some ∅)) [alice; bob]).
  - reflexivity.
  - apply (bool_decide_unpack _). vm_compute. exact I.
  - intros b n [= <-] [= <-]. reflexivity.
Defined.

(** X24. The duplicate check of PUT compares the submitted username as it
    is, while the handler stores it trimmed: a new username that is not
    stored itself but trims to the username of another stored user is
    accepted with 200, and the user store then lists that username twice. *)
Theorem padded_rename_creates_duplicate (trim : string -> string) old n b w us :
  users_file w = Some us -> old ∈ u_username <$> us ->
  b_username b = Some n -> n ∉ u_username <$> us ->
  trim n ∈ u_username <$> us -> trim n <> old -> trim n <> EmptyString ->
  exists us',
    (update_user trim old (Some b) w).1 = Some S200
    /\ users_file (run (update_user trim old (Some b)) w) = Some us'
    /\ ~ NoDup (u_username <$> us').
Proof.
  intros Hus Hold Hn Hnot Hin Hne Hne'.
  destruct (findIndex_is_Some old us Hold) as [i Hidx].
  assert (Hname : forall n', b_username b = Some n' ->
            n' = EmptyString \/ n' = old \/ n' ∉ u_username <$> us).
  { intros n' Hn'. rewrite Hn in Hn'. injection Hn' as <-. right. by right. }
  destruct (update_user_usernames trim old b w us i Hus Hidx Hname)
    as (prev & us' & Hprev & Hp & Hres & Hfile & Hnames).
  exists us'. split; [done|]. split; [done|].
  rewrite Hnames, apply_body_username, Hn, decide_False by done.
  apply list_elem_of_lookup in Hin as [j Hj].
  assert (Hji : j <> i).
  { intros ->. rewrite list_lookup_fmap, Hprev in Hj. cbn in Hj. congruence. }
  intros Hnd.
  apply Hji, (NoDup_lookup _ j i (trim n) Hnd).
  - by rewrite list_lookup_insert_ne.
  - rewrite list_lookup_insert_eq; [done|].
    rewrite length_fmap. by eapply lookup_lt_Some.
Qed.

Lemma padded_rename_creates_duplicate_witness :
  let w := boot (Some [alice; bob]) (Some ∅) in
  let b := PutBody (Some " bob") None None None in
  exists us',
    (update_user trim_ascii "alice" (Some b) w).1 = Some S200
    /\ users_file (run (update_user trim_ascii "alice" (Some b)) w) = Some us'
    /\ ~ NoDup (u_username <$> us').
Proof.
  apply (padded_rename_creates_duplicate trim_ascii "alice" " bob"
           (PutBody (Some " bob") None None None)
           (boot (Some [alice; bob]) (Some ∅)) [alice; bob]).
  - reflexivity.
  - apply (bool_decide_unpack _). vm_compute. exact I.
  - reflexivity.
  - apply (bool_decide_unpack _). vm_compute. exact I.
  - apply (bool_decide_unpack _). vm_compute. exact I.
  - discriminate.
  - discriminate.
Defined.

(** X25. A PUT is refused after the one read of the user store and without
    a write: 500 when the user store is unreadable, 404 when no stored
    user has the old username, 400 when the new username belongs to a
    stored user, and 500 when the request has no body. *)
Theorem rejected_update_changes_nothing (trim : string -> string) old body w :
  match users_file w with
  | None => True
  | Some us =>
      old ∉ u_username <$> us
      \/ body = None
      \/ exists b n, body = Some b /\ b_username b = Some n /\ n <> EmptyString
                     /\ n <> old /\ n ∈ u_username <$> us
  end ->
  update_user trim old body w
  = (Some (match users_file w with
           | None => S500
           | Some us =>
               if decide (old ∈ u_username <$> us)
               then match body with None => S500 | Some _ => S400 end
               else S404
           end),
     log (Read USERS_FILE) w).
Proof.
  intros H. unfold update_user, try_catch, bind, readJson_USERS_FILE.
  destruct (users_file w) as [us|]; [|done].
  destruct (decide (old ∈ u_username <$> us)) as [Hold|Hold].
  - destruct (findIndex_is_Some old us Hold) as [i Hidx]. rewrite Hidx.
    destruct (findIndex_Some _ us i Hidx) as (prev & -> & _).
    destruct H as [H|[->|(b & n & -> & Hn & Hn1 & Hn2 & Hn3)]]; [done|done|].
    cbn [mbind option_bind default]. rewrite Hn. cbn [default].
    rewrite existsb_has_username, (bool_decide_eq_true_2 _ Hn3).
    rewrite (bool_decide_eq_false_2 _ Hn1), (bool_decide_eq_false_2 _ Hn2). done.
  - by rewrite (findIndex_None old us Hold).
Qed.

Lemma rejected_update_changes_nothing_witness :
  update_user trim_ascii "alice" None (boot (Some [alice; bob]) (Some ∅))
  = (Some S500, log (Read USERS_FILE) (boot (Some [alice; bob]) (Some ∅)))
  /\ update_user trim_ascii "alice" (Some (PutBody (Some "bob") None None None))
       (boot (Some [alice; bob]) (Some ∅))
     = (Some S400, log (Read USERS_FILE) (boot (Some [alice; bob]) (Some ∅))).
Proof.
  split.
  - apply (rejected_update_changes_nothing trim_ascii "alice" None
             (boot (Some [alice; bob]) (Some ∅))).
    right. left. reflexivity.
  - apply (rejected_update_changes_nothing trim_ascii "alice"
             (Some (PutBody (Some "bob") None None None))
             (boot (Some [alice; bob]) (Some ∅))).
    right. right. exists (PutBody (Some "bob") None None None), "bob".
    split; [reflexivity|]. split; [reflexivity|]. split; [discriminate|].
    split; [discriminate|]. apply (bool_decide_unpack _). vm_compute. exact I.
Defined.

(** * GET /api/users *)

Lemma request_cycle_frame s :
  _cachedEnriched (sys_world (request_cycle s)) = _cachedEnriched (sys_world s)
  /\ _cacheStamp (sys_world (request_cycle s)) = _cacheStamp (sys_world s)
  /\ usage_file (sys_world (request_cycle s)) = usage_file (sys_world s)
  /\ nwrites USAGE_FILE (io (sys_world (request_cycle s)))
     = nwrites USAGE_FILE (io (sys_world s)).
Proof.
  destruct s as [w susp]. unfold request_cycle. cbn [sys_world sys_suspended].
  destruct (_isAggregating w) eqn:Hfl.
  - unfold aggregate_begin. by rewrite Hfl.
  - destruct (users_file w) as [us|] eqn:Hus.
    + rewrite (aggregate_begin_run w us Hus Hfl). cbn.
      repeat (split; [done|]). unfold nwrites. cbn.
      by destruct (needPersist_of us).
    + by rewrite (aggregate_begin_fail w Hus Hfl).
Qed.

Section GetUsers.

Variable Date_parse : string -> option Z.

(** X26. In a state the process can reach and with a published snapshot,
    GET /api/users answers from the snapshot as it was when the request
    arrived, also when the request itself starts a cycle.  The handler
    leaves the snapshot, its stamp and the accumulator store alone, the
    state it leaves is one the process can reach, with at most one cycle
    in flight, and it is the state it found unless the snapshot is older
    than two aggregation intervals and no cycle is in flight. *)
Theorem get_users_answers_from_the_snapshot now s :
  reachable Date_parse s -> _cachedEnriched (sys_world s) <> [] ->
  let s' := (get_users now s).2 in
  (get_users now s).1 = Some (FromCache (_cachedEnriched (sys_world s)))
  /\ _cachedEnriched (sys_world s') = _cachedEnriched (sys_world s)
  /\ _cacheStamp (sys_world s') = _cacheStamp (sys_world s)
  /\ usage_file (sys_world s') = usage_file (sys_world s)
  /\ nwrites USAGE_FILE (io (sys_world s')) = nwrites USAGE_FILE (io (sys_world s))
  /\ reachable Date_parse s'
  /\ (length (sys_suspended s') <= 1)%nat
  /\ (now - _cacheStamp (sys_world s) <= 2 * AGG_INTERVAL_MS
      \/ _isAggregating (sys_world s) = true -> s' = s).
Proof.
  intros Hs Hcache. cbv zeta. unfold get_users.
  destruct (request_cycle_frame s) as (Hc & Hst & Hu & Hw).
  pose proof (reachable_step Date_parse EvAggregate s Hs) as Hs1. cbn [handle] in Hs1.
  destruct (_cachedEnriched (sys_world s)) as [|row rows] eqn:Hrows; [done|].
  destruct ((now - _cacheStamp (sys_world s) >? AGG_INTERVAL_MS * 2)
            && negb (_isAggregating (sys_world s))) eqn:Hstale.
  - rewrite Hc. cbn [fst snd]. rewrite Hc.
    repeat (split; [done|]).
    split.
    { pose proof (reachable_flag Date_parse _ Hs1) as Hlen.
      destruct (_isAggregating (sys_world (request_cycle s))); lia. }
    apply andb_prop in Hstale as [Hgt Hfl]. apply Z.gtb_lt in Hgt.
    unfold AGG_INTERVAL_MS in *.
    intros [Hfresh|Hflag]; [lia|]. rewrite Hflag in Hfl. discriminate.
  - rewrite Hrows. cbn [fst snd]. rewrite Hrows.
    repeat (split; [done|]).
    split; [|done].
    pose proof (reachable_flag Date_parse _ Hs) as Hlen.
    destruct (_isAggregating (sys_world s)); lia.
Qed.

(** X27. After a cycle that starts with no cycle in flight and completes
    with no request served in between, over a non-empty user store with
    distinct ids and uuids, GET /api/users?diag=raw answers from the
    snapshot without touching a file, and its rows are the rows of the user
    store as the cycle left it: id, username, expiry, quota and enabled
    flag of each persisted record, in order. *)
Theorem diag_raw_matches_the_user_store obs now w us :
  users_file w = Some us -> _isAggregating w = false -> us <> [] ->
  NoDup (omap u_id us) -> NoDup (u_uuid <$> us) ->
  let w' := run (aggregate Date_parse obs now) w in
  exists us',
    users_file w' = Some us'
    /\ get_users_raw w' = (Some (map raw_of us'), w').
Proof.
  intros Hus Hfl Hne Hids Hnd w'. subst w'.
  assert (run (aggregate Date_parse obs now) w = cycle_world Date_parse obs now w us)
    as Hrun by (unfold run; by rewrite (aggregate_run Date_parse obs now w us Hus Hfl)).
  rewrite Hrun.
  exists (cycle_flags Date_parse obs now w us).1. split; [done|].
  assert (Hrows : map (fun r => raw_of (e_user r)) (cycle_snapshot Date_parse obs now w us)
                  = map raw_of (cycle_flags Date_parse obs now w us).1).
  { apply list_eq. intros i. rewrite !list_lookup_fmap.
    destruct (us !! i) as [u|] eqn:Hi.
    - destruct (cycle_row_and_record Date_parse obs now w us i u Hids Hnd Hi)
        as (u0 & row & b & _ & _ & -> & Hrow & ->).
      cbn. by rewrite Hrow.
    - assert (Hlen1 : length (cycle_snapshot Date_parse obs now w us) = length us).
      { unfold cycle_snapshot. rewrite length_map.
        pose proof (worker_users obs 0 (normalized us) (default ∅ (usage_file w)) false) as Hl.
        apply Forall2_length in Hl. unfold cycle_worker. rewrite <- Hl.
        pose proof (normalize_loop_rel (maxId_of us) false us) as Hl'.
        apply Forall2_length in Hl'. by rewrite Hl'. }
      assert (Hlen2 : length (cycle_flags Date_parse obs now w us).1 = length us).
      { unfold cycle_flags. rewrite flags_loop_fst, length_fmap.
        pose proof (normalize_loop_rel (maxId_of us) false us) as Hl'.
        apply Forall2_length in Hl'. by rewrite Hl'. }
      apply lookup_ge_None in Hi.
      rewrite (proj2 (lookup_ge_None _ i)) by lia.
      by rewrite (proj2 (lookup_ge_None (cycle_flags Date_parse obs now w us).1 i)) by lia. }
  unfold get_users_raw. cbn [cycle_world _cachedEnriched].
  destruct (cycle_snapshot Date_parse obs now w us) as [|row rows] eqn:Hsnap.
  - exfalso. destruct us as [|u us]; [done|].
    destruct (cycle_row_and_record Date_parse obs now w (u :: us) 0 u Hids Hnd eq_refl)
      as (u0 & row & b & _ & _ & Hrow & _).
    by rewrite Hsnap in Hrow.
  - by rewrite Hrows.
Qed.

End GetUsers.

Lemma get_users_answers_from_the_snapshot_witness :
  let s := handle no_dates (EvSettled 0 (fun _ => traffic "alice" 10 20) 1000)
             (handle no_dates EvAggregate
                (MkSystem (boot (Some [alice]) (Some ∅)) [])) in
  let s' := (get_users 20000 s).2 in
  (get_users 20000 s).1 = Some (FromCache (_cachedEnriched (sys_world s)))
  /\ _cachedEnriched (sys_world s') = _cachedEnriched (sys_world s)
  /\ _cacheStamp (sys_world s') = _cacheStamp (sys_world s)
  /\ usage_file (sys_world s') = usage_file (sys_world s)
  /\ nwrites USAGE_FILE (io (sys_world s')) = nwrites USAGE_FILE (io (sys_world s))
  /\ reachable no_dates s'
  /\ (length (sys_suspended s') <= 1)%nat
  /\ (20000 - _cacheStamp (sys_world s) <= 2 * AGG_INTERVAL_MS
      \/ _isAggregating (sys_world s) = true -> s' = s).
Proof.
  apply (get_users_answers_from_the_snapshot no_dates 20000
           (handle no_dates (EvSettled 0 (fun _ => traffic "alice" 10 20) 1000)
              (handle no_dates EvAggregate
                 (MkSystem (boot (Some [alice]) (Some ∅)) [])))).
  - apply reachable_step, reachable_step. apply (reachable_init no_dates).
  - vm_compute. discriminate.
Defined.

Lemma diag_raw_matches_the_user_store_witness :
  let w := boot (Some [alice; bob]) (Some ∅) in
  let w' := run (aggregate no_dates (fun _ => traffic "bob" 1073741824 5) 1000) w in
  exists us',
    users_file w' = Some us'
    /\ get_users_raw w' = (Some (map raw_of us'), w').
Proof.
  apply (diag_raw_matches_the_user_store no_dates
           (fun _ => traffic "bob" 1073741824 5) 1000
           (boot (Some [alice; bob]) (Some ∅)) [alice; bob]).
  - reflexivity.
  - reflexivity.
  - discriminate.
  - apply (bool_decide_unpack _). vm_compute. exact I.
  - apply (bool_decide_unpack _). vm_compute. exact I.
Defined.

Lemma baseLoadUsers_effect w :
  (baseLoadUsers w).1 = normalized <$> users_file w
  /\ users_file (baseLoadUsers w).2 = normalized <$> users_file w
  /\ usage_file (baseLoadUsers w).2 = usage_file w
  /\ _cachedEnriched (baseLoadUsers w).2 = _cachedEnriched w
  /\ nwrites USAGE_FILE (io (baseLoadUsers w).2) = nwrites USAGE_FILE (io w)
  /\ (forall us, users_file w = Some us -> needPersist_of us = false ->
        nwrites USERS_FILE (io (baseLoadUsers w).2) = nwrites USERS_FILE (io w)).
Proof.
  destruct (users_file w) as [us|] eqn:Hus.
  - rewrite (baseLoadUsers_run w us Hus). cbn.
    repeat (split; [done|]). split.
    + unfold nwrites. by destruct (needPersist_of us).
    + intros us0 [= <-] ->. done.
  - rewrite (baseLoadUsers_fail w Hus). cbn. by rewrite Hus.
Qed.

Lemma request_cycle_users s :
  (users_file (sys_world (request_cycle s)) = users_file (sys_world s)
   \/ users_file (sys_world (request_cycle s)) = normalized <$> users_file (sys_world s))
  /\ (forall us, users_file (sys_world s) = Some us -> needPersist_of us = false ->
        nwrites USERS_FILE (io (sys_world (request_cycle s)))
        = nwrites USERS_FILE (io (sys_world s))).
Proof.
  destruct s as [w susp]. unfold request_cycle. cbn [sys_world sys_suspended].
  destruct (_isAggregating w) eqn:Hfl.
  - unfold aggregate_begin. rewrite Hfl. cbn. by split; [left|].
  - destruct (users_file w) as [us|] eqn:Hus.
    + rewrite (aggregate_begin_run w us Hus Hfl). cbn. split; [by right|].
      intros us0 [= <-] ->. done.
    + rewrite (aggregate_begin_fail w Hus Hfl). cbn. rewrite Hus. by split; [left|].
Qed.

(** X28. While no snapshot has been published, GET /api/users answers from
    the user store: with the records as [baseLoadUsers] completes them, or
    with 500 when the store is unreadable.  The handler leaves the
    accumulator store alone and publishes nothing, also when it starts a
    cycle; a user store that needs no repair is not written. *)
Theorem get_users_before_the_first_snapshot now s :
  _cachedEnriched (sys_world s) = [] ->
  let s' := (get_users now s).2 in
  (get_users now s).1
  = match users_file (sys_world s) with
    | Some us => Some (FromStore (normalized us))
    | None => None
    end
  /\ users_file (sys_world s') = normalized <$> users_file (sys_world s)
  /\ usage_file (sys_world s') = usage_file (sys_world s)
  /\ _cachedEnriched (sys_world s') = []
  /\ nwrites USAGE_FILE (io (sys_world s')) = nwrites USAGE_FILE (io (sys_world s))
  /\ (forall us, users_file (sys_world s) = Some us -> needPersist_of us = false ->
        users_file (sys_world s') = Some us
        /\ nwrites USERS_FILE (io (sys_world s')) = nwrites USERS_FILE (io (sys_world s))).
Proof.
  intros Hcache. cbv zeta. unfold get_users.
  set (s1 := if (now - _cacheStamp (sys_world s) >? AGG_INTERVAL_MS * 2)
                && negb (_isAggregating (sys_world s))
             then request_cycle s else s).
  assert (H1 :
    (users_file (sys_world s1) = users_file (sys_world s)
     \/ users_file (sys_world s1) = normalized <$> users_file (sys_world s))
    /\ usage_file (sys_world s1) = usage_file (sys_world s)
    /\ _cachedEnriched (sys_world s1) = []
    /\ nwrites USAGE_FILE (io (sys_world s1)) = nwrites USAGE_FILE (io (sys_world s))
    /\ (forall us, users_file (sys_world s) = Some us -> needPersist_of us = false ->
          nwrites USERS_FILE (io (sys_world s1)) = nwrites USERS_FILE (io (sys_world s)))).
  { subst s1. destruct (_ && _).
    - destruct (request_cycle_frame s) as (Hc & _ & Hu & Hw).
      destruct (request_cycle_users s) as [Hus Hwu].
      rewrite Hc. done.
    - split; [by left|]. done. }
  clearbody s1. destruct H1 as (Hus1 & Hu1 & Hc1 & Hw1 & Hwu1).
  rewrite Hc1.
  destruct (baseLoadUsers_effect (sys_world s1)) as (Hr & Hus2 & Hu2 & Hc2 & Hw2 & Hwu2).
  assert (Hnorm : normalized <$> users_file (sys_world s1)
                  = normalized <$> users_file (sys_world s)).
  { destruct Hus1 as [->| ->]; [done|].
    destruct (users_file (sys_world s)) as [us|]; [|done]. cbn.
    by rewrite normalized_idem. }
  rewrite Hnorm in Hr, Hus2.
  assert (Hshape :
    (match baseLoadUsers (sys_world s1) with
     | (Some users, w') => (Some (FromStore users), MkSystem w' (sys_suspended s1))
     | (None, w') => (None, MkSystem w' (sys_suspended s1))
     end)
    = (FromStore <$> (baseLoadUsers (sys_world s1)).1,
       MkSystem (baseLoadUsers (sys_world s1)).2 (sys_suspended s1))).
  { by destruct (baseLoadUsers (sys_world s1)) as [[users|] w']. }
  rewrite Hshape. cbn [fst snd sys_world].
  rewrite Hr, Hus2, Hu2, Hc2, Hw2, Hu1, Hc1, Hw1.
  split; [by destruct (users_file (sys_world s))|].
  repeat (split; [done|]).
  intros us Hus Hnp. rewrite Hus. cbn. rewrite (normalized_clean us Hnp).
  split; [done|]. rewrite <- (Hwu1 us Hus Hnp). apply (Hwu2 us); [|done].
  destruct Hus1 as [->| ->]; [done|]. rewrite Hus. cbn.
  by rewrite (normalized_clean us Hnp).
Qed.

Lemma get_users_before_the_first_snapshot_witness :
  let s := MkSystem (boot (Some [alice; carol]) (Some ∅)) [] in
  let s' := (get_users 20000 s).2 in
  (get_users 20000 s).1
  = match users_file (sys_world s) with
    | Some us => Some (FromStore (normalized us))
    | None => None
    end
  /\ users_file (sys_world s') = normalized <$> users_file (sys_world s)
  /\ usage_file (sys_world s') = usage_file (sys_world s)
  /\ _cachedEnriched (sys_world s') = []
  /\ nwrites USAGE_FILE (io (sys_world s')) = nwrites USAGE_FILE (io (sys_world s))
  /\ (forall us, users_file (sys_world s) = Some us -> needPersist_of us = false ->
        users_file (sys_world s') = Some us
        /\ nwrites USERS_FILE (io (sys_world s')) = nwrites USERS_FILE (io (sys_world s))).
Proof.
  apply (get_users_before_the_first_snapshot 20000
           (MkSystem (boot (Some [alice; carol]) (Some ∅)) [])).
  reflexivity.
Defined.

(** * syncVlessClients *)

Lemma string_eqb_refl (a : string) : String.eqb a a = true.
Proof. by apply String.eqb_eq. Qed.

Section SyncProperties.

Variable norm : list cfg_client -> option string.

Lemma sync_inbounds_unchanged desired inbounds inbounds' :
  sync_inbounds norm desired inbounds = Some (inbounds', false) ->
  inbounds' = inbounds.
Proof.
  revert inbounds'. induction inbounds as [|ib rest IH]; intros inbounds'; simpl.
  - by intros [= <-].
  - destruct (if String.eqb (in_protocol ib) "vless" then in_clients ib else None)
      as [prev|].
    + destruct (norm prev) as [a|]; [|done]. cbn.
      destruct (norm desired) as [b|]; [|done]. cbn.
      destruct (negb (String.eqb a b)); [done|]. by intros [= <-].
    + destruct (sync_inbounds norm desired rest) as [[rest' c]|]; [|done]. cbn.
      intros [= <- ->]. by rewrite (IH rest').
Qed.

Lemma sync_inbounds_changed desired inbounds inbounds' :
  sync_inbounds norm desired inbounds = Some (inbounds', true) ->
  exists i ib prev a b,
    inbounds !! i = Some ib
    /\ in_protocol ib = "vless" /\ in_clients ib = Some prev
    /\ (forall j ib', (j < i)%nat -> inbounds !! j = Some ib' -> eligible ib' = false)
    /\ norm prev = Some a /\ norm desired = Some b /\ a <> b
    /\ inbounds' = <[i := set_clients desired ib]> inbounds.
Proof.
  revert inbounds'. induction inbounds as [|ib rest IH]; intros inbounds'; simpl.
  - done.
  - destruct (String.eqb (in_protocol ib) "vless") eqn:Hp.
    + destruct (in_clients ib) as [prev|] eqn:Hc.
      * destruct (norm prev) as [a|] eqn:Ha; [|done]. cbn.
        destruct (norm desired) as [b|] eqn:Hb; [|done]. cbn.
        destruct (String.eqb a b) eqn:Hab; [done|]. cbn. intros [= <-].
        exists 0%nat, ib, prev, a, b. apply String.eqb_eq in Hp.
        apply String.eqb_neq in Hab.
        repeat (split; [done|]). split; [|done]. intros j ib' Hj. lia.
      * destruct (sync_inbounds norm desired rest) as [[rest' c]|]; [|done]. cbn.
        intros [= <- ->].
        destruct (IH rest' eq_refl) as (i & ib0 & prev & a & b & H1 & H2 & H3 & H4 & H5).
        exists (S i), ib0, prev, a, b. repeat (split; [done|]).
        destruct H5 as (H5 & H6 & H7 & ->). split; [|done].
        intros [|j] ib' Hj Hib'.
        -- injection Hib' as <-. unfold eligible. rewrite Hc.
           by rewrite andb_false_r.
        -- apply (H4 j ib'); [lia|done].
    + destruct (sync_inbounds norm desired rest) as [[rest' c]|]; [|done]. cbn.
      intros [= <- ->].
      destruct (IH rest' eq_refl) as (i & ib0 & prev & a & b & H1 & H2 & H3 & H4 & H5).
      exists (S i), ib0, prev, a, b. repeat (split; [done|]).
      destruct H5 as (H5 & H6 & H7 & ->). split; [|done].
      intros [|j] ib' Hj Hib'.
      * injection Hib' as <-. unfold eligible. by rewrite Hp.
      * apply (H4 j ib'); [lia|done].
Qed.

Lemma sync_inbounds_again desired inbounds i ib b :
  inbounds !! i = Some ib ->
  (forall j ib', (j < i)%nat -> inbounds !! j = Some ib' -> eligible ib' = false) ->
  in_protocol ib = "vless" -> norm desired = Some b ->
  sync_inbounds norm desired (<[i := set_clients desired ib]> inbounds)
  = Some (<[i := set_clients desired ib]> inbounds, false).
Proof.
  revert i. induction inbounds as [|x rest IH]; intros i Hi Hbefore Hp Hb; [done|].
  destruct i as [|i]; simpl.
  - rewrite Hp. cbn. rewrite Hb. cbn. by rewrite string_eqb_refl.
  - assert (Hx : eligible x = false) by (apply (Hbefore 0%nat x); [lia|done]).
    assert (Hx' : (if String.eqb (in_protocol x) "vless" then in_clients x else None) = None).
    { unfold eligible in Hx. destruct (String.eqb (in_protocol x) "vless"); [|done].
      destruct (in_clients x); [done|done]. }
    rewrite Hx'. rewrite (IH i); [done|done| |done|done].
    intros j ib' Hj Hib'. apply (Hbefore (S j) ib'); [lia|done].
Qed.

(** X29. What [syncVlessClients] writes is local: when it reports no
    change the configuration is what it was; when it reports a change,
    exactly one inbound differs, the first one of protocol [vless] that has
    a client array, and its clients have become the list built from the
    users that are not disabled.  Every other inbound is written back as it
    was read. *)
Theorem sync_rewrites_the_first_vless_inbound users cfg :
  let desired := as_cfg <$> buildDesiredClients users in
  let r := syncVlessClients norm users cfg in
  (r.1 = false -> r.2 = cfg)
  /\ (r.1 = true ->
      exists inbounds i ib prev,
        cfg = Some (Some inbounds)
        /\ inbounds !! i = Some ib /\ eligible ib = true /\ in_clients ib = Some prev
        /\ (forall j ib', (j < i)%nat -> inbounds !! j = Some ib' -> eligible ib' = false)
        /\ norm prev <> norm desired
        /\ r.2 = Some (Some (<[i := Inbound "vless" (Some desired)]> inbounds))).
Proof.
  cbv zeta. unfold syncVlessClients.
  destruct cfg as [[inbounds|]|]; [|by split..].
  destruct (sync_inbounds norm _ inbounds) as [[inbounds' [|]]|] eqn:Hs; [|by split..].
  split; [done|]. intros _.
  destruct (sync_inbounds_changed _ _ _ Hs)
    as (i & ib & prev & a & b & H1 & H2 & H3 & H4 & H5 & H6 & H7 & ->).
  exists inbounds, i, ib, prev. split; [done|]. split; [done|].
  split; [unfold eligible; rewrite H2, H3; done|]. split; [done|]. split; [done|].
  split; [rewrite H5, H6; congruence|].
  cbn. unfold set_clients. by rewrite H2.
Qed.

(** X30. [syncVlessClients] is idempotent: run again on the configuration
    it has left, with the same users, it reports no change and leaves the
    configuration as it is. *)
Theorem sync_twice_changes_nothing users cfg :
  syncVlessClients norm users (syncVlessClients norm users cfg).2
  = (false, (syncVlessClients norm users cfg).2).
Proof.
  unfold syncVlessClients at 2 3.
  destruct cfg as [[inbounds|]|]; [|done..].
  destruct (sync_inbounds norm _ inbounds) as [[inbounds' [|]]|] eqn:Hs.
  - destruct (sync_inbounds_changed _ _ _ Hs)
      as (i & ib & prev & a & b & H1 & H2 & H3 & H4 & H5 & H6 & H7 & ->).
    cbn. by rewrite (sync_inbounds_again _ inbounds i ib b H1 H4 H2 H6).
  - cbn. unfold syncVlessClients. by rewrite Hs.
  - cbn. unfold syncVlessClients. by rewrite Hs.
Qed.

End SyncProperties.

Lemma sync_rewrites_the_first_vless_inbound_witness :
  let cfg := Some (Some [Inbound "http" None; Inbound "vless" (Some []);
                         Inbound "vless" (Some [])]) in
  let desired := as_cfg <$> buildDesiredClients [alice; bob] in
  let r := syncVlessClients norm_text [alice; bob] cfg in
  r.1 = true
  /\ exists inbounds i ib prev,
       cfg = Some (Some inbounds)
       /\ inbounds !! i = Some ib /\ eligible ib = true /\ in_clients ib = Some prev
       /\ (forall j ib', (j < i)%nat -> inbounds !! j = Some ib' -> eligible ib' = false)
       /\ norm_text prev <> norm_text desired
       /\ r.2 = Some (Some (<[i := Inbound "vless" (Some desired)]> inbounds)).
Proof.
  split; [reflexivity|].
  apply (proj2 (sync_rewrites_the_first_vless_inbound norm_text [alice; bob]
                  (Some (Some [Inbound "http" None; Inbound "vless" (Some []);
                               Inbound "vless" (Some [])])))).
  reflexivity.
Defined.
